(** * Student identifier resolution: a shallow embedding of
      [src/pages/StudentProfile.tsx] and [src/services/store.ts]

    The development follows the source files.  JavaScript strings are
    lists of code units; the model covers the code units below 256 (ASCII
    and the Latin-1 supplement) and, for the one case in which lowering a
    string changes its length, U+0130 and U+0307.  The
    built-ins the program calls ([toLowerCase], [trim], [Number], [parseInt],
    [Array.prototype.sort], the regular expressions) are written out after
    ECMA-262.  The hosted data store behind the supabase client is modelled
    by two tables and the queries the program sends to them. *)

From Stdlib Require Import List ZArith Lia Bool Ascii String Sorted Permutation.
Import ListNotations.

Local Open Scope Z_scope.

(** ** JavaScript strings *)

(** A code unit of the model: one of the 256 below U+0100, or one of the
    two units that [toLowerCase] needs beyond them.  U+0130 (capital I with
    dot above) is the one character whose lowercase takes more code units
    than the character: it becomes [i] followed by U+0307 (combining dot
    above). *)
Inductive codeUnit : Type :=
| Latin (a : ascii)
| CapitalIDot
| DotAbove.

Coercion Latin : ascii >-> codeUnit.

Definition jstring := list codeUnit.

(** [str "abc"] is the string literal ["abc"]. *)
Definition str (s : string) : jstring := map Latin (list_ascii_of_string s).

Definition code (c : codeUnit) : Z :=
  match c with
  | Latin a => Z.of_N (N_of_ascii a)
  | CapitalIDot => 304
  | DotAbove => 775
  end.

Definition unitEqb (a b : codeUnit) : bool :=
  match a, b with
  | Latin x, Latin y => Ascii.eqb x y
  | CapitalIDot, CapitalIDot => true
  | DotAbove, DotAbove => true
  | _, _ => false
  end.

Definition inRange (lo hi : Z) (c : codeUnit) : bool :=
  (lo <=? code c) && (code c <=? hi).

Definition isDigit (c : codeUnit) : bool := inRange 48 57 c.
Definition isUpper (c : codeUnit) : bool := inRange 65 90 c.
Definition isLower (c : codeUnit) : bool := inRange 97 122 c.

(** The character class [[a-zA-Z0-9]]. *)
Definition isAlnum (c : codeUnit) : bool := isLower c || isUpper c || isDigit c.

(** The character class [[0-9a-f]] under the [i] flag. *)
Definition isHexDigit (c : codeUnit) : bool :=
  isDigit c || inRange 97 102 c || inRange 65 70 c.

Definition isOctalDigit (c : codeUnit) : bool := inRange 48 55 c.
Definition isBinaryDigit (c : codeUnit) : bool := inRange 48 49 c.

(** WhiteSpace and LineTerminator code units of the model: TAB, LF, VT, FF,
    CR, SP and NBSP. *)
Definition isWhiteSpace (c : codeUnit) : bool :=
  inRange 9 13 c || (code c =? 32) || (code c =? 160).

Definition isChar (k : ascii) (c : codeUnit) : bool := unitEqb c k.

(** The lowercase of a code unit that stays one code unit: A-Z, and the
    Latin-1 capitals U+00C0..U+00DE except the multiplication sign
    U+00D7. *)
Definition lowerChar (c : codeUnit) : codeUnit :=
  match c with
  | Latin a =>
      if isUpper c || (inRange 192 222 c && negb (code c =? 215))
      then Latin (ascii_of_N (N_of_ascii a + 32))
      else c
  | _ => c
  end.

(** The lowercase of one code unit. *)
Definition lowerUnit (c : codeUnit) : jstring :=
  match c with
  | CapitalIDot => [Latin "i"; DotAbove]
  | _ => [lowerChar c]
  end.

(** [String.prototype.toLowerCase] *)
Definition toLowerCase (s : jstring) : jstring := flat_map lowerUnit s.

Fixpoint jeqb (a b : jstring) : bool :=
  match a, b with
  | [], [] => true
  | x :: a', y :: b' => unitEqb x y && jeqb a' b'
  | _, _ => false
  end.

(** [s.startsWith(p)] *)
Fixpoint startsWith (s p : jstring) {struct p} : bool :=
  match p, s with
  | [], _ => true
  | k :: p', c :: s' => unitEqb c k && startsWith s' p'
  | _ :: _, [] => false
  end.

(** [s.slice(n)] for a start index [n >= 0]. *)
Definition slice (s : jstring) (n : nat) : jstring := skipn n s.

(** [s.replace(/[^a-zA-Z0-9]/g, '')] *)
Definition stripNonAlnum (s : jstring) : jstring := filter isAlnum s.

Fixpoint trimStart (s : jstring) : jstring :=
  match s with
  | c :: r => if isWhiteSpace c then trimStart r else s
  | [] => []
  end.

Definition trimEnd (s : jstring) : jstring := rev (trimStart (rev s)).

(** [s.trim()] *)
Definition trim (s : jstring) : jstring := trimEnd (trimStart s).

(** *** [Number(s)] on a string: which strings are numeric

    StringToNumber trims the string, maps the empty string to 0 and
    otherwise needs a StrNumericLiteral (ECMA-262, 7.1.4.1); everything else
    is NaN.  Only [isNaN (Number s)] is observed by the program. *)

Fixpoint dropDigits (s : jstring) : jstring :=
  match s with
  | c :: r => if isDigit c then dropDigits r else s
  | [] => []
  end.

Definition startsWithDigit (s : jstring) : bool :=
  match s with
  | c :: _ => isDigit c
  | [] => false
  end.

(** DecimalDigits: one or more digits, nothing else. *)
Definition DecimalDigits (s : jstring) : bool :=
  startsWithDigit s && forallb isDigit s.

(** SignedInteger ::: DecimalDigits | + DecimalDigits | - DecimalDigits *)
Definition SignedInteger (s : jstring) : bool :=
  match s with
  | c :: r => if isChar "+" c || isChar "-" c then DecimalDigits r
              else DecimalDigits s
  | [] => false
  end.

(** ExponentPart(opt): nothing, or [e]/[E] followed by a SignedInteger. *)
Definition ExponentPartOpt (s : jstring) : bool :=
  match s with
  | [] => true
  | c :: r => (isChar "e" c || isChar "E" c) && SignedInteger r
  end.

(** The three digit forms of StrUnsignedDecimalLiteral. *)
Definition DecimalForm (s : jstring) : bool :=
  match s with
  | [] => false
  | c :: r =>
      if isChar "." c
      then startsWithDigit r && ExponentPartOpt (dropDigits r)
      else startsWithDigit s &&
           match dropDigits s with
           | d :: r2 => if isChar "." d then ExponentPartOpt (dropDigits r2)
                        else ExponentPartOpt (d :: r2)
           | [] => true
           end
  end.

Definition StrUnsignedDecimalLiteral (s : jstring) : bool :=
  jeqb s (str "Infinity") || DecimalForm s.

Definition StrDecimalLiteral (s : jstring) : bool :=
  match s with
  | c :: r => if isChar "+" c || isChar "-" c then StrUnsignedDecimalLiteral r
              else StrUnsignedDecimalLiteral s
  | [] => false
  end.

Definition nonEmptyAll (p : codeUnit -> bool) (s : jstring) : bool :=
  match s with
  | [] => false
  | _ :: _ => forallb p s
  end.

(** NonDecimalIntegerLiteral: [0x], [0o] and [0b] forms, unsigned. *)
Definition NonDecimalIntegerLiteral (s : jstring) : bool :=
  match s with
  | z :: k :: r =>
      isChar "0" z &&
      (((isChar "x" k || isChar "X" k) && nonEmptyAll isHexDigit r) ||
       ((isChar "o" k || isChar "O" k) && nonEmptyAll isOctalDigit r) ||
       ((isChar "b" k || isChar "B" k) && nonEmptyAll isBinaryDigit r))
  | _ => false
  end.

Definition StrNumericLiteral (s : jstring) : bool :=
  StrDecimalLiteral s || NonDecimalIntegerLiteral s.

(** [isNaN(Number(s))] *)
Definition Number_isNaN (s : jstring) : bool :=
  match trim s with
  | [] => false
  | t => negb (StrNumericLiteral t)
  end.

(** *** [parseInt(s)] with no radix

    [None] stands for NaN.  The value is the exact integer, which is what
    ECMA-262 gives for inputs of fewer than 16 digits; the program calls
    [parseInt] on strings of fewer than 10 characters only. *)

Definition digitValue (c : codeUnit) : Z :=
  if isDigit c then code c - 48
  else if inRange 97 102 c then code c - 87
  else code c - 55.

Definition isRadixDigit (radix : Z) (c : codeUnit) : bool :=
  if radix =? 16 then isHexDigit c else isDigit c.

Fixpoint takeWhile (p : codeUnit -> bool) (s : jstring) : jstring :=
  match s with
  | c :: r => if p c then c :: takeWhile p r else []
  | [] => []
  end.

Definition digitsValue (radix : Z) (ds : jstring) : Z :=
  fold_left (fun acc c => acc * radix + digitValue c) ds 0.

Definition splitSign (s : jstring) : Z * jstring :=
  match s with
  | c :: r => if isChar "-" c then (-1, r)
              else if isChar "+" c then (1, r)
              else (1, s)
  | [] => (1, [])
  end.

Definition splitRadix (s : jstring) : Z * jstring :=
  match s with
  | z :: k :: r => if isChar "0" z && (isChar "x" k || isChar "X" k)
                   then (16, r) else (10, s)
  | _ => (10, s)
  end.

Definition parseInt (s : jstring) : option Z :=
  let (sign, s2) := splitSign (trimStart s) in
  let (radix, s3) := splitRadix s2 in
  match takeWhile (isRadixDigit radix) s3 with
  | [] => None
  | ds => Some (sign * digitsValue radix ds)
  end.

(** *** Number to string, as a template literal prints an integer

    Decimal digits, with a minus sign for negatives.  This is what
    JavaScript prints for the integers a Number holds exactly, those of
    magnitude up to [Number.MAX_SAFE_INTEGER]; the program prints sequence
    numbers, which an INTEGER column holds. *)

Definition digitChar (d : Z) : codeUnit :=
  Latin (ascii_of_N (Z.to_N (48 + d))).

Fixpoint digitsOf (fuel : nat) (n : Z) (acc : jstring) : jstring :=
  match fuel with
  | O => acc
  | S f => let acc' := digitChar (n mod 10) :: acc in
           if n <? 10 then acc' else digitsOf f (n / 10) acc'
  end.

Definition Number_toString (n : Z) : jstring :=
  if n <? 0
  then Latin "-" :: digitsOf (S (Z.to_nat (Z.log2 (- n)))) (- n) []
  else digitsOf (S (Z.to_nat (Z.log2 n))) n [].

(** *** [Array.prototype.sort] with a comparator

    The sort is stable (ECMA-262 since 2019): an element moves in front of
    another only when the comparator says it is smaller or equal and it
    came first.  Insertion from the right gives exactly that. *)

Section Sort.
Context {A : Type} (cmp : A -> A -> Z).

Fixpoint insertSorted (x : A) (l : list A) : list A :=
  match l with
  | [] => [x]
  | y :: l' => if cmp x y <=? 0 then x :: l else y :: insertSorted x l'
  end.

Definition sortBy (l : list A) : list A := fold_right insertSorted [] l.
End Sort.

(** The regular expression
    [/^[0-9a-f]{8}-[0-9a-f]{4}-[0-9a-f]{4}-[0-9a-f]{4}-[0-9a-f]{12}$/i]. *)

Fixpoint hexGroup (n : nat) (s : jstring) : option jstring :=
  match n with
  | O => Some s
  | S k => match s with
           | c :: r => if isHexDigit c then hexGroup k r else None
           | [] => None
           end
  end.

Definition dash (s : jstring) : option jstring :=
  match s with
  | c :: r => if isChar "-" c then Some r else None
  | [] => None
  end.

Definition andThen {A B} (o : option A) (f : A -> option B) : option B :=
  match o with
  | Some a => f a
  | None => None
  end.

Definition uuidRegex_test (s : jstring) : bool :=
  match andThen (andThen (andThen (andThen (andThen (andThen (andThen (andThen
          (hexGroup 8 s) dash) (hexGroup 4)) dash) (hexGroup 4)) dash)
          (hexGroup 4)) dash) (hexGroup 12) with
  | Some [] => true
  | _ => false
  end.

(** [s.includes(p)] *)
Fixpoint includes (s p : jstring) : bool :=
  startsWith s p ||
  match s with
  | _ :: s' => includes s' p
  | [] => false
  end.

(** ** Types of the application ([../types]) and rows of the store *)

(** Modelled from the spec: the type [ClassGroup] of [../types], a file
    that is not among the sources; an opaque stable identifier, a
    human-readable name and a description. *)
Module ClassGroup.
Record t := mk { id : jstring; name : jstring; description : jstring }.
End ClassGroup.

(** Modelled from the spec: the type [Student] of [../types]; an
    identifier, a reference to the owning class that may be null, a name,
    an optional sequence number and three numeric scores (kept as
    integers). *)
Module Student.
Record t := mk {
  id : jstring;
  classId : option jstring;
  name : jstring;
  uniqueId : option Z;
  note1 : Z;
  note2 : Z;
  note3 : Z
}.
End Student.

(** [Partial<Student>], the argument of [saveStudent]. *)
Module PartialStudent.
Record t := mk {
  id : option jstring;
  classId : option jstring;
  name : option jstring;
  uniqueId : option Z;
  note1 : option Z;
  note2 : option Z;
  note3 : option Z
}.
End PartialStudent.

Module ClassRow.
Record t := mk {
  id : jstring;
  name : jstring;
  description : option jstring;
  created_at : Z
}.
End ClassRow.

(** A row of table [students]; [unique_number] is the INTEGER column the
    program asks for in [ensureClassStudentNumbers]. *)
Module StudentRow.
Record t := mk {
  id : jstring;
  class_id : option jstring;
  name : option jstring;
  unique_number : option Z;
  note1 : option Z;
  note2 : option Z;
  note3 : option Z
}.
End StudentRow.

(** The object [saveStudent] sends to [upsert].  Key [id] is there or not;
    keys [class_id], [name] and [unique_number] are there from the start,
    with [None] for the value [undefined]; [has_unique_number] tells whether
    key [unique_number] is still there, which [delete payload.unique_number]
    ends. *)
Module Payload.
Record t := mk {
  id : option jstring;
  class_id : option jstring;
  name : option jstring;
  note1 : Z;
  note2 : Z;
  note3 : Z;
  unique_number : option Z;
  has_unique_number : bool
}.
End Payload.

(** ** The data store

    The hosted store the program reaches through the client of
    [./supabase] is not part of the sources; it is modelled as far as the
    program uses it, after PostgreSQL and the REST layer in front of it.
    Two tables, and a supply of identifiers for inserted rows.

    Identifier columns are of type uuid.  Text compared with them or
    written to them is read as a uuid first: thirty-two hexadecimal digits
    of either case, optionally in braces, with an optional hyphen after any
    group of four digits; anything else fails with error 22P02.  A uuid
    is printed in lower case, in the form 8-4-4-4-12.

    Column [unique_number] of table [students] is an INTEGER; a number
    outside its range fails with error 22003.  The program allows for a
    table that was created before the column was introduced: a write that
    names the column then fails with error 42703.

    Constraints beyond the types of the columns (foreign keys, NOT NULL)
    are not modelled. *)

Record PgError := mkError { code_of : jstring; message : jstring }.

Record Response (A : Type) := mkResponse {
  data : option A;
  error : option PgError
}.
Arguments mkResponse {A}.
Arguments data {A}.
Arguments error {A}.

Definition succeed {A} (a : A) : Response A :=
  {| data := Some a; error := None |}.
Definition fail {A} (c m : jstring) : Response A :=
  {| data := None; error := Some (mkError c m) |}.

(** [numbered] tells whether table [students] has column
    [unique_number]. *)
Record Database := mkDatabase {
  classes : list ClassRow.t;
  students : list StudentRow.t;
  mint : nat -> jstring;
  minted : nat;
  numbered : bool
}.

(** A value between the quotation marks of an error message. *)
Definition quoted (v : jstring) : jstring :=
  Latin (ascii_of_nat 34) :: v ++ [Latin (ascii_of_nat 34)].

(** The answer to a request the store refuses. *)
Definition refuse {A} (e : PgError) : Response A :=
  {| data := None; error := Some e |}.

Definition uuidError (v : jstring) : PgError :=
  mkError (str "22P02")
          (str "invalid input syntax for type uuid: " ++ quoted v).

Definition invalidUuid {A} (v : jstring) : Response A := refuse (uuidError v).

Definition columnError : PgError :=
  mkError (str "42703")
          (str "column " ++ quoted (str "unique_number") ++
           str " of relation " ++ quoted (str "students") ++
           str " does not exist").

(** The message names the value as the request carried it, in decimal
    digits. *)
Definition rangeError (n : Z) : PgError :=
  mkError (str "22003")
          (str "value " ++ quoted (Number_toString n) ++
           str " is out of range for type integer").

(** The range of an INTEGER column. *)
Definition inInt4 (n : Z) : bool :=
  (-2147483648 <=? n) && (n <=? 2147483647).

(** Sixteen bytes, two hexadecimal digits each, with an optional hyphen
    after every second byte but the last: the digits read, in lower case,
    and the text left over.  [i] is the number of bytes read so far. *)
Fixpoint readBytes (n i : nat) (s : jstring) : option (jstring * jstring) :=
  match n with
  | O => Some ([], s)
  | S k =>
      match s with
      | a :: b :: r =>
          if isHexDigit a && isHexDigit b then
            let r' := match r with
                      | c :: r2 =>
                          if isChar "-" c && Nat.odd i && (i <? 15)%nat
                          then r2 else r
                      | [] => r
                      end in
            match readBytes k (S i) r' with
            | Some (ds, rest) => Some (lowerChar a :: lowerChar b :: ds, rest)
            | None => None
            end
          else None
      | _ => None
      end
  end.

(** Thirty-two digits printed as a uuid. *)
Definition uuid_out (ds : jstring) : jstring :=
  firstn 8 ds ++ Latin "-" :: firstn 4 (skipn 8 ds) ++
  Latin "-" :: firstn 4 (skipn 12 ds) ++
  Latin "-" :: firstn 4 (skipn 16 ds) ++ Latin "-" :: skipn 20 ds.

(** Text read as a uuid, and the uuid printed: [None] when the text is not
    a uuid in any form the store reads. *)
Definition uuid_in (s : jstring) : option jstring :=
  let (braces, src) := match s with
                       | c :: r => if isChar "{" c then (true, r) else (false, s)
                       | [] => (false, s)
                       end in
  match readBytes 16 0 src with
  | Some (ds, rest) =>
      if jeqb rest (if braces then str "}" else []) then Some (uuid_out ds)
      else None
  | None => None
  end.

(** Two printed uuids are the same uuid. *)
Definition uuidEq (a b : jstring) : bool :=
  jeqb (toLowerCase a) (toLowerCase b).

Definition optUuidEq (a : option jstring) (b : jstring) : bool :=
  match a with
  | Some x => uuidEq x b
  | None => false
  end.

(** [.eq(column, v)] on a uuid column; [v] is [None] for [undefined]. *)
Definition eqUuid {R} (column : R -> option jstring) (v : option jstring)
    (rows : list R) : Response (list R) :=
  match v with
  | Some x => match uuid_in x with
              | Some u => succeed (filter (fun r => optUuidEq (column r) u) rows)
              | None => invalidUuid x
              end
  | None => invalidUuid (str "undefined")
  end.

(** [.maybeSingle()] *)
Definition maybeSingle {R} (r : Response (list R)) : Response R :=
  match error r with
  | Some e => {| data := None; error := Some e |}
  | None =>
      match data r with
      | Some [x] => succeed x
      | Some (_ :: _ :: _) =>
          fail (str "PGRST116")
               (str "JSON object requested, multiple (or no) rows returned")
      | _ => {| data := None; error := None |}
      end
  end.

(** Ascending order with NULLS LAST on a nullable column. *)
Definition nullsLast {K} (cmp : K -> K -> Z) (a b : option K) : Z :=
  match a, b with
  | Some x, Some y => cmp x y
  | Some _, None => -1
  | None, Some _ => 1
  | None, None => 0
  end.

Definition hasStudent (db : Database) (i : jstring) : bool :=
  existsb (fun r => uuidEq (StudentRow.id r) i) (students db).

(** The value a uuid column takes from a payload: the uuid printed, NULL
    for [undefined]. *)
Definition stored (v : option jstring) : option jstring :=
  match v with
  | Some x => uuid_in x
  | None => None
  end.

(** The text of a payload that a uuid column cannot take. *)
Definition unreadable (v : option jstring) : option jstring :=
  match v with
  | Some x => match uuid_in x with
              | Some _ => None
              | None => Some x
              end
  | None => None
  end.

(** The row an upsert leaves behind where the id is taken: every column
    named by a key of the payload is overwritten, with NULL where the value
    is [undefined]; [unique_number] keeps its value when its key is
    gone. *)
Definition mergeRow (old : StudentRow.t) (p : Payload.t) : StudentRow.t :=
  {| StudentRow.id := StudentRow.id old;
     StudentRow.class_id := stored (Payload.class_id p);
     StudentRow.name := Payload.name p;
     StudentRow.unique_number :=
       if Payload.has_unique_number p then Payload.unique_number p
       else StudentRow.unique_number old;
     StudentRow.note1 := Some (Payload.note1 p);
     StudentRow.note2 := Some (Payload.note2 p);
     StudentRow.note3 := Some (Payload.note3 p) |}.

(** The row an upsert inserts under id [i]. *)
Definition newRow (i : jstring) (p : Payload.t) : StudentRow.t :=
  {| StudentRow.id := i;
     StudentRow.class_id := stored (Payload.class_id p);
     StudentRow.name := Payload.name p;
     StudentRow.unique_number :=
       if Payload.has_unique_number p then Payload.unique_number p else None;
     StudentRow.note1 := Some (Payload.note1 p);
     StudentRow.note2 := Some (Payload.note2 p);
     StudentRow.note3 := Some (Payload.note3 p) |}.

Definition withStudents (db : Database) (rows : list StudentRow.t)
    (n : nat) : Database :=
  {| classes := classes db; students := rows; mint := mint db; minted := n;
     numbered := numbered db |}.

(** What the store objects to in a payload, if anything: a column it does
    not have, text that is not a uuid, a number out of range. *)
Definition refusal (p : Payload.t) (db : Database) : option PgError :=
  if Payload.has_unique_number p && negb (numbered db) then Some columnError
  else
    match unreadable (Payload.id p), unreadable (Payload.class_id p) with
    | Some i, _ => Some (uuidError i)
    | None, Some c => Some (uuidError c)
    | None, None =>
        match Payload.unique_number p with
        | Some n => if Payload.has_unique_number p && negb (inInt4 n)
                    then Some (rangeError n) else None
        | None => None
        end
    end.

(** [.upsert([payload]).select()]: the rows written and the new table.  A
    payload without an id is inserted under a new one; a payload with the
    id of a row replaces it; any other is inserted under its id. *)
Definition upsertRows (p : Payload.t) (db : Database)
    : Response (list StudentRow.t) * Database :=
  match refusal p db with
  | Some e => (refuse e, db)
  | None =>
      match stored (Payload.id p) with
      | None =>
          let r := newRow (mint db (minted db)) p in
          (succeed [r], withStudents db (students db ++ [r]) (S (minted db)))
      | Some u =>
          if hasStudent db u
          then let upd r := if uuidEq (StudentRow.id r) u then mergeRow r p
                            else r in
               (succeed (map upd (filter (fun r => uuidEq (StudentRow.id r) u)
                                         (students db))),
                withStudents db (map upd (students db)) (minted db))
          else let r := newRow u p in
               (succeed [r], withStudents db (students db ++ [r]) (minted db))
      end
  end.

(** ** Asynchronous calls

    Every [await] on the store suspends, lets the store answer and resumes:
    a state monad over the store, which also records the requests issued. *)

Inductive Query :=
| SelectClasses
| SelectClass (id : jstring)
| SelectStudentsByName (classId : jstring)
| SelectStudent (id : jstring)
| SelectStudentsOf (classId : option jstring)
| UpsertStudent (p : Payload.t).

Record World := mkWorld { db : Database; issued : list Query }.

Definition Async (A : Type) := World -> A * World.

Definition ret {A} (a : A) : Async A := fun w => (a, w).

Definition bind {A B} (m : Async A) (k : A -> Async B) : Async B :=
  fun w => let (a, w') := m w in k a w'.

Notation "x <- m ;; k" := (bind m (fun x => k))
  (at level 61, m at next level, right associativity).

(** A read: the answer is computed from the tables, the request is logged. *)
Definition ask {A} (q : Query) (answer : Database -> A) : Async A :=
  fun w => (answer (db w), {| db := db w; issued := issued w ++ [q] |}).

(** A write: the tables change as well. *)
Definition tell {A} (q : Query) (run : Database -> A * Database) : Async A :=
  fun w => let (a, d) := run (db w) in
           (a, {| db := d; issued := issued w ++ [q] |}).

Definition boot (d : Database) : World := {| db := d; issued := [] |}.

(** The result of a computation started on tables [d] with nothing issued
    yet, and the requests it issues. *)
Definition run {A} (m : Async A) (d : Database) : A := fst (m (boot d)).

Definition requests {A} (m : Async A) (d : Database) : list Query :=
  issued (snd (m (boot d))).

(** ** [src/services/store.ts] *)

Definition mapClassFromDB (r : ClassRow.t) : ClassGroup.t :=
  {| ClassGroup.id := ClassRow.id r;
     ClassGroup.name := ClassRow.name r;
     ClassGroup.description :=
       match ClassRow.description r with
       | Some (c :: d) => c :: d
       | _ => []
       end |}.

(** [Number(x) || 0] on a nullable integer column. *)
Definition numberOrZero (x : option Z) : Z :=
  match x with
  | Some n => n
  | None => 0
  end.

Definition mapStudentFromDB (r : StudentRow.t) : Student.t :=
  {| Student.id := StudentRow.id r;
     Student.classId := StudentRow.class_id r;
     Student.name :=
       match StudentRow.name r with
       | Some (c :: d) => c :: d
       | _ => []
       end;
     Student.uniqueId :=
       match StudentRow.unique_number r with
       | Some n => if n =? 0 then None else Some n
       | None => None
       end;
     Student.note1 := numberOrZero (StudentRow.note1 r);
     Student.note2 := numberOrZero (StudentRow.note2 r);
     Student.note3 := numberOrZero (StudentRow.note3 r) |}.

Definition isTableMissingError (e : PgError) : bool :=
  jeqb (code_of e) (str "42P01") || jeqb (code_of e) (str "PGRST205").

Definition isValidUUID (id : jstring) : bool := uuidRegex_test id.

Definition MAX_SAFE_INTEGER : Z := 9007199254740991.

Definition getClasses : Async (list ClassGroup.t) :=
  r <- ask SelectClasses (fun d =>
         succeed (sortBy (fun a b => ClassRow.created_at a - ClassRow.created_at b)
                         (classes d))) ;;
  match error r with
  | Some e => if isTableMissingError e then ret [] else ret []
  | None =>
      ret (map mapClassFromDB (match data r with Some l => l | None => [] end))
  end.

Definition getClass (id : jstring) : Async (option ClassGroup.t) :=
  r <- ask (SelectClass id) (fun d =>
         maybeSingle (eqUuid (fun c => Some (ClassRow.id c)) (Some id)
                             (classes d))) ;;
  match error r with
  | Some _ => ret None
  | None =>
      match data r with
      | None => ret None
      | Some row => ret (Some (mapClassFromDB row))
      end
  end.

Section Collation.

(** [String.prototype.localeCompare] of the host, and the collation by
    which the store orders the [name] column. *)
Variable localeCompare : jstring -> jstring -> Z.
Variable pgCollate : jstring -> jstring -> Z.

(** The comparator handed to [students.sort]. *)
Definition byUniqueIdThenName (a b : Student.t) : Z :=
  let idA := match Student.uniqueId a with
             | Some n => n
             | None => MAX_SAFE_INTEGER
             end in
  let idB := match Student.uniqueId b with
             | Some n => n
             | None => MAX_SAFE_INTEGER
             end in
  if negb (idA =? idB) then idA - idB
  else localeCompare (Student.name a) (Student.name b).

Definition getStudents (classId : jstring) : Async (list Student.t) :=
  r <- ask (SelectStudentsByName classId) (fun d =>
         match eqUuid StudentRow.class_id (Some classId) (students d) with
         | {| data := Some rows; error := None |} =>
             succeed (sortBy (fun a b => nullsLast pgCollate (StudentRow.name a)
                                                   (StudentRow.name b)) rows)
         | other => other
         end) ;;
  match error r with
  | Some e => if isTableMissingError e then ret [] else ret []
  | None =>
      let students :=
        map mapStudentFromDB (match data r with Some l => l | None => [] end) in
      ret (sortBy byUniqueIdThenName students)
  end.

End Collation.

Definition getStudent (id : jstring) : Async (option Student.t) :=
  if negb (isValidUUID id) then ret None
  else
    r <- ask (SelectStudent id) (fun d =>
           maybeSingle (eqUuid (fun s => Some (StudentRow.id s)) (Some id)
                               (students d))) ;;
    match error r with
    | Some _ => ret None
    | None =>
        match data r with
        | None => ret None
        | Some row => ret (Some (mapStudentFromDB row))
        end
    end.

(** [x ?? 0] *)
Definition orZero (x : option Z) : Z :=
  match x with
  | Some n => n
  | None => 0
  end.

(** [!payload.unique_number] *)
Definition missingNumber (x : option Z) : bool :=
  match x with
  | Some n => n =? 0
  | None => true
  end.

(** The [reduce] over the rows of the class. *)
Definition maxUniqueNumber (rows : list StudentRow.t) : Z :=
  fold_left (fun max curr =>
               let num := numberOrZero (StudentRow.unique_number curr) in
               if num >? max then num else max)
            rows 0.

(** [payload.unique_number = n] *)
Definition withNumber (p : Payload.t) (n : option Z) : Payload.t :=
  {| Payload.id := Payload.id p;
     Payload.class_id := Payload.class_id p;
     Payload.name := Payload.name p;
     Payload.note1 := Payload.note1 p;
     Payload.note2 := Payload.note2 p;
     Payload.note3 := Payload.note3 p;
     Payload.unique_number := n;
     Payload.has_unique_number := true |}.

(** [delete payload.unique_number] *)
Definition deleteNumber (p : Payload.t) : Payload.t :=
  {| Payload.id := Payload.id p;
     Payload.class_id := Payload.class_id p;
     Payload.name := Payload.name p;
     Payload.note1 := Payload.note1 p;
     Payload.note2 := Payload.note2 p;
     Payload.note3 := Payload.note3 p;
     Payload.unique_number := None;
     Payload.has_unique_number := false |}.

(** The object literal [saveStudent] starts from. *)
Definition initialPayload (student : PartialStudent.t) : Payload.t :=
  {| Payload.id :=
       match PartialStudent.id student with
       | Some (c :: i) =>
           if negb (startsWith (c :: i) (str "temp-")) then Some (c :: i)
           else None
       | _ => None
       end;
     Payload.class_id := PartialStudent.classId student;
     Payload.name := PartialStudent.name student;
     Payload.note1 := orZero (PartialStudent.note1 student);
     Payload.note2 := orZero (PartialStudent.note2 student);
     Payload.note3 := orZero (PartialStudent.note3 student);
     Payload.unique_number := PartialStudent.uniqueId student;
     Payload.has_unique_number := true |}.

(** The first half of [saveStudent]: the payload as it stands when the
    upsert is sent. *)
Definition preparePayload (student : PartialStudent.t) : Async Payload.t :=
  let payload := initialPayload student in
  if missingNumber (Payload.unique_number payload) then
    r <- ask (SelectStudentsOf (PartialStudent.classId student)) (fun d =>
           eqUuid StudentRow.class_id (PartialStudent.classId student)
                  (students d)) ;;
    match error r, data r with
    | None, Some existingStudents =>
        ret (withNumber payload (Some (maxUniqueNumber existingStudents + 1)))
    | _, _ => ret payload
    end
  else ret payload.

Definition upsertStudent (p : Payload.t) : Async (Response StudentRow.t) :=
  tell (UpsertStudent p) (fun d =>
    let (r, d') := upsertRows p d in (maybeSingle r, d')).

Definition saveStudent (student : PartialStudent.t) : Async (option Student.t) :=
  payload <- preparePayload student ;;
  r <- upsertStudent payload ;;
  r' <- match error r with
        | Some e =>
            if jeqb (code_of e) (str "42703") ||
               includes (message e) (str "unique_number")
            then upsertStudent (deleteNumber payload)
            else ret r
        | None => ret r
        end ;;
  match error r' with
  | Some _ => ret None
  | None =>
      match data r' with
      | None => ret None
      | Some row => ret (Some (mapStudentFromDB row))
      end
  end.

(** A [Student] passed where a [Partial<Student>] is expected. *)
Definition asPartial (s : Student.t) : PartialStudent.t :=
  {| PartialStudent.id := Some (Student.id s);
     PartialStudent.classId := Student.classId s;
     PartialStudent.name := Some (Student.name s);
     PartialStudent.uniqueId := Student.uniqueId s;
     PartialStudent.note1 := Some (Student.note1 s);
     PartialStudent.note2 := Some (Student.note2 s);
     PartialStudent.note3 := Some (Student.note3 s) |}.

(** ** [src/pages/StudentProfile.tsx] *)

(** [cls.name.replace(/[^a-zA-Z0-9]/g, '').toLowerCase()] *)
Definition cleanName (cls : ClassGroup.t) : jstring :=
  toLowerCase (stripNonAlnum (ClassGroup.name cls)).

(** The comparator handed to [allClasses.sort]. *)
Definition byNameLengthDesc (a b : ClassGroup.t) : Z :=
  Z.of_nat (List.length (ClassGroup.name b)) -
  Z.of_nat (List.length (ClassGroup.name a)).

(** The remainder of [id] after a clean name, underscore dropped, trimmed. *)
Definition cleanRemainderOf (id cleanName : jstring) : jstring :=
  let remainder := slice id (List.length cleanName) in
  let remainder :=
    if startsWith remainder (str "_") then slice remainder 1 else remainder in
  trim remainder.

(** The guard of "Case 1". *)
Definition isNumberRemainder (cleanRemainder : jstring) : bool :=
  negb (Number_isNaN cleanRemainder) &&
  (0 <? Z.of_nat (List.length cleanRemainder)) &&
  (Z.of_nat (List.length cleanRemainder) <? 10).

(** [s.uniqueId === uniqueNum], with [None] for NaN on the right. *)
Definition hasUniqueId (uniqueNum : option Z) (s : Student.t) : bool :=
  match Student.uniqueId s, uniqueNum with
  | Some a, Some b => a =? b
  | _, _ => false
  end.

Section Resolver.

Variable localeCompare : jstring -> jstring -> Z.
Variable pgCollate : jstring -> jstring -> Z.

(** "Case 1": the remainder as a number of the class. *)
Definition tryNumber (cls : ClassGroup.t) (cleanRemainder : jstring)
    : Async (option Student.t) :=
  if isNumberRemainder cleanRemainder then
    let uniqueNum := parseInt cleanRemainder in
    studentsInClass <- getStudents localeCompare pgCollate (ClassGroup.id cls) ;;
    ret (find (hasUniqueId uniqueNum) studentsInClass)
  else ret None.

(** "Case 2": the remainder as a uuid. *)
Definition tryUuid (cleanRemainder : jstring) : Async (option Student.t) :=
  if uuidRegex_test cleanRemainder then getStudent cleanRemainder
  else ret None.

(** One turn of the loop for a class whose clean name starts the id. *)
Definition tryClass (id : jstring) (cls : ClassGroup.t)
    : Async (option Student.t) :=
  let cleanRemainder := cleanRemainderOf id (cleanName cls) in
  fetchedStudent <- tryNumber cls cleanRemainder ;;
  match fetchedStudent with
  | Some s => ret (Some s)
  | None => tryUuid cleanRemainder
  end.

(** The [for] loop over [sortedClasses]; a student found ends it, with the
    class at hand as [fetchedClass]. *)
Fixpoint scanClasses (id normalizedId : jstring) (cs : list ClassGroup.t)
    : Async (option Student.t * option ClassGroup.t) :=
  match cs with
  | [] => ret (None, None)
  | cls :: rest =>
      if startsWith normalizedId (cleanName cls) then
        fetchedStudent <- tryClass id cls ;;
        match fetchedStudent with
        | Some s => ret (Some s, Some cls)
        | None => scanClasses id normalizedId rest
        end
      else scanClasses id normalizedId rest
  end.

(** [fetchData]: what [setStudent] and [setClassGroup] receive. *)
Definition fetchData (id : jstring)
    : Async (option Student.t * option ClassGroup.t) :=
  match id with
  | [] => ret (None, None)
  | _ :: _ =>
      allClasses <- getClasses ;;
      let sortedClasses := sortBy byNameLengthDesc allClasses in
      let normalizedId := toLowerCase id in
      found <- scanClasses id normalizedId sortedClasses ;;
      let (fetchedStudent, fetchedClass) := found in
      fetchedStudent <- match fetchedStudent with
                        | None => getStudent id
                        | Some s => ret (Some s)
                        end ;;
      fetchedClass <- match fetchedStudent, fetchedClass with
                      | Some s, None =>
                          match Student.classId s with
                          | Some (c :: i) => getClass (c :: i)
                          | _ => ret None
                          end
                      | _, _ => ret fetchedClass
                      end ;;
      ret (fetchedStudent, fetchedClass)
  end.

End Resolver.

(** [getFullDisplayId], from the [student] and [classGroup] of the page. *)
Definition getFullDisplayId (student : option Student.t)
    (classGroup : option ClassGroup.t) : jstring :=
  match student, classGroup with
  | Some s, Some c =>
      let cleanClassName := stripNonAlnum (ClassGroup.name c) in
      let uniqueId :=
        match Student.uniqueId s with
        | Some n => if n =? 0 then Student.id s else Number_toString n
        | None => Student.id s
        end in
      cleanClassName ++ uniqueId
  | _, _ => []
  end.

(** ** Vocabulary of the statements *)

(** A computation that only reads: its result depends on the tables alone,
    and it leaves them as they were. *)
Definition readOnly {A} (m : Async A) : Prop :=
  forall w, fst (m w) = run m (db w) /\ db (snd (m w)) = db w.

(** The classes in the order in which [fetchData] tries them. *)
Definition sortedClasses (d : Database) : list ClassGroup.t :=
  sortBy byNameLengthDesc (run getClasses d).

Definition hexDigits (n : nat) (g : jstring) : Prop :=
  List.length g = n /\ forallb isHexDigit g = true.

(** Five groups of 8, 4, 4, 4 and 12 hexadecimal digits of either case,
    hyphens between them. *)
Definition CanonicalUuid (s : jstring) : Prop :=
  exists g1 g2 g3 g4 g5,
    s = g1 ++ Latin "-" :: g2 ++ Latin "-" :: g3 ++ Latin "-" :: g4 ++
        Latin "-" :: g5 /\
    hexDigits 8 g1 /\ hexDigits 4 g2 /\ hexDigits 4 g3 /\ hexDigits 4 g4 /\
    hexDigits 12 g5.

Definition studentRowsWithId (d : Database) (id : jstring) : list StudentRow.t :=
  filter (fun r => optUuidEq (Some (StudentRow.id r)) id) (students d).

(** The student table has [id] as its primary key. *)
Definition primaryKey (d : Database) : Prop :=
  NoDup (map (fun r => toLowerCase (StudentRow.id r)) (students d)).

(** The order of the claim: students with a [uniqueId] first, by ascending
    [uniqueId]; students without one after them; equal keys by name. *)
Definition studentOrder (lc : jstring -> jstring -> Z) (a b : Student.t) : Prop :=
  match Student.uniqueId a, Student.uniqueId b with
  | Some x, Some y => x < y \/ (x = y /\ lc (Student.name a) (Student.name b) <= 0)
  | Some _, None => True
  | None, Some _ => False
  | None, None => lc (Student.name a) (Student.name b) <= 0
  end.

(** The largest value of an INTEGER column. *)
Definition INT4_MAX : Z := 2147483647.

(** The rows of a class, and the sequence numbers its students carry. *)
Definition rowsOfClass (d : Database) (c : jstring) : list StudentRow.t :=
  filter (fun r => optUuidEq (StudentRow.class_id r) c) (students d).

Definition uniqueIdsOf (l : list Student.t) : list Z :=
  flat_map (fun s => match Student.uniqueId s with
                     | Some u => [u]
                     | None => []
                     end) l.

(** A save goes through when the student is new (no id, or a temporary
    one) or its id is a uuid that at most one row carries.  The student has
    a name and its class is in the class table, which a table with NOT NULL
    and foreign-key constraints insists on. *)
Definition savable (d : Database) (student : PartialStudent.t) : Prop :=
  match Payload.id (initialPayload student) with
  | None => True
  | Some i => exists u, uuid_in i = Some u /\
                        (List.length (studentRowsWithId d u) <= 1)%nat
  end /\
  PartialStudent.name student <> None /\
  exists c u row,
    PartialStudent.classId student = Some c /\ uuid_in c = Some u /\
    In row (classes d) /\ uuidEq (ClassRow.id row) u = true.

(** The maximum of the claim: the largest number, 0 when there is none. *)
Definition maxOrZero (l : list Z) : Z :=
  match l with
  | [] => 0
  | x :: l' => fold_right Z.max x l'
  end.



Definition uuidChar (c : codeUnit) : bool := isHexDigit c || isChar "-" c.

(** Lowering unit by unit, which is what [toLowerCase] does to a string
    without U+0130. *)
Definition lowerAll (s : jstring) : jstring := map lowerChar s.

(** ** Concrete stores used to run the program *)

(** Comparison of strings by code units, standing in for the two
    collations when the program is run on an example. *)
Fixpoint codeUnitCompare (a b : jstring) : Z :=
  match a, b with
  | [], [] => 0
  | [], _ :: _ => -1
  | _ :: _, [] => 1
  | x :: a', y :: b' =>
      if code x =? code y then codeUnitCompare a' b' else code x - code y
  end.

Definition classRow (id name : string) (created : Z) : ClassRow.t :=
  {| ClassRow.id := str id; ClassRow.name := str name;
     ClassRow.description := None; ClassRow.created_at := created |}.

Definition studentRow (id cls name : string) (number : option Z) : StudentRow.t :=
  {| StudentRow.id := str id; StudentRow.class_id := Some (str cls);
     StudentRow.name := Some (str name); StudentRow.unique_number := number;
     StudentRow.note1 := None; StudentRow.note2 := None;
     StudentRow.note3 := None |}.

Definition resolve := fetchData codeUnitCompare codeUnitCompare.

Definition uuidA : string := "aaaaaaaa-aaaa-aaaa-aaaa-aaaaaaaaaaaa".
Definition uuidB : string := "bbbbbbbb-bbbb-bbbb-bbbb-bbbbbbbbbbbb".
Definition uuid1 : string := "11111111-1111-1111-1111-111111111111".
Definition uuid2 : string := "22222222-2222-2222-2222-222222222222".

Definition uuidC : string := "cccccccc-cccc-cccc-cccc-cccccccccccc".

(** A store whose next inserted row gets [uuidC] as its id. *)
Definition store (cs : list ClassRow.t) (ss : list StudentRow.t) : Database :=
  {| classes := cs; students := ss; mint := fun _ => str uuidC; minted := 0;
     numbered := true |}.

Definition ann (n : Z) : StudentRow.t := studentRow uuidA uuid1 "Ann" (Some n).
Definition bob (n : Z) : StudentRow.t := studentRow uuidB uuid2 "Bob" (Some n).

(** "Grade - 1" has the longer raw name and the shorter clean name. *)
Definition gradeDash1 : ClassRow.t := classRow uuid1 "Grade - 1" 1.
Definition grade1 : ClassRow.t := classRow uuid1 "Grade 1" 1.
Definition grade12 : ClassRow.t := classRow uuid2 "Grade 12" 2.
Definition fifth : ClassRow.t := classRow uuid1 "5th Grade" 1.
Definition fifth1 : ClassRow.t := classRow uuid2 "5th Grade 1" 2.
Definition math : ClassRow.t := classRow uuid1 "Math" 1.

Definition dashedGrades : Database := store [gradeDash1; grade12] [ann 23; bob 3].
Definition mathClass : Database := store [math] [ann 1].
Definition twoGrades : Database := store [grade1; grade12] [ann 23; bob 3].
Definition twoFifths : Database := store [fifth; fifth1] [ann 12; bob 2].
Definition school : Database := store [fifth; grade12] [ann 12; bob 3].

(** A class named "I", and the token U+0130 "12". *)
Definition classI : Database := store [classRow uuid1 "I" 1] [ann 12].
Definition dottedI12 : jstring := CapitalIDot :: str "12".

Definition newcomer : PartialStudent.t :=
  {| PartialStudent.id := Some (str "temp-1");
     PartialStudent.classId := Some (str uuid1);
     PartialStudent.name := Some (str "Cid");
     PartialStudent.uniqueId := None;
     PartialStudent.note1 := None;
     PartialStudent.note2 := None;
     PartialStudent.note3 := None |}.

Definition classOfTwo : Database :=
  store [fifth] [ann 1; studentRow uuidB uuid1 "Bob" (Some 2)].

(** ** Further code of [src/services/store.ts] *)

(** An update or a delete: the rows change; the list of requests, kept for
    the reads and the upsert, gets no entry for it. *)
Definition act {A} (change : Database -> A * Database) : Async A :=
  fun w => let (a, d) := change (db w) in
           (a, {| db := d; issued := issued w |}).

(** The answer to a request that returns no rows. *)
Definition done : Response unit := {| data := None; error := None |}.

(** [.delete().eq('id', id)] on table [students]. *)
Definition deleteRows (id : jstring) (d : Database) : Response unit * Database :=
  match uuid_in id with
  | Some u =>
      (done,
       withStudents d
         (filter (fun r => negb (uuidEq (StudentRow.id r) u)) (students d))
         (minted d))
  | None => (invalidUuid id, d)
  end.

Definition deleteStudent (id : jstring) : Async bool :=
  r <- act (deleteRows id) ;;
  match error r with
  | Some _ => ret false
  | None => ret true
  end.

Definition setNumber (r : StudentRow.t) (n : Z) : StudentRow.t :=
  {| StudentRow.id := StudentRow.id r;
     StudentRow.class_id := StudentRow.class_id r;
     StudentRow.name := StudentRow.name r;
     StudentRow.unique_number := Some n;
     StudentRow.note1 := StudentRow.note1 r;
     StudentRow.note2 := StudentRow.note2 r;
     StudentRow.note3 := StudentRow.note3 r |}.

(** [.update({ unique_number: n }).eq('id', id)] on table [students]. *)
Definition updateNumber (id : jstring) (n : Z) (d : Database)
    : Response unit * Database :=
  if negb (numbered d) then (refuse columnError, d)
  else
    match uuid_in id with
    | None => (invalidUuid id, d)
    | Some u =>
        if negb (inInt4 n) then (refuse (rangeError n), d)
        else
          (done,
           withStudents d
             (map (fun r => if uuidEq (StudentRow.id r) u then setNumber r n
                            else r)
                  (students d))
             (minted d))
    end.

(** [.select('*').eq('class_id', classId).order('name')] on [students]. *)
Definition studentsByName (pgCollate : jstring -> jstring -> Z)
    (classId : jstring) (d : Database) : Response (list StudentRow.t) :=
  match eqUuid StudentRow.class_id (Some classId) (students d) with
  | {| data := Some rows; error := None |} =>
      succeed (sortBy (fun a b => nullsLast pgCollate (StudentRow.name a)
                                            (StudentRow.name b)) rows)
  | other => other
  end.

(** The [reduce] of [ensureClassStudentNumbers]. *)
Definition highestNumber (students : list StudentRow.t) : Z :=
  fold_left (fun acc curr =>
               let num := if missingNumber (StudentRow.unique_number curr)
                          then 0
                          else numberOrZero (StudentRow.unique_number curr) in
               if num >? acc then num else acc)
            students 0.

(** The first loop: one update for every student without a number, the
    counter going up by one each time. *)
Fixpoint collectUpdates (students : list StudentRow.t) (maxId : Z)
    : list (jstring * Z) :=
  match students with
  | [] => []
  | s :: rest =>
      if missingNumber (StudentRow.unique_number s)
      then (StudentRow.id s, maxId + 1) :: collectUpdates rest (maxId + 1)
      else collectUpdates rest maxId
  end.

(** The second loop: the updates are sent one by one; error 42703 stops
    it, any other error is remembered. *)
Fixpoint performUpdates (updates : list (jstring * Z)) (success : bool)
    : Async bool :=
  match updates with
  | [] => ret success
  | (id, n) :: rest =>
      r <- act (updateNumber id n) ;;
      match error r with
      | Some updateError =>
          if jeqb (code_of updateError) (str "42703") then ret false
          else performUpdates rest false
      | None => performUpdates rest success
      end
  end.

Definition ensureClassStudentNumbers (pgCollate : jstring -> jstring -> Z)
    (classId : jstring) : Async bool :=
  r <- ask (SelectStudentsByName classId) (studentsByName pgCollate classId) ;;
  match error r, data r with
  | None, Some students =>
      let maxId := highestNumber students in
      let updates := collectUpdates students maxId in
      match updates with
      | [] => ret true
      | _ :: _ => performUpdates updates true
      end
  | _, _ => ret false
  end.

(** *** Sessions

    [getSessions] reads two further tables; their rows and the answers of
    the store to its two requests are all that is modelled of them. *)

Module SessionRow.
Record t := mk {
  id : jstring;
  class_id : option jstring;
  title : option jstring;
  description : option jstring;
  video_url : option jstring;
  pdf_url : option jstring;
  date : option jstring;
  ai_notes : option jstring;
  is_highlight : option bool
}.
End SessionRow.

Module VideoRow.
Record t := mk { session_id : option jstring; url : option jstring }.
End VideoRow.

(** Modelled from the spec: the type [Session] of [../types], which is not
    among the sources; its fields are those [mapSessionFromDB] and
    [getSessions] fill. *)
Module Session.
Record t := mk {
  id : jstring;
  classId : option jstring;
  title : option jstring;
  description : jstring;
  videoUrl : jstring;
  pdfUrl : option jstring;
  date : option jstring;
  aiNotes : option jstring;
  isHighlight : bool;
  videoUrls : option (list jstring)
}.
End Session.

(** [x || ''] on a nullable text. *)
Definition orEmpty (x : option jstring) : jstring :=
  match x with
  | Some (c :: s) => c :: s
  | _ => []
  end.

Definition mapSessionFromDB (r : SessionRow.t) : Session.t :=
  {| Session.id := SessionRow.id r;
     Session.classId := SessionRow.class_id r;
     Session.title := SessionRow.title r;
     Session.description := orEmpty (SessionRow.description r);
     Session.videoUrl := orEmpty (SessionRow.video_url r);
     Session.pdfUrl := SessionRow.pdf_url r;
     Session.date := SessionRow.date r;
     Session.aiNotes := SessionRow.ai_notes r;
     Session.isHighlight :=
       match SessionRow.is_highlight r with
       | Some b => b
       | None => false
       end;
     Session.videoUrls := None |}.

Definition withVideoUrls (s : Session.t) (urls : list jstring) : Session.t :=
  {| Session.id := Session.id s;
     Session.classId := Session.classId s;
     Session.title := Session.title s;
     Session.description := Session.description s;
     Session.videoUrl := Session.videoUrl s;
     Session.pdfUrl := Session.pdfUrl s;
     Session.date := Session.date s;
     Session.aiNotes := Session.aiNotes s;
     Session.isHighlight := Session.isHighlight s;
     Session.videoUrls := Some urls |}.

(** [url && url.trim() !== ''] *)
Definition nonBlank (url : option jstring) : bool :=
  match url with
  | Some (c :: s) => negb (jeqb (trim (c :: s)) [])
  | _ => false
  end.

(** [[...new Set(urls)]]: the first occurrence of each value, in order. *)
Fixpoint dedupe (seen : list jstring) (urls : list jstring) : list jstring :=
  match urls with
  | [] => []
  | u :: rest =>
      if existsb (jeqb u) seen then dedupe seen rest
      else u :: dedupe (u :: seen) rest
  end.

Definition valuesOf (urls : list (option jstring)) : list jstring :=
  flat_map (fun u => match u with Some x => [x] | None => [] end) urls.

(** The urls of one session: the primary one, then those of
    [session_videos], blanks dropped, duplicates dropped. *)
Definition sessionVideoUrls (s : SessionRow.t)
    (extraVideos : option (list VideoRow.t)) : list jstring :=
  let session := mapSessionFromDB s in
  let relatedVideos :=
    match extraVideos with
    | Some vs =>
        map VideoRow.url
            (filter (fun v => match VideoRow.session_id v with
                              | Some i => jeqb i (SessionRow.id s)
                              | None => false
                              end) vs)
    | None => []
    end in
  let allUrls := filter nonBlank (Some (Session.videoUrl session) :: relatedVideos) in
  dedupe [] (valuesOf allUrls).

(** [getSessions], from the answers of the store to its two requests: the
    rows of [sessions] by descending [created_at], and the rows of
    [session_videos]. *)
Definition getSessions (sessions : Response (list SessionRow.t))
    (videos : Response (list VideoRow.t)) : list Session.t :=
  match error sessions with
  | Some e => if isTableMissingError e then [] else []
  | None =>
      let extraVideos := data videos in
      map (fun s => withVideoUrls (mapSessionFromDB s)
                                  (sessionVideoUrls s extraVideos))
          (match data sessions with Some l => l | None => [] end)
  end.

(** ** Further code of [src/services/gemini.ts] *)

(** [text.split('\n')] *)
Fixpoint splitLines (text : jstring) : list jstring :=
  match text with
  | [] => [[]]
  | c :: rest =>
      if code c =? 10 then [] :: splitLines rest
      else match splitLines rest with
           | line :: more => (c :: line) :: more
           | [] => [[c]]
           end
  end.

(** What [extractStudentNamesFromImage] makes of the text the model
    answered: [text.split('\n').map(name => name.trim()).filter(name =>
    name.length > 0)]. *)
Definition namesOfText (text : jstring) : list jstring :=
  filter (fun name => 0 <? Z.of_nat (List.length name))
         (map trim (splitLines text)).

(** ** Vocabulary of the further statements *)

(** A request of [fetchData] is in order for token [id] and class list
    [cs] when it writes nothing and, if it fetches the students of a class,
    the class is one of [cs] whose clean name starts the token and whose
    remainder passes the numeric guard. *)
Definition frugal (id : jstring) (cs : list ClassGroup.t) (q : Query) : Prop :=
  match q with
  | SelectStudentsByName cid =>
      exists cls, In cls cs /\ cid = ClassGroup.id cls /\
        startsWith (toLowerCase id) (cleanName cls) = true /\
        isNumberRemainder (cleanRemainderOf id (cleanName cls)) = true
  | UpsertStudent _ => False
  | SelectStudentsOf _ => False
  | _ => True
  end.

(** Every request a computation issues satisfies [Q]. *)
Definition issuesOnly {A} (m : Async A) (Q : Query -> Prop) : Prop :=
  forall w, exists l, issued (snd (m w)) = issued w ++ l /\ Forall Q l.

(** Rows whose ids are uuids in canonical form. *)
Definition uuidKeyed (rows : list StudentRow.t) : Prop :=
  forall r, In r rows -> uuidRegex_test (StudentRow.id r) = true.

(** The sequence numbers carried by rows; 0 and null count as none. *)
Definition numbersOf (rows : list StudentRow.t) : list Z :=
  uniqueIdsOf (map mapStudentFromDB rows).

(** The errors after which [saveStudent] tries again without the number:
    an undefined column, or a message that names the column. *)
Definition retried (e : PgError) : bool :=
  jeqb (code_of e) (str "42703") || includes (message e) (str "unique_number").

(** The mint of a store is fresh when the id it would give next is a uuid
    that no row carries. *)
Definition freshMint (d : Database) : Prop :=
  uuidRegex_test (mint d (minted d)) = true /\
  hasStudent d (mint d (minted d)) = false.

(** What one update does to one row, and a list of updates to it. *)
Definition renumber (u : jstring * Z) (r : StudentRow.t) : StudentRow.t :=
  if uuidEq (StudentRow.id r) (fst u) then setNumber r (snd u) else r.

(** A row after the updates of a list, applied in order. *)
Definition evolve (ups : list (jstring * Z)) (r : StudentRow.t) : StudentRow.t :=
  fold_left (fun r u => renumber u r) ups r.

(** The rows of a class by name, as [ensureClassStudentNumbers] reads
    them. *)
Definition classByName (pg : jstring -> jstring -> Z) (d : Database)
    (c : jstring) : list StudentRow.t :=
  sortBy (fun a b => nullsLast pg (StudentRow.name a) (StudentRow.name b))
         (rowsOfClass d c).

(** The numbering the function arrives at: going down the list, every
    row without a number is given the next one, and takes it if it fits the
    column. *)
Fixpoint assignSeq (rows : list StudentRow.t) (maxId : Z) : list StudentRow.t :=
  match rows with
  | [] => []
  | s :: rest =>
      if missingNumber (StudentRow.unique_number s)
      then (if inInt4 (maxId + 1) then setNumber s (maxId + 1) else s)
           :: assignSeq rest (maxId + 1)
      else s :: assignSeq rest maxId
  end.

(** The updates that the column has room for. *)
Definition fitting (ups : list (jstring * Z)) : list (jstring * Z) :=
  filter (fun u => inInt4 (snd u)) ups.

(** There is room in the INTEGER column for a number for every row. *)
Definition roomFor (rows : list StudentRow.t) : Prop :=
  highestNumber rows + Z.of_nat (List.length rows) <= INT4_MAX.

(** ** Further concrete stores *)

Definition unnumbered : Database :=
  store [fifth] [studentRow uuidB uuid1 "Bob" None;
                 studentRow uuidA uuid1 "Ann" None;
                 studentRow uuidC uuid1 "Cid" (Some 4)].

Definition veteran : PartialStudent.t :=
  {| PartialStudent.id := Some (str uuidA);
     PartialStudent.classId := Some (str uuid1);
     PartialStudent.name := Some (str "Ann");
     PartialStudent.uniqueId := Some 7;
     PartialStudent.note1 := Some 12;
     PartialStudent.note2 := None;
     PartialStudent.note3 := None |}.

Definition stray : PartialStudent.t :=
  {| PartialStudent.id := None;
     PartialStudent.classId := Some (str "no-class");
     PartialStudent.name := Some (str "Dan");
     PartialStudent.uniqueId := None;
     PartialStudent.note1 := None;
     PartialStudent.note2 := None;
     PartialStudent.note3 := None |}.

(** A store whose table [students] was created before the number column
    was introduced. *)
Definition legacy : Database :=
  {| classes := [fifth];
     students := [studentRow uuidA uuid1 "Ann" None;
                  studentRow uuidB uuid1 "Bob" None];
     mint := fun _ => str uuidC; minted := 0; numbered := false |}.

Definition sessionRow (id video : string) : SessionRow.t :=
  {| SessionRow.id := str id; SessionRow.class_id := Some (str uuid1);
     SessionRow.title := Some (str "Relay"); SessionRow.description := None;
     SessionRow.video_url := Some (str video); SessionRow.pdf_url := None;
     SessionRow.date := None; SessionRow.ai_notes := None;
     SessionRow.is_highlight := None |}.

(** * Properties *)

(** ** The built-ins on examples *)

Example Number_accepts :
  map (fun s => Number_isNaN (str s))
      ["12"; "1e3"; "0x1F"; "-5"; "1.5"; "5."; "Infinity"; ""; "  7 "]%string =
  [false; false; false; false; false; false; false; false; false].
Proof. reflexivity. Qed.

Example Number_rejects :
  map (fun s => Number_isNaN (str s))
      ["12a"; "infinity"; "1e"; "0x"; "0b102"; "1 2"; "--1"; "."; "-0x1F"]%string =
  [true; true; true; true; true; true; true; true; true].
Proof. reflexivity. Qed.

Example parseInt_reads :
  map (fun s => parseInt (str s))
      ["12"; "1e3"; "0x1F"; "-5"; "1.5"; ".5"; "Infinity"; "  42abc"; "0b11"]%string =
  [Some 12; Some 1; Some 31; Some (-5); Some 1; None; None; Some 42; Some 0].
Proof. reflexivity. Qed.

Example trim_strips : trim (str "  a b ") = str "a b".
Proof. reflexivity. Qed.

Example toLowerCase_folds : toLowerCase (str "5thGrade_12") = str "5thgrade_12".
Proof. reflexivity. Qed.

Example cleanName_strips :
  cleanName (mapClassFromDB fifth) = str "5thgrade".
Proof. reflexivity. Qed.

Example Number_toString_prints :
  map Number_toString [7; 12; 1000000000; -45] =
  map str ["7"; "12"; "1000000000"; "-45"]%string.
Proof. reflexivity. Qed.

Example uuidRegex_accepts :
  uuidRegex_test (str "A0eebc99-9c0b-4ef8-bb6d-6bb9bd380a11") = true /\
  uuidRegex_test (str "a0eebc99-9c0b-4ef8-bb6d-6bb9bd380a1") = false /\
  uuidRegex_test (str "a0eebc999c0b4ef8bb6d6bb9bd380a11") = false.
Proof. repeat split. Qed.

(** The forms of a uuid that PostgreSQL's documentation lists as
    accepted on input. *)
Example uuid_in_reads :
  map (fun s => uuid_in (str s))
      ["A0EEBC99-9C0B-4EF8-BB6D-6BB9BD380A11";
       "{a0eebc99-9c0b-4ef8-bb6d-6bb9bd380a11}";
       "a0eebc999c0b4ef8bb6d6bb9bd380a11";
       "a0ee-bc99-9c0b-4ef8-bb6d-6bb9-bd38-0a11";
       "{a0eebc99-9c0b4ef8-bb6d6bb9-bd380a11}"]%string =
  repeat (Some (str "a0eebc99-9c0b-4ef8-bb6d-6bb9bd380a11")) 5.
Proof. reflexivity. Qed.

Example uuid_in_rejects :
  map (fun s => uuid_in (str s))
      ["a0eebc99-9c0b-4ef8-bb6d-6bb9bd380a1";
       "a0eebc99-9c0b-4ef8-bb6d-6bb9bd380a11 ";
       "a-0eebc999c0b4ef8bb6d6bb9bd380a11";
       "{a0eebc99-9c0b-4ef8-bb6d-6bb9bd380a11";
       "a0eebc99-9c0b-4ef8-bb6d-6bb9bd380a11-";
       "5thGrade12"; "undefined"; ""]%string =
  repeat None 8.
Proof. reflexivity. Qed.

Example toLowerCase_dotted_I :
  toLowerCase dottedI12 = Latin "i" :: DotAbove :: str "12" /\
  List.length (toLowerCase dottedI12) = 4%nat /\ List.length dottedI12 = 3%nat.
Proof. repeat split. Qed.

(** The example of the specification: "5thGrade12" is number 12 of
    "5th Grade". *)
Example fifth_grade_twelve :
  run (resolve (str "5thGrade12")) school =
  (Some (mapStudentFromDB (ann 12)), Some (mapClassFromDB fifth)).
Proof. reflexivity. Qed.

(** ** Characters *)

Ltac each_char c :=
  destruct c as [[[] [] [] [] [] [] [] []] | |]; vm_compute; intros;
  try reflexivity; try discriminate; try congruence.

Lemma unitEqb_eq a b : unitEqb a b = true <-> a = b.
Proof.
  destruct a as [x| |], b as [y| |]; simpl;
    try (split; [discriminate | congruence]); try tauto.
  rewrite Ascii.eqb_eq. split; congruence.
Qed.

Lemma unitEqb_refl a : unitEqb a a = true.
Proof. now apply unitEqb_eq. Qed.


Lemma isHexDigit_lower c : isHexDigit (lowerChar c) = isHexDigit c.
Proof. each_char c. Qed.





Lemma lowerChar_idem c : lowerChar (lowerChar c) = lowerChar c.
Proof. each_char c. Qed.


Lemma lowerUnit_lower (a : ascii) : lowerUnit (lowerChar a) = [lowerChar a].
Proof. destruct a as [[] [] [] [] [] [] [] []]; reflexivity. Qed.



Lemma isChar_lower_minus c : isChar "-" (lowerChar c) = isChar "-" c.
Proof. each_char c. Qed.







(** ** The monad of asynchronous calls *)

Lemma readOnly_ret {A} (a : A) : readOnly (ret a).
Proof. intros w. split; reflexivity. Qed.

Lemma readOnly_ask {A} q (f : Database -> A) : readOnly (ask q f).
Proof. intros w. split; reflexivity. Qed.

Lemma readOnly_bind {A B} (m : Async A) (k : A -> Async B) :
  readOnly m -> (forall a, readOnly (k a)) -> readOnly (bind m k).
Proof.
  intros Hm Hk w. unfold run, bind.
  destruct (Hm w) as [E1 E2]. destruct (Hm (boot (db w))) as [E3 E4].
  unfold run in *. simpl in *.
  destruct (m w) as [a w1]. destruct (m (boot (db w))) as [a' w2].
  simpl in *. subst a'. 
  destruct (Hk a w1) as [F1 F2]. destruct (Hk a w2) as [G1 G2].
  rewrite F1, F2, G1, E2, E4. split; reflexivity.
Qed.

Lemma run_ret {A} (a : A) d : run (ret a) d = a.
Proof. reflexivity. Qed.

Lemma run_bind {A B} (m : Async A) (k : A -> Async B) d :
  readOnly m -> (forall a, readOnly (k a)) ->
  run (bind m k) d = run (k (run m d)) d.
Proof.
  intros Hm Hk. unfold run at 1. unfold bind.
  destruct (Hm (boot d)) as [E1 E2]. simpl in *.
  destruct (m (boot d)) as [a w1]. simpl in *.
  destruct (Hk a w1) as [F1 _]. rewrite F1, E2, E1. reflexivity.
Qed.

Lemma fst_bind {A B} (m : Async A) (k : A -> Async B) w :
  readOnly m -> (forall a, readOnly (k a)) ->
  fst (bind m k w) = run (k (run m (db w))) (db w).
Proof.
  intros Hm Hk. destruct (readOnly_bind m k Hm Hk w) as [E _].
  rewrite E. now apply run_bind.
Qed.

Lemma readOnly_if {A} (b : bool) (m n : Async A) :
  readOnly m -> readOnly n -> readOnly (if b then m else n).
Proof. destruct b; auto. Qed.

Lemma readOnly_getClasses : readOnly getClasses.
Proof.
  unfold getClasses. apply readOnly_bind; [apply readOnly_ask|].
  intros r. destruct (error r); [apply readOnly_if|]; apply readOnly_ret.
Qed.

Lemma readOnly_getClass id : readOnly (getClass id).
Proof.
  unfold getClass. apply readOnly_bind; [apply readOnly_ask|].
  intros r. destruct (error r); [apply readOnly_ret|].
  destruct (data r); apply readOnly_ret.
Qed.

Lemma readOnly_getStudent id : readOnly (getStudent id).
Proof.
  unfold getStudent. apply readOnly_if; [apply readOnly_ret|].
  apply readOnly_bind; [apply readOnly_ask|].
  intros r. destruct (error r); [apply readOnly_ret|].
  destruct (data r); apply readOnly_ret.
Qed.

Lemma readOnly_getStudents lc pg classId : readOnly (getStudents lc pg classId).
Proof.
  unfold getStudents. apply readOnly_bind; [apply readOnly_ask|].
  intros r. destruct (error r); [apply readOnly_if|]; apply readOnly_ret.
Qed.

Lemma readOnly_tryNumber lc pg cls r : readOnly (tryNumber lc pg cls r).
Proof.
  unfold tryNumber. apply readOnly_if; [|apply readOnly_ret].
  apply readOnly_bind; [apply readOnly_getStudents|].
  intros l. apply readOnly_ret.
Qed.

Lemma readOnly_tryUuid r : readOnly (tryUuid r).
Proof.
  unfold tryUuid. apply readOnly_if;
    [apply readOnly_getStudent | apply readOnly_ret].
Qed.

Lemma readOnly_tryClass lc pg id cls : readOnly (tryClass lc pg id cls).
Proof.
  unfold tryClass. apply readOnly_bind; [apply readOnly_tryNumber|].
  intros [s|]; [apply readOnly_ret | apply readOnly_tryUuid].
Qed.

Lemma readOnly_scanClasses lc pg id nid cs :
  readOnly (scanClasses lc pg id nid cs).
Proof.
  induction cs as [|cls rest IH]; simpl; [apply readOnly_ret|].
  apply readOnly_if; [|exact IH].
  apply readOnly_bind; [apply readOnly_tryClass|].
  intros [s|]; [apply readOnly_ret | exact IH].
Qed.

Lemma readOnly_fallback id (o : option Student.t) :
  readOnly (match o with
            | None => getStudent id
            | Some s => ret (Some s)
            end).
Proof. destruct o; [apply readOnly_ret | apply readOnly_getStudent]. Qed.

Lemma readOnly_enrich (o : option Student.t) (c : option ClassGroup.t) :
  readOnly (match o, c with
            | Some s, None =>
                match Student.classId s with
                | Some (c :: i) => getClass (c :: i)
                | _ => ret None
                end
            | _, _ => ret c
            end).
Proof.
  destruct o as [s|]; [|apply readOnly_ret].
  destruct c; [apply readOnly_ret|].
  destruct (Student.classId s) as [[|? ?]|];
    try apply readOnly_ret; apply readOnly_getClass.
Qed.

Lemma readOnly_fetchData lc pg id : readOnly (fetchData lc pg id).
Proof.
  unfold fetchData. destruct id as [|c id]; [apply readOnly_ret|].
  apply readOnly_bind; [apply readOnly_getClasses|]. intros cs.
  apply readOnly_bind; [apply readOnly_scanClasses|]. intros [s k].
  apply readOnly_bind; [apply readOnly_fallback|]. intros s'.
  apply readOnly_bind; [apply readOnly_enrich|]. intros k'.
  apply readOnly_ret.
Qed.

(** [fetchData] on a non-empty id, read off the tables: the loop, then the
    lookup of the whole id when the loop found nobody, then the class of
    the student when the loop did not set it. *)
Lemma run_fetchData lc pg id d :
  id <> [] ->
  run (fetchData lc pg id) d =
  let found := run (scanClasses lc pg id (toLowerCase id) (sortedClasses d)) d in
  let fetchedStudent :=
    match fst found with
    | None => run (getStudent id) d
    | Some s => Some s
    end in
  (fetchedStudent,
   match fetchedStudent, snd found with
   | Some s, None =>
       match Student.classId s with
       | Some (c :: i) => run (getClass (c :: i)) d
       | _ => None
       end
   | _, k => k
   end).
Proof.
  intros Hid. destruct id as [|c0 id]; [congruence|]. clear Hid.
  unfold fetchData, sortedClasses.
  rewrite run_bind; [|apply readOnly_getClasses|].
  2:{ intros cs.
      apply readOnly_bind; [apply readOnly_scanClasses|]. intros [s k].
      apply readOnly_bind; [apply readOnly_fallback|]. intros s'.
      apply readOnly_bind; [apply readOnly_enrich|]. intros k'.
      apply readOnly_ret. }
  rewrite run_bind; [|apply readOnly_scanClasses|].
  2:{ intros [s k].
      apply readOnly_bind; [apply readOnly_fallback|]. intros s'.
      apply readOnly_bind; [apply readOnly_enrich|]. intros k'.
      apply readOnly_ret. }
  cbv zeta.
  destruct (run (scanClasses lc pg (c0 :: id) (toLowerCase (c0 :: id))
                   (sortBy byNameLengthDesc (run getClasses d))) d) as [s k].
  rewrite run_bind; [|apply readOnly_fallback|].
  2:{ intros s'. apply readOnly_bind; [apply readOnly_enrich|]. intros k'.
      apply readOnly_ret. }
  rewrite run_bind; [|apply readOnly_enrich|intros; apply readOnly_ret].
  rewrite run_ret. simpl fst. simpl snd.
  destruct s as [s|].
  - rewrite run_ret. destruct k as [k|]; [now rewrite run_ret|].
    destruct (Student.classId s) as [[|? ?]|]; try now rewrite run_ret.
    reflexivity.
  - destruct (run (getStudent (c0 :: id)) d) as [s|]; [|now rewrite run_ret].
    destruct k as [k|]; [now rewrite run_ret|].
    destruct (Student.classId s) as [[|? ?]|]; try now rewrite run_ret.
    reflexivity.
Qed.

(** One turn of the loop, read off the tables. *)
Lemma run_scan_cons lc pg id nid cls rest d :
  run (scanClasses lc pg id nid (cls :: rest)) d =
  if startsWith nid (cleanName cls) then
    match run (tryClass lc pg id cls) d with
    | Some s => (Some s, Some cls)
    | None => run (scanClasses lc pg id nid rest) d
    end
  else run (scanClasses lc pg id nid rest) d.
Proof.
  simpl. destruct (startsWith nid (cleanName cls)); [|reflexivity].
  rewrite run_bind; [|apply readOnly_tryClass|].
  - destruct (run (tryClass lc pg id cls) d); reflexivity.
  - intros [s|]; [apply readOnly_ret | apply readOnly_scanClasses].
Qed.

Lemma run_tryClass lc pg id cls d :
  run (tryClass lc pg id cls) d =
  match run (tryNumber lc pg cls (cleanRemainderOf id (cleanName cls))) d with
  | Some s => Some s
  | None => run (tryUuid (cleanRemainderOf id (cleanName cls))) d
  end.
Proof.
  unfold tryClass. rewrite run_bind; [|apply readOnly_tryNumber|].
  - destruct (run (tryNumber lc pg cls _) d); reflexivity.
  - intros [s|]; [apply readOnly_ret | apply readOnly_tryUuid].
Qed.

Lemma run_scan_app lc pg id nid pre post d :
  fst (run (scanClasses lc pg id nid pre) d) = None ->
  run (scanClasses lc pg id nid (pre ++ post)) d =
  run (scanClasses lc pg id nid post) d.
Proof.
  induction pre as [|c pre IH]; intros H; [reflexivity|].
  rewrite <- app_comm_cons, run_scan_cons. rewrite run_scan_cons in H.
  destruct (startsWith nid (cleanName c)); [|auto].
  destruct (run (tryClass lc pg id c) d); [discriminate | auto].
Qed.

(** ** Lists, strings and the stable sort *)

Lemma jeqb_eq a b : jeqb a b = true <-> a = b.
Proof.
  revert b. induction a as [|x a IH]; intros [|y b]; simpl;
    try (split; [discriminate | congruence]); [tauto|].
  rewrite andb_true_iff, IH. split.
  - intros [H ->]. apply unitEqb_eq in H. congruence.
  - intros H. injection H as -> ->. split; [apply unitEqb_refl | reflexivity].
Qed.

Lemma jeqb_refl a : jeqb a a = true.
Proof. now apply jeqb_eq. Qed.

Lemma uuidEq_iff a b : uuidEq a b = true <-> toLowerCase a = toLowerCase b.
Proof. apply jeqb_eq. Qed.

Lemma startsWith_iff s p : startsWith s p = true <-> exists r, s = p ++ r.
Proof.
  revert s. induction p as [|k p IH]; intros s; simpl.
  - split; [intros _; now exists s | intros _; reflexivity].
  - destruct s as [|c s].
    + split; [discriminate | intros [r H]; discriminate].
    + rewrite andb_true_iff, IH. split.
      * intros [H [r ->]]. apply unitEqb_eq in H. subst. now exists r.
      * intros [r H]. injection H as -> ->.
        split; [apply unitEqb_refl | now exists r].
Qed.

Lemma startsWith_app p r : startsWith (p ++ r) p = true.
Proof. apply startsWith_iff. now exists r. Qed.

Lemma slice_app p r : slice (p ++ r) (List.length p) = r.
Proof. unfold slice. induction p; simpl; auto. Qed.

Lemma toLowerCase_app a b :
  toLowerCase (a ++ b) = toLowerCase a ++ toLowerCase b.
Proof. apply flat_map_app. Qed.

Lemma toLowerCase_plain a :
  ~ In CapitalIDot a -> toLowerCase a = lowerAll a.
Proof.
  induction a as [|c a IH]; intros H; [reflexivity|].
  cbn [toLowerCase flat_map lowerAll map]. fold (toLowerCase a) (lowerAll a).
  rewrite IH by (intros Hin; apply H; now right).
  destruct c; try reflexivity. exfalso. apply H. now left.
Qed.


Lemma lowerAll_length a : List.length (lowerAll a) = List.length a.
Proof. apply length_map. Qed.



Lemma stripNonAlnum_plain a : ~ In CapitalIDot (stripNonAlnum a).
Proof. intros H. apply filter_In in H as [_ H]. discriminate. Qed.

Lemma cleanName_lowerAll cls :
  cleanName cls = lowerAll (stripNonAlnum (ClassGroup.name cls)).
Proof. apply toLowerCase_plain, stripNonAlnum_plain. Qed.

Lemma lowerChar_dot c : lowerChar c = DotAbove -> c = DotAbove.
Proof. each_char c. Qed.

Lemma cleanName_no_dot cls : ~ In DotAbove (cleanName cls).
Proof.
  rewrite cleanName_lowerAll. intros H.
  apply in_map_iff in H as [c [Hc H]]. apply lowerChar_dot in Hc. subst c.
  apply filter_In in H as [_ H]. discriminate.
Qed.

Lemma toLowerCase_dot a : In CapitalIDot a -> In DotAbove (toLowerCase a).
Proof.
  induction a as [|c a IH]; [intros []|]. intros [->|H].
  - right. now left.
  - cbn [toLowerCase flat_map]. apply in_or_app. right. exact (IH H).
Qed.

Lemma plain_dec a : In CapitalIDot a \/ ~ In CapitalIDot a.
Proof.
  induction a as [|c a [IH|IH]].
  - right. intros [].
  - left. now right.
  - destruct c as [x| |]; [right|left; now left|right]; intros [H|H];
      try discriminate; contradiction.
Qed.

(** A clean name is the lowercase of strings without U+0130 only. *)
Lemma cleanName_plain cls P : cleanName cls = toLowerCase P -> ~ In CapitalIDot P.
Proof.
  intros E H. apply toLowerCase_dot in H. rewrite <- E in H.
  exact (cleanName_no_dot cls H).
Qed.

Lemma toLowerCase_length a :
  ~ In CapitalIDot a -> List.length (toLowerCase a) = List.length a.
Proof. intros H. rewrite toLowerCase_plain by exact H. apply lowerAll_length. Qed.

Lemma toLowerCase_idem a : toLowerCase (toLowerCase a) = toLowerCase a.
Proof.
  induction a as [|c a IH]; [reflexivity|].
  cbn [toLowerCase flat_map]. fold (toLowerCase a).
  rewrite toLowerCase_app, IH. f_equal.
  destruct c; [|reflexivity|reflexivity].
  cbn [lowerUnit toLowerCase flat_map]. rewrite app_nil_r. apply lowerUnit_lower.
Qed.

Lemma insertSorted_perm {A} (cmp : A -> A -> Z) x l :
  Permutation (insertSorted cmp x l) (x :: l).
Proof.
  induction l as [|y l IH]; simpl; [reflexivity|].
  destruct (cmp x y <=? 0); [reflexivity|].
  rewrite IH. apply perm_swap.
Qed.

Lemma sortBy_perm {A} (cmp : A -> A -> Z) l : Permutation (sortBy cmp l) l.
Proof.
  induction l as [|x l IH]; simpl; [reflexivity|].
  rewrite insertSorted_perm. now constructor.
Qed.

Lemma sortBy_In {A} (cmp : A -> A -> Z) l x : In x (sortBy cmp l) <-> In x l.
Proof.
  split; apply Permutation_in;
    [apply sortBy_perm | symmetry; apply sortBy_perm].
Qed.

(** A consistent comparator makes the result ordered, each element against
    every later one. *)
Section SortOrdered.
Context {A : Type} (cmp : A -> A -> Z).
Hypothesis cmp_total : forall a b, 0 < cmp a b -> cmp b a <= 0.
Hypothesis cmp_trans : forall a b c, cmp a b <= 0 -> cmp b c <= 0 -> cmp a c <= 0.

Lemma insertSorted_ordered x l :
  StronglySorted (fun a b => cmp a b <= 0) l ->
  StronglySorted (fun a b => cmp a b <= 0) (insertSorted cmp x l).
Proof using cmp_total cmp_trans.
  induction 1 as [|y l Hs IH Hy]; simpl.
  - constructor; constructor.
  - destruct (Z.leb_spec (cmp x y) 0) as [Hle|Hgt].
    + constructor; [now constructor|].
      constructor; [exact Hle|].
      rewrite Forall_forall in *. intros z Hz. eauto.
    + constructor; [exact IH|].
      rewrite Forall_forall in *. intros z Hz.
      apply (Permutation_in _ (insertSorted_perm cmp x l)) in Hz.
      destruct Hz as [<-|Hz]; auto.
Qed.

Lemma sortBy_ordered l :
  StronglySorted (fun a b => cmp a b <= 0) (sortBy cmp l).
Proof using cmp_total cmp_trans.
  induction l; simpl; [constructor | now apply insertSorted_ordered].
Qed.
End SortOrdered.

Lemma filter_single {A B} (f : A -> B) (p : A -> bool) l x :
  NoDup (map f l) -> In x l -> p x = true ->
  (forall y, In y l -> p y = true -> f y = f x) ->
  filter p l = [x].
Proof.
  induction l as [|a l IH]; intros Hnd Hin Hpx Hp; [contradiction|].
  simpl in Hnd. apply NoDup_cons_iff in Hnd as [Hna Hnd].
  assert (Hfa : forall y, In y l -> f y <> f a).
  { intros y Hy E. apply Hna. rewrite <- E. now apply in_map. }
  simpl. destruct (p a) eqn:Hpa.
  - assert (f a = f x) by (apply Hp; simpl; auto).
    assert (a = x).
    { destruct Hin as [|Hin]; [assumption|].
      exfalso. apply (Hfa x Hin). congruence. }
    subst a. f_equal.
    assert (Hnone : forall y, In y l -> p y = false).
    { intros y Hy. destruct (p y) eqn:E; [|reflexivity].
      exfalso. apply (Hfa y Hy). apply Hp; simpl; auto. }
    clear -Hnone. induction l as [|b l IH]; [reflexivity|].
    simpl. rewrite (Hnone b) by (simpl; auto).
    apply IH. intros y Hy. apply Hnone. simpl; auto.
  - destruct Hin as [->|Hin]; [congruence|].
    apply IH; auto. intros y Hy. apply Hp. simpl; auto.
Qed.

(** ** The canonical textual form of a uuid *)

Lemma hexGroup_spec n s r :
  hexGroup n s = Some r <-> exists g, s = g ++ r /\ hexDigits n g.
Proof.
  revert s. induction n as [|n IH]; intros s; simpl.
  - split.
    + intros [= ->]. exists []. repeat split.
    + intros [[|? ?] [-> [Hl _]]]; [reflexivity | discriminate].
  - destruct s as [|c s].
    + split; [discriminate|]. intros [[|? ?] [E [Hl _]]]; discriminate.
    + destruct (isHexDigit c) eqn:Hc.
      * rewrite IH. split.
        -- intros [g [-> [Hl Hh]]]. exists (c :: g). repeat split; simpl; auto.
           now rewrite Hc.
        -- intros [[|c' g] [E [Hl Hh]]]; [discriminate|].
           injection E as <- ->. simpl in *. rewrite Hc in Hh.
           exists g. repeat split; auto.
      * split; [discriminate|].
        intros [[|c' g] [E [Hl Hh]]]; [discriminate|].
        injection E as <- ->. simpl in Hh. now rewrite Hc in Hh.
Qed.

Lemma dash_spec s r : dash s = Some r <-> s = Latin "-" :: r.
Proof.
  destruct s as [|c s]; simpl; [split; discriminate|].
  unfold isChar. destruct (unitEqb c (Latin "-")) eqn:E.
  - apply unitEqb_eq in E. subst c.
    split; intros H; injection H as ->; reflexivity.
  - split; [discriminate|]. intros H. injection H as Hc _. subst c.
    now rewrite unitEqb_refl in E.
Qed.

Lemma andThen_Some {A B} (o : option A) (f : A -> option B) b :
  andThen o f = Some b <-> exists a, o = Some a /\ f a = Some b.
Proof.
  destruct o; simpl; split; eauto; try discriminate.
  - intros [a' [[= ->] H]]. exact H.
  - intros [a' [H _]]. discriminate.
Qed.

Lemma uuidRegex_test_spec s : uuidRegex_test s = true <-> CanonicalUuid s.
Proof.
  unfold uuidRegex_test, CanonicalUuid. split.
  - destruct (andThen _ _) as [[|? ?]|] eqn:E; try discriminate. intros _.
    apply andThen_Some in E as (a8 & E & G5).
    apply andThen_Some in E as (a7 & E & D4).
    apply andThen_Some in E as (a6 & E & G4).
    apply andThen_Some in E as (a5 & E & D3).
    apply andThen_Some in E as (a4 & E & G3).
    apply andThen_Some in E as (a3 & E & D2).
    apply andThen_Some in E as (a2 & E & G2).
    apply andThen_Some in E as (a1 & E & D1).
    apply hexGroup_spec in E as (g1 & E1 & H1).
    apply hexGroup_spec in G2 as (g2 & E2 & H2).
    apply hexGroup_spec in G3 as (g3 & E3 & H3).
    apply hexGroup_spec in G4 as (g4 & E4 & H4).
    apply hexGroup_spec in G5 as (g5 & E5 & H5).
    apply dash_spec in D1, D2, D3, D4. rewrite app_nil_r in E5. subst.
    exists g1, g2, g3, g4, g5. auto 10.
  - intros (g1 & g2 & g3 & g4 & g5 & -> & H1 & H2 & H3 & H4 & H5).
    assert (E : andThen (andThen (andThen (andThen (andThen (andThen (andThen
               (andThen (hexGroup 8 (g1 ++ Latin "-" :: g2 ++ Latin "-" :: g3 ++
                  Latin "-" :: g4 ++ Latin "-" :: g5)) dash) (hexGroup 4)) dash)
               (hexGroup 4)) dash) (hexGroup 4)) dash) (hexGroup 12) = Some []).
    { repeat (apply andThen_Some; eexists; split).
      - apply hexGroup_spec. eexists. split; [reflexivity | exact H1].
      - reflexivity.
      - apply hexGroup_spec. eexists. split; [reflexivity | exact H2].
      - reflexivity.
      - apply hexGroup_spec. eexists. split; [reflexivity | exact H3].
      - reflexivity.
      - apply hexGroup_spec. eexists. split; [reflexivity | exact H4].
      - reflexivity.
      - apply hexGroup_spec. exists g5. split; [now rewrite app_nil_r | exact H5]. }
    now rewrite E.
Qed.

Lemma uuidRegex_test_chars s :
  uuidRegex_test s = true -> forallb uuidChar s = true.
Proof.
  intros H. apply uuidRegex_test_spec in H.
  destruct H as (g1 & g2 & g3 & g4 & g5 & -> & H1 & H2 & H3 & H4 & H5).
  assert (Hg : forall n g, hexDigits n g -> forallb uuidChar g = true).
  { intros n g [_ Hh]. rewrite forallb_forall in *. intros c Hc.
    unfold uuidChar. now rewrite (Hh c Hc). }
  repeat (rewrite forallb_app; apply andb_true_iff; split;
          [eapply Hg; eassumption | simpl]).
  eapply Hg; eassumption.
Qed.

Lemma uuidRegex_test_plain s : uuidRegex_test s = true -> ~ In CapitalIDot s.
Proof.
  intros H Hin. apply uuidRegex_test_chars in H.
  rewrite forallb_forall in H. now apply H in Hin.
Qed.

(** Text in canonical form is read by the store, and printed as its
    lowercase. *)
Lemma hex_facts c :
  isHexDigit c = true ->
  isChar "-" c = false /\ isChar "{" c = false /\ c <> CapitalIDot.
Proof.
  destruct c as [[[] [] [] [] [] [] [] []] | |]; vm_compute; intros H;
    try discriminate H; repeat split; discriminate.
Qed.

Ltac use_hex_facts :=
  repeat match goal with
  | H : isHexDigit ?c = true |- context [isHexDigit ?c] => rewrite H
  | H : isChar ?k ?c = false |- context [isChar ?k ?c] => rewrite H
  end.

Lemma uuid_in_canonical x :
  uuidRegex_test x = true -> uuid_in x = Some (toLowerCase x).
Proof.
  intros H. rewrite (toLowerCase_plain x (uuidRegex_test_plain x H)).
  apply uuidRegex_test_spec in H.
  destruct H as (g1 & g2 & g3 & g4 & g5 & -> &
                 [L1 H1] & [L2 H2] & [L3 H3] & [L4 H4] & [L5 H5]).
  repeat (destruct g1 as [|? g1]; simpl in L1; try discriminate L1).
  repeat (destruct g2 as [|? g2]; simpl in L2; try discriminate L2).
  repeat (destruct g3 as [|? g3]; simpl in L3; try discriminate L3).
  repeat (destruct g4 as [|? g4]; simpl in L4; try discriminate L4).
  repeat (destruct g5 as [|? g5]; simpl in L5; try discriminate L5).
  cbn [forallb] in H1, H2, H3, H4, H5.
  repeat match goal with
         | H : _ && _ = true |- _ => apply andb_true_iff in H; destruct H
         end.
  repeat match goal with
         | H : isHexDigit ?c = true |- _ =>
             lazymatch goal with
             | _ : isChar "-" c = false |- _ => fail
             | _ => destruct (hex_facts c H) as (? & ? & _)
             end
         end.
  cbn [app]. unfold uuid_in.
  match goal with H : isChar "{" ?c = false |- context [isChar "{" ?c] =>
    rewrite H end.
  repeat (progress (cbn [readBytes andb Nat.odd Nat.even Nat.ltb Nat.leb negb];
                    use_hex_facts;
                    change (isChar "-" (Latin "-")) with true)).
  reflexivity.
Qed.

Lemma uuidEq_lower_r a b : uuidEq a (toLowerCase b) = uuidEq a b.
Proof. unfold uuidEq. now rewrite toLowerCase_idem. Qed.

Lemma eqUuid_canonical {R} (column : R -> option jstring) x rows :
  uuidRegex_test x = true ->
  eqUuid column (Some x) rows =
  succeed (filter (fun r => optUuidEq (column r) x) rows).
Proof.
  intros H. unfold eqUuid. rewrite (uuid_in_canonical x H). f_equal.
  apply filter_ext. intros r. destruct (column r); [|reflexivity].
  apply uuidEq_lower_r.
Qed.

Lemma readBytes_digits n i s ds rest :
  readBytes n i s = Some (ds, rest) ->
  List.length ds = (2 * n)%nat /\
  forallb (fun c => isHexDigit c && unitEqb (lowerChar c) c) ds = true.
Proof.
  revert i s ds rest. induction n as [|n IH]; intros i s ds rest.
  - intros [= <- <-]. split; reflexivity.
  - cbn [readBytes]. destruct s as [|a [|b r]]; try discriminate.
    destruct (isHexDigit a) eqn:Ha; [|discriminate].
    destruct (isHexDigit b) eqn:Hb; [|discriminate]. cbn [andb].
    destruct (readBytes n (S i) _) as [[ds' rest']|] eqn:E; [|discriminate].
    intros [= <- <-]. destruct (IH _ _ _ _ E) as [Hl Hf].
    split; [simpl; lia|].
    cbn [forallb]. rewrite !isHexDigit_lower, Ha, Hb, !lowerChar_idem.
    now rewrite !unitEqb_refl, Hf.
Qed.

(** What the store has read as a uuid it prints in canonical form, in
    lower case. *)
Lemma uuid_in_sound x u :
  uuid_in x = Some u -> uuidRegex_test u = true /\ toLowerCase u = u.
Proof.
  unfold uuid_in.
  destruct (match x with
            | c :: r => if isChar "{" c then (true, r) else (false, x)
            | [] => (false, x)
            end) as [braces src].
  destruct (readBytes 16 0 src) as [[ds rest]|] eqn:E; [|discriminate].
  destruct (jeqb rest _); [|discriminate]. intros [= <-].
  destruct (readBytes_digits _ _ _ _ _ E) as [L H].
  repeat (destruct ds as [|? ds]; simpl in L; try discriminate L).
  cbn [forallb] in H.
  repeat match goal with
         | H : _ && _ = true |- _ => apply andb_true_iff in H; destruct H
         end.
  repeat match goal with
         | H : unitEqb _ _ = true |- _ => apply unitEqb_eq in H
         end.
  assert (Hu : uuidRegex_test (uuid_out
            [c; c0; c1; c2; c3; c4; c5; c6; c7; c8; c9; c10; c11; c12; c13;
             c14; c15; c16; c17; c18; c19; c20; c21; c22; c23; c24; c25; c26;
             c27; c28; c29; c30]) = true).
  { cbn [uuid_out firstn skipn app]. unfold uuidRegex_test.
    repeat (progress (cbn [hexGroup andThen dash]; use_hex_facts;
                      change (isChar "-" (Latin "-")) with true)).
    reflexivity. }
  split; [exact Hu|].
  rewrite toLowerCase_plain by now apply uuidRegex_test_plain.
  cbn [uuid_out firstn skipn app lowerAll map].
  repeat match goal with H : lowerChar _ = _ |- _ => rewrite H; clear H end.
  reflexivity.
Qed.

Lemma uuid_in_idem x u : uuid_in x = Some u -> uuid_in u = Some u.
Proof.
  intros H. destruct (uuid_in_sound x u H) as [Hu Hl].
  now rewrite (uuid_in_canonical u Hu), Hl.
Qed.

(** ** Lookups read off the tables *)

Lemma run_getStudent id d :
  run (getStudent id) d =
  if isValidUUID id then
    match studentRowsWithId d id with
    | [row] => Some (mapStudentFromDB row)
    | _ => None
    end
  else None.
Proof.
  unfold getStudent, studentRowsWithId.
  destruct (isValidUUID id) eqn:Hv; [|reflexivity]. simpl negb. cbv iota.
  unfold run, bind, ask, boot. cbn [db fst].
  rewrite (eqUuid_canonical _ id _ Hv).
  unfold maybeSingle, succeed. simpl.
  destruct (filter _ (students d)) as [|x [|y l]]; reflexivity.
Qed.

Lemma run_getClasses d :
  run getClasses d =
  map mapClassFromDB
      (sortBy (fun a b => ClassRow.created_at a - ClassRow.created_at b)
              (classes d)).
Proof. reflexivity. Qed.

(** The class directory holds the classes of the table, whatever the
    order. *)
Lemma In_sortedClasses d c :
  In c (sortedClasses d) <-> In c (map mapClassFromDB (classes d)).
Proof.
  unfold sortedClasses. rewrite sortBy_In, run_getClasses, !in_map_iff.
  split; intros [r [E H]]; exists r; split; auto;
    [now apply sortBy_In in H | now apply sortBy_In].
Qed.

(** The loop finds nobody when no class's clean name starts the id. *)
Lemma run_scan_no_prefix lc pg id nid cs d :
  (forall c, In c cs -> startsWith nid (cleanName c) = false) ->
  run (scanClasses lc pg id nid cs) d = (None, None).
Proof.
  induction cs as [|c cs IH]; intros H; [reflexivity|].
  rewrite run_scan_cons, (H c) by (simpl; auto).
  apply IH. intros c' Hc'. apply H. simpl; auto.
Qed.

(** ** C8: [getStudent] on a string that is not a uuid *)

(** C8.  For every [id] that is not of the canonical textual form of a uuid,
    [getStudent id] returns "not found" and leaves the world as it found it:
    the tables are not touched and the list of requests issued to the store
    has not grown.  The function is total, it has no path that raises. *)
Theorem getStudent_malformed_id_not_found (id : jstring) (w : World) :
  ~ CanonicalUuid id -> getStudent id w = (None, w).
Proof.
  intros H. unfold getStudent, isValidUUID.
  destruct (uuidRegex_test id) eqn:E; [|reflexivity].
  exfalso. apply H. now apply uuidRegex_test_spec.
Qed.

(** ** C6: a prefix match that finds nobody does not end the search *)

(** C6.  Let class [cls] be reached by the loop (the classes before it found
    nobody), let its clean name start the normalized id, and let neither the
    numeric nor the uuid branch find a student for it.  Then the loop goes
    on with the classes after [cls]; when they find nobody either, the
    student of [fetchData] is the one [getStudent] finds for the entire
    original id; and the outcome is "not found" exactly when that lookup
    fails too. *)
Theorem failed_prefix_match_continues
    (lc pg : jstring -> jstring -> Z) (id : jstring) (d : Database)
    (pre post : list ClassGroup.t) (cls : ClassGroup.t) :
  id <> [] ->
  sortedClasses d = pre ++ cls :: post ->
  fst (run (scanClasses lc pg id (toLowerCase id) pre) d) = None ->
  startsWith (toLowerCase id) (cleanName cls) = true ->
  run (tryNumber lc pg cls (cleanRemainderOf id (cleanName cls))) d = None ->
  run (tryUuid (cleanRemainderOf id (cleanName cls))) d = None ->
  let later := run (scanClasses lc pg id (toLowerCase id) post) d in
  run (scanClasses lc pg id (toLowerCase id) (sortedClasses d)) d = later /\
  (fst later = None ->
   fst (run (fetchData lc pg id) d) = run (getStudent id) d) /\
  (fst (run (fetchData lc pg id) d) = None <->
   fst later = None /\ run (getStudent id) d = None).
Proof.
  intros Hid Hsorted Hpre Hstart Hnum Huuid later.
  assert (Hscan : run (scanClasses lc pg id (toLowerCase id) (sortedClasses d)) d
                  = later).
  { rewrite Hsorted, run_scan_app by exact Hpre.
    rewrite run_scan_cons, Hstart, run_tryClass, Hnum, Huuid. reflexivity. }
  rewrite (run_fetchData lc pg id d Hid). cbv zeta. rewrite Hscan. simpl fst.
  split; [reflexivity|]. split.
  - intros ->. reflexivity.
  - destruct (fst later) as [s|]; split.
    + discriminate.
    + intros [? _]. discriminate.
    + auto.
    + intros [_ H]. exact H.
Qed.

(** ** C5: a bare uuid *)

Lemma studentRowsWithId_single d id row :
  primaryKey d -> In row (students d) -> uuidEq (StudentRow.id row) id = true ->
  studentRowsWithId d id = [row].
Proof.
  intros Hpk Hin Heq. unfold studentRowsWithId.
  apply (filter_single (fun r => toLowerCase (StudentRow.id r))); auto.
  intros y _ Hy. simpl in Hy.
  apply uuidEq_iff in Hy. apply uuidEq_iff in Heq. congruence.
Qed.

(** C5.  Let [id] be a bare uuid in canonical form that no class's clean
    name starts, and let the student table hold a row with that id.  Then
    the loop over the classes finds nobody, and [fetchData] returns the
    student of that row, found by the lookup of the whole id. *)
Theorem bare_uuid_resolves_by_fallback
    (lc pg : jstring -> jstring -> Z) (id : jstring) (d : Database)
    (row : StudentRow.t) :
  CanonicalUuid id ->
  (forall c, In c (map mapClassFromDB (classes d)) ->
             startsWith (toLowerCase id) (cleanName c) = false) ->
  primaryKey d ->
  In row (students d) ->
  uuidEq (StudentRow.id row) id = true ->
  run (scanClasses lc pg id (toLowerCase id) (sortedClasses d)) d = (None, None) /\
  run (getStudent id) d = Some (mapStudentFromDB row) /\
  fst (run (fetchData lc pg id) d) = Some (mapStudentFromDB row).
Proof.
  intros Hu Hno Hpk Hin Heq.
  assert (Hid : id <> []).
  { intros ->. apply uuidRegex_test_spec in Hu. discriminate. }
  assert (Hscan : run (scanClasses lc pg id (toLowerCase id) (sortedClasses d)) d
                  = (None, None)).
  { apply run_scan_no_prefix. intros c Hc. apply Hno. now apply In_sortedClasses. }
  assert (Hget : run (getStudent id) d = Some (mapStudentFromDB row)).
  { rewrite run_getStudent. unfold isValidUUID.
    apply uuidRegex_test_spec in Hu. rewrite Hu.
    now rewrite (studentRowsWithId_single d id row). }
  repeat split; auto.
  rewrite (run_fetchData lc pg id d Hid). cbv zeta.
  rewrite Hscan. simpl. exact Hget.
Qed.

(** ** C10: the order of [getStudents] *)

Lemma StronglySorted_weaken {A} (R R' : A -> A -> Prop) l :
  (forall a b, In a l -> In b l -> R a b -> R' a b) ->
  StronglySorted R l -> StronglySorted R' l.
Proof.
  intros H Hs. induction Hs as [|a l Hs IH Ha]; constructor.
  - apply IH. intros x y Hx Hy. apply H; simpl; auto.
  - rewrite Forall_forall in *. intros y Hy. apply H; simpl; auto.
Qed.

Section StudentOrder.
Variable lc : jstring -> jstring -> Z.
Hypothesis lc_total : forall a b, 0 < lc a b -> lc b a <= 0.
Hypothesis lc_trans : forall a b c, lc a b <= 0 -> lc b c <= 0 -> lc a c <= 0.

Lemma byUniqueIdThenName_total a b :
  0 < byUniqueIdThenName lc a b -> byUniqueIdThenName lc b a <= 0.
Proof using lc_total.
  unfold byUniqueIdThenName.
  set (x := match Student.uniqueId a with Some n => n | None => _ end).
  set (y := match Student.uniqueId b with Some n => n | None => _ end).
  destruct (Z.eqb_spec x y) as [E|E], (Z.eqb_spec y x) as [E'|E'];
    simpl; try lia. apply lc_total.
Qed.

Lemma byUniqueIdThenName_trans a b c :
  byUniqueIdThenName lc a b <= 0 -> byUniqueIdThenName lc b c <= 0 ->
  byUniqueIdThenName lc a c <= 0.
Proof using lc_trans.
  unfold byUniqueIdThenName.
  set (x := match Student.uniqueId a with Some n => n | None => _ end).
  set (y := match Student.uniqueId b with Some n => n | None => _ end).
  set (z := match Student.uniqueId c with Some n => n | None => _ end).
  destruct (Z.eqb_spec x y), (Z.eqb_spec y z), (Z.eqb_spec x z);
    simpl; try lia. apply lc_trans.
Qed.

Lemma byUniqueIdThenName_order a b :
  (forall u, Student.uniqueId a = Some u -> u <= INT4_MAX) ->
  (forall u, Student.uniqueId b = Some u -> u <= INT4_MAX) ->
  byUniqueIdThenName lc a b <= 0 -> studentOrder lc a b.
Proof.
  assert (Hlt : INT4_MAX < MAX_SAFE_INTEGER) by reflexivity.
  unfold byUniqueIdThenName, studentOrder.
  intros Ha Hb.
  destruct (Student.uniqueId a) as [x|], (Student.uniqueId b) as [y|].
  - destruct (Z.eqb_spec x y); cbn [negb]; intros; [right; auto | left; lia].
  - trivial.
  - specialize (Hb y eq_refl).
    destruct (Z.eqb_spec MAX_SAFE_INTEGER y); cbn [negb]; lia.
  - rewrite Z.eqb_refl. cbn [negb]. trivial.
Qed.
End StudentOrder.

Lemma fst_getStudents lc pg classId w :
  exists rows,
    (forall r, In r rows -> In r (students (db w))) /\
    fst (getStudents lc pg classId w) =
    sortBy (byUniqueIdThenName lc) (map mapStudentFromDB rows).
Proof.
  unfold getStudents, bind, ask, eqUuid. simpl.
  destruct (uuid_in classId).
  - simpl. eexists. split; [|reflexivity].
    intros r Hr. apply sortBy_In in Hr. apply filter_In in Hr. tauto.
  - simpl. exists []. split; [contradiction | reflexivity].
Qed.

(** C10.  With a [localeCompare] that is a consistent comparator and
    sequence numbers that fit the INTEGER column, the list [getStudents]
    returns is ordered, each student against every later one: students with
    a [uniqueId] first by ascending [uniqueId], students without one after
    them, and equal keys by name comparison. *)
Theorem getStudents_sorted
    (lc pg : jstring -> jstring -> Z) (classId : jstring) (w : World) :
  (forall a b, 0 < lc a b -> lc b a <= 0) ->
  (forall a b c, lc a b <= 0 -> lc b c <= 0 -> lc a c <= 0) ->
  (forall r u, In r (students (db w)) -> StudentRow.unique_number r = Some u ->
               u <= INT4_MAX) ->
  StronglySorted (studentOrder lc) (fst (getStudents lc pg classId w)).
Proof.
  intros Htotal Htrans Hint.
  destruct (fst_getStudents lc pg classId w) as [rows [Hrows ->]].
  apply StronglySorted_weaken with (R := fun a b => byUniqueIdThenName lc a b <= 0).
  - assert (Hb : forall s, In s (sortBy (byUniqueIdThenName lc)
                                        (map mapStudentFromDB rows)) ->
                           forall u, Student.uniqueId s = Some u -> u <= INT4_MAX).
    { intros s Hs u Hu. apply sortBy_In in Hs. apply in_map_iff in Hs.
      destruct Hs as [r [<- Hr]]. simpl in Hu.
      destruct (StudentRow.unique_number r) as [n|] eqn:En; [|discriminate].
      destruct (n =? 0); [discriminate|]. injection Hu as <-.
      apply (Hint r n); auto. }
    intros a b Ha Hb'. apply byUniqueIdThenName_order; eauto.
  - apply sortBy_ordered.
    + now apply byUniqueIdThenName_total.
    + now apply byUniqueIdThenName_trans.
Qed.

(** ** Case: what lowering a string does to the built-ins *)

Arguments isChar : simpl never.
Arguments isDigit : simpl never.
Arguments isHexDigit : simpl never.
Arguments isOctalDigit : simpl never.
Arguments isBinaryDigit : simpl never.
Arguments isWhiteSpace : simpl never.
Arguments isAlnum : simpl never.
Arguments lowerChar : simpl never.
Arguments digitValue : simpl never.




























Lemma hexGroup_lower n s :
  hexGroup n (lowerAll s) =
  match hexGroup n s with
  | Some r => Some (lowerAll r)
  | None => None
  end.
Proof.
  revert s. induction n as [|n IH]; intros s; [reflexivity|].
  destruct s as [|c s]; [reflexivity|]. simpl.
  rewrite isHexDigit_lower. destruct (isHexDigit c); [apply IH | reflexivity].
Qed.

Lemma dash_lower s :
  dash (lowerAll s) =
  match dash s with
  | Some r => Some (lowerAll r)
  | None => None
  end.
Proof.
  destruct s as [|c s]; [reflexivity|]. simpl.
  rewrite isChar_lower_minus. now destruct (isChar "-" c).
Qed.

Lemma andThen_lower (o : option jstring) (f : jstring -> option jstring) :
  (forall s, f (lowerAll s) =
             match f s with Some r => Some (lowerAll r) | None => None end) ->
  andThen (match o with Some r => Some (lowerAll r) | None => None end) f =
  match andThen o f with Some r => Some (lowerAll r) | None => None end.
Proof. intros H. destruct o; simpl; auto. Qed.

Lemma uuidRegex_test_lower s : uuidRegex_test (lowerAll s) = uuidRegex_test s.
Proof.
  unfold uuidRegex_test. rewrite hexGroup_lower.
  do 8 (rewrite andThen_lower by (first [apply dash_lower | apply hexGroup_lower])).
  destruct (andThen _ _) as [[|? ?]|]; reflexivity.
Qed.

(** [parseInt] makes NaN of the infinities. *)
Lemma trimStart_trimEnd s : exists ws, s = trimEnd s ++ ws.
Proof.
  unfold trimEnd. assert (H : forall l, exists ws, l = ws ++ trimStart l).
  { induction l as [|c l [ws IH]]; [now exists []|]. simpl.
    destruct (isWhiteSpace c); [|now exists []].
    exists (c :: ws). simpl. now f_equal. }
  destruct (H (rev s)) as [ws E]. exists (rev ws).
  rewrite <- rev_app_distr, <- E. now rewrite rev_involutive.
Qed.



Lemma run_tryNumber lc pg cls r d :
  run (tryNumber lc pg cls r) d =
  if isNumberRemainder r
  then find (hasUniqueId (parseInt r))
            (run (getStudents lc pg (ClassGroup.id cls)) d)
  else None.
Proof.
  unfold tryNumber. destruct (isNumberRemainder r); [|reflexivity].
  rewrite run_bind; [reflexivity | apply readOnly_getStudents |].
  intros; apply readOnly_ret.
Qed.

Lemma run_tryUuid r d :
  run (tryUuid r) d = if uuidRegex_test r then run (getStudent r) d else None.
Proof. unfold tryUuid. now destruct (uuidRegex_test r). Qed.









(** ** C4: the case of the token *)


(** ** C7: the underscore separator *)

Lemma lower_alnum_not_underscore c :
  isAlnum c = true -> isChar "_" (lowerChar c) = false.
Proof. each_char c. Qed.

Lemma cleanName_no_underscore cls :
  forallb (fun c => negb (isChar "_" c)) (cleanName cls) = true.
Proof.
  rewrite cleanName_lowerAll. unfold stripNonAlnum, lowerAll.
  apply forallb_forall.
  intros c Hc. apply in_map_iff in Hc as [x [<- Hx]].
  apply filter_In in Hx as [_ Hx]. now rewrite lower_alnum_not_underscore.
Qed.

Lemma startsWith_before_underscore a b p :
  forallb (fun c => negb (isChar "_" c)) p = true ->
  startsWith (a ++ Latin "_" :: b) p = true -> startsWith a p = true.
Proof.
  revert a. induction p as [|k p IH]; intros a Hp H; [reflexivity|].
  cbn [forallb] in Hp. apply andb_true_iff in Hp as [Hk Hp].
  destruct a as [|x a]; cbn [app startsWith] in *.
  - apply andb_true_iff in H as [H _]. apply unitEqb_eq in H. subst k.
    discriminate.
  - apply andb_true_iff in H as [H1 H2]. rewrite H1. now apply IH.
Qed.

Lemma startsWith_app_l a b p : startsWith a p = true -> startsWith (a ++ b) p = true.
Proof.
  intros H. apply startsWith_iff in H as [r ->]. rewrite <- app_assoc.
  apply startsWith_app.
Qed.

Lemma cleanRemainderOf_underscore P R cn :
  List.length cn = List.length P ->
  startsWith R (str "_") = false ->
  cleanRemainderOf (P ++ Latin "_" :: R) cn = cleanRemainderOf (P ++ R) cn.
Proof.
  intros Hl HR. unfold cleanRemainderOf. rewrite Hl, !slice_app, HR. reflexivity.
Qed.

(** The loop treats the two tokens alike when every class whose clean name
    starts the token without the underscore has the prefix as its clean
    name. *)
Lemma scanClasses_underscore lc pg P R cs d :
  (forall c, In c cs ->
             startsWith (toLowerCase (P ++ R)) (cleanName c) = true ->
             cleanName c = toLowerCase P) ->
  startsWith R (str "_") = false ->
  run (scanClasses lc pg (P ++ Latin "_" :: R)
         (toLowerCase (P ++ Latin "_" :: R)) cs) d =
  run (scanClasses lc pg (P ++ R) (toLowerCase (P ++ R)) cs) d.
Proof.
  intros H HR. induction cs as [|c cs IH]; [reflexivity|].
  rewrite !run_scan_cons.
  rewrite IH by (intros c' Hc'; apply H; simpl; auto).
  destruct (startsWith (toLowerCase (P ++ R)) (cleanName c)) eqn:E.
  - assert (Hc : cleanName c = toLowerCase P) by (apply H; simpl; auto).
    rewrite Hc at 1. rewrite toLowerCase_app, startsWith_app.
    rewrite !run_tryClass, cleanRemainderOf_underscore; auto.
    rewrite Hc. apply toLowerCase_length. exact (cleanName_plain c P Hc).
  - destruct (startsWith (toLowerCase (P ++ Latin "_" :: R)) (cleanName c)) eqn:E';
      [|reflexivity].
    exfalso. rewrite toLowerCase_app in E'.
    change (toLowerCase (Latin "_" :: R)) with (Latin "_" :: toLowerCase R) in E'.
    apply startsWith_before_underscore in E'; [|apply cleanName_no_underscore].
    apply (startsWith_app_l _ (toLowerCase R)) in E'.
    rewrite <- toLowerCase_app in E'. congruence.
Qed.

Lemma uuidRegex_test_underscore P R : uuidRegex_test (P ++ Latin "_" :: R) = false.
Proof.
  destruct (uuidRegex_test _) eqn:E; [|reflexivity].
  apply uuidRegex_test_chars in E. rewrite forallb_app in E.
  apply andb_true_iff in E as [_ E]. simpl in E. discriminate.
Qed.

(** An empty id meets no student in the loop. *)
Lemma scanClasses_empty lc pg cs d :
  run (scanClasses lc pg [] [] cs) d = (None, None).
Proof.
  induction cs as [|c cs IH]; [reflexivity|].
  rewrite run_scan_cons, IH, run_tryClass, run_tryNumber, run_tryUuid.
  assert (E : cleanRemainderOf [] (cleanName c) = []).
  { unfold cleanRemainderOf, slice. rewrite skipn_nil. reflexivity. }
  rewrite E. now destruct (startsWith [] (cleanName c)).
Qed.

(** C7, amended.  Let a token carry an underscore after a prefix [P], the
    rest [R] not starting with a second underscore.  If every class whose
    clean name starts the token without the underscore has exactly the
    lowered [P] as its clean name, and the token without the underscore is
    not a bare uuid, then the token with the underscore and the token
    without it resolve to the same outcome. *)
Theorem underscore_separator_is_dropped
    (lc pg : jstring -> jstring -> Z) (P R : jstring) (d : Database) :
  (forall c, In c (map mapClassFromDB (classes d)) ->
             startsWith (toLowerCase (P ++ R)) (cleanName c) = true ->
             cleanName c = toLowerCase P) ->
  startsWith R (str "_") = false ->
  uuidRegex_test (P ++ R) = false ->
  run (fetchData lc pg (P ++ Latin "_" :: R)) d =
  run (fetchData lc pg (P ++ R)) d.
Proof.
  intros H HR Hu.
  assert (Hscan := scanClasses_underscore lc pg P R (sortedClasses d) d).
  rewrite run_fetchData by (destruct P; discriminate). cbv zeta.
  rewrite Hscan; auto.
  2:{ intros c Hc. apply H. now apply In_sortedClasses. }
  rewrite (run_getStudent (P ++ Latin "_" :: R)). unfold isValidUUID.
  rewrite uuidRegex_test_underscore.
  destruct (P ++ R) as [|c0 t] eqn:Et.
  - rewrite scanClasses_empty. reflexivity.
  - rewrite run_fetchData by discriminate. cbv zeta.
    rewrite (run_getStudent (c0 :: t)). unfold isValidUUID. rewrite Hu.
    reflexivity.
Qed.

(** ** Decimal numerals *)

Lemma digitChar_spec d :
  0 <= d <= 9 -> isDigit (digitChar d) = true /\ digitValue (digitChar d) = d.
Proof.
  intros H.
  assert (E : d = 0 \/ d = 1 \/ d = 2 \/ d = 3 \/ d = 4 \/ d = 5 \/ d = 6 \/
              d = 7 \/ d = 8 \/ d = 9) by lia.
  repeat (destruct E as [->|E]; [split; reflexivity|]). subst. split; reflexivity.
Qed.

Lemma digitsValue_snoc radix ds c :
  digitsValue radix (ds ++ [c]) = digitsValue radix ds * radix + digitValue c.
Proof. unfold digitsValue. now rewrite fold_left_app. Qed.

(** [digitsOf] puts the decimal numeral of [n] in front of [acc]: digits
    only, at least one, of value [n], and no more than [k] of them when
    [n < 10^k]. *)
Lemma digitsOf_spec fuel n acc :
  0 <= n < 2 ^ Z.of_nat fuel -> (0 < fuel)%nat ->
  exists ds,
    digitsOf fuel n acc = ds ++ acc /\ ds <> [] /\
    forallb isDigit ds = true /\ digitsValue 10 ds = n /\
    (forall k, (0 < k)%nat -> n < 10 ^ Z.of_nat k -> (List.length ds <= k)%nat).
Proof.
  revert n acc. induction fuel as [|fuel IH]; intros n acc Hn Hf; [lia|].
  cbn [digitsOf].
  assert (Hm : 0 <= n mod 10 <= 9) by (pose proof (Z.mod_pos_bound n 10); lia).
  destruct (digitChar_spec (n mod 10) Hm) as [Hd Hv].
  destruct (Z.ltb_spec n 10) as [Hlt|Hge].
  - exists [digitChar (n mod 10)]. repeat split.
    + discriminate.
    + simpl. now rewrite Hd.
    + unfold digitsValue. simpl. rewrite Hv. apply Z.mod_small. lia.
    + intros k Hk _. simpl. lia.
  - assert (Hfuel : (0 < fuel)%nat).
    { destruct fuel; [|lia]. simpl in Hn. lia. }
    assert (Hdiv : 0 <= n / 10 < 2 ^ Z.of_nat fuel).
    { split; [apply Z.div_pos; lia|].
      apply Z.div_lt_upper_bound; [lia|].
      rewrite Nat2Z.inj_succ, Z.pow_succ_r in Hn by lia.
      assert (0 < 2 ^ Z.of_nat fuel) by (apply Z.pow_pos_nonneg; lia). lia. }
    destruct (IH (n / 10) (digitChar (n mod 10) :: acc) Hdiv Hfuel)
      as (ds & E & Hne & Hall & Hval & Hlen).
    exists (ds ++ [digitChar (n mod 10)]). repeat split.
    + rewrite E, <- app_assoc. reflexivity.
    + destruct ds; discriminate.
    + rewrite forallb_app, Hall. simpl. now rewrite Hd.
    + rewrite digitsValue_snoc, Hval, Hv.
      pose proof (Z.div_mod n 10). lia.
    + intros k Hk Hnk. rewrite length_app. simpl.
      destruct k as [|k]; [lia|].
      destruct k as [|k]; [simpl in Hnk; lia|].
      assert (List.length ds <= S k)%nat; [|lia].
      apply Hlen; [lia|].
      apply Z.div_lt_upper_bound; [lia|].
      rewrite (Nat2Z.inj_succ (S k)), Z.pow_succ_r in Hnk by lia. lia.
Qed.

Lemma Number_toString_spec n :
  0 < n ->
  exists ds,
    Number_toString n = ds /\ ds <> [] /\
    forallb isDigit ds = true /\ digitsValue 10 ds = n /\
    (forall k, (0 < k)%nat -> n < 10 ^ Z.of_nat k -> (List.length ds <= k)%nat).
Proof.
  intros Hn. unfold Number_toString.
  destruct (Z.ltb_spec n 0) as [|_]; [lia|].
  destruct (digitsOf_spec (S (Z.to_nat (Z.log2 n))) n []) as (ds & E & H);
    [|lia|].
  - split; [lia|]. rewrite Nat2Z.inj_succ, Z2Nat.id by apply Z.log2_nonneg.
    apply Z.log2_spec. exact Hn.
  - exists ds. rewrite E, app_nil_r. auto.
Qed.

(** A digit is none of the characters the parsers look for. *)
Lemma digit_is_plain c :
  isDigit c = true ->
  isWhiteSpace c = false /\ isChar "+" c = false /\ isChar "-" c = false /\
  isChar "." c = false /\ isChar "_" c = false /\ isChar "x" c = false /\
  isChar "X" c = false.
Proof. each_char c; repeat split. Qed.

Lemma takeWhile_id (p : codeUnit -> bool) s :
  forallb p s = true -> takeWhile p s = s.
Proof.
  induction s as [|c s IH]; [reflexivity|]. simpl. intros H.
  apply andb_true_iff in H as [-> H]. now rewrite IH.
Qed.

Lemma dropDigits_all s : forallb isDigit s = true -> dropDigits s = [].
Proof.
  induction s as [|c s IH]; [reflexivity|]. simpl. intros H.
  apply andb_true_iff in H as [-> H]. now apply IH.
Qed.

Lemma trim_plain s :
  forallb (fun c => negb (isWhiteSpace c)) s = true -> trim s = s.
Proof.
  assert (Hstart : forall l, forallb (fun c => negb (isWhiteSpace c)) l = true ->
                             trimStart l = l).
  { intros [|c l]; [reflexivity|]. simpl. intros H.
    apply andb_true_iff in H as [H _]. now destruct (isWhiteSpace c). }
  intros H. unfold trim, trimEnd. rewrite (Hstart s H), Hstart.
  - apply rev_involutive.
  - apply forallb_forall. intros c Hc. apply in_rev in Hc.
    rewrite forallb_forall in H. now apply H.
Qed.

Lemma digits_plain s :
  forallb isDigit s = true ->
  forallb (fun c => negb (isWhiteSpace c)) s = true.
Proof.
  rewrite !forallb_forall. intros H c Hc.
  destruct (digit_is_plain c (H c Hc)) as [-> _]. reflexivity.
Qed.

(** A string of digits is a number for [Number], and [parseInt] reads its
    value. *)
Lemma digits_numeric ds :
  ds <> [] -> forallb isDigit ds = true ->
  Number_isNaN ds = false /\ parseInt ds = Some (digitsValue 10 ds) /\
  trim ds = ds /\ startsWith ds (str "_") = false.
Proof.
  intros Hne Hall.
  assert (Htrim : trim ds = ds) by (apply trim_plain, digits_plain, Hall).
  destruct ds as [|c r]; [congruence|].
  assert (Hc : isDigit c = true) by (simpl in Hall; now apply andb_true_iff in Hall).
  destruct (digit_is_plain c Hc) as (Hws & Hp & Hm & Hdot & Hu & Hx & HX).
  repeat split.
  - unfold Number_isNaN. rewrite Htrim.
    unfold StrNumericLiteral, StrDecimalLiteral, StrUnsignedDecimalLiteral.
    rewrite Hp, Hm. cbn [orb]. unfold DecimalForm. rewrite Hdot.
    rewrite (dropDigits_all _ Hall). cbn [startsWithDigit]. rewrite Hc.
    now rewrite orb_true_r.
  - unfold parseInt. cbn [trimStart]. rewrite Hws. unfold splitSign.
    rewrite Hm, Hp.
    assert (Hr : splitRadix (c :: r) = (10, c :: r)).
    { unfold splitRadix. destruct r as [|k r]; [reflexivity|].
      assert (Hk : isDigit k = true).
      { simpl in Hall. apply andb_true_iff in Hall as [_ Hall].
        now apply andb_true_iff in Hall. }
      destruct (digit_is_plain k Hk) as (_ & _ & _ & _ & _ & -> & ->).
      now rewrite andb_false_r. }
    rewrite Hr. change (isRadixDigit 10) with isDigit.
    rewrite (takeWhile_id _ _ Hall). now rewrite Z.mul_1_l.
  - exact Htrim.
  - cbn [startsWith str list_ascii_of_string map]. fold (isChar "_" c).
    now rewrite Hu.
Qed.

(** ** C3: from a display identifier back to the student *)

Lemma find_unique {A} (p : A -> bool) l x :
  In x l -> p x = true -> (forall y, In y l -> p y = true -> y = x) ->
  find p l = Some x.
Proof.
  induction l as [|a l IH]; intros Hin Hp Hu; [contradiction|].
  simpl. destruct (p a) eqn:Ha.
  - f_equal. apply Hu; simpl; auto.
  - destruct Hin as [->|Hin]; [congruence|].
    apply IH; auto. intros y Hy. apply Hu. simpl; auto.
Qed.

Lemma scanClasses_unique_match lc pg id cs cls s d :
  (forall c, In c cs -> startsWith (toLowerCase id) (cleanName c) = true ->
             c = cls) ->
  In cls cs ->
  startsWith (toLowerCase id) (cleanName cls) = true ->
  run (tryClass lc pg id cls) d = Some s ->
  run (scanClasses lc pg id (toLowerCase id) cs) d = (Some s, Some cls).
Proof.
  intros Hu Hin Hst Htry. induction cs as [|c cs IH]; [contradiction|].
  rewrite run_scan_cons.
  destruct (startsWith (toLowerCase id) (cleanName c)) eqn:E.
  - assert (c = cls) by (apply Hu; simpl; auto). subst c. now rewrite Htry.
  - destruct Hin as [->|Hin]; [congruence|].
    apply IH; auto. intros c' Hc'. apply Hu. simpl; auto.
Qed.

Lemma uuidChar_plain c :
  uuidChar c = true -> isWhiteSpace c = false /\ isChar "_" c = false.
Proof. each_char c; split; reflexivity. Qed.

Lemma CanonicalUuid_length s : CanonicalUuid s -> List.length s = 36%nat.
Proof.
  intros (g1 & g2 & g3 & g4 & g5 & -> & [H1 _] & [H2 _] & [H3 _] & [H4 _] & [H5 _]).
  repeat (rewrite length_app; cbn [List.length]). lia.
Qed.

Lemma uuid_remainder s :
  CanonicalUuid s ->
  trim s = s /\ startsWith s (str "_") = false /\ isNumberRemainder s = false.
Proof.
  intros H. pose proof (CanonicalUuid_length s H) as Hl.
  apply uuidRegex_test_spec, uuidRegex_test_chars in H.
  repeat split.
  - apply trim_plain. rewrite forallb_forall in *. intros c Hc.
    destruct (uuidChar_plain c (H c Hc)) as [-> _]. reflexivity.
  - destruct s as [|c s]; [reflexivity|].
    cbn [startsWith str list_ascii_of_string map]. fold (isChar "_" c).
    simpl in H. apply andb_true_iff in H as [H _].
    destruct (uuidChar_plain c H) as [_ ->]. reflexivity.
  - unfold isNumberRemainder. rewrite Hl. now rewrite andb_false_r.
Qed.

Lemma In_getStudents lc pg classId d s :
  In s (run (getStudents lc pg classId) d) ->
  exists row, In row (students d) /\ s = mapStudentFromDB row.
Proof.
  unfold run. destruct (fst_getStudents lc pg classId (boot d)) as [rows [Hr ->]].
  intros H. apply sortBy_In, in_map_iff in H as [row [<- Hrow]].
  exists row. split; [now apply Hr | reflexivity].
Qed.

Lemma cleanRemainderOf_display name suffix :
  cleanRemainderOf (stripNonAlnum name ++ suffix)
                   (toLowerCase (stripNonAlnum name)) =
  trim (if startsWith suffix (str "_") then slice suffix 1 else suffix).
Proof.
  unfold cleanRemainderOf.
  now rewrite toLowerCase_length, slice_app by apply stripNonAlnum_plain.
Qed.

(** C3, amended.  Let [cls] be a class of the directory, the only one whose
    clean name starts the lowered display identifier, and [s] a student
    listed in [cls].  If [s] carries a sequence number, let it be positive,
    below 10^9 and carried by no other student of the class; if it carries
    none, let its id be a uuid in canonical form in a table keyed by id.
    Then resolving the display identifier built for [s] and [cls] returns
    [s] and [cls]. *)
Theorem display_id_resolves_back
    (lc pg : jstring -> jstring -> Z) (d : Database)
    (s : Student.t) (cls : ClassGroup.t) :
  let token := getFullDisplayId (Some s) (Some cls) in
  let listed := run (getStudents lc pg (ClassGroup.id cls)) d in
  In cls (map mapClassFromDB (classes d)) ->
  In s listed ->
  (forall c, In c (map mapClassFromDB (classes d)) ->
             startsWith (toLowerCase token) (cleanName c) = true -> c = cls) ->
  match Student.uniqueId s with
  | Some n => 0 < n < 1000000000 /\
              forall s', In s' listed -> Student.uniqueId s' = Some n -> s' = s
  | None => CanonicalUuid (Student.id s) /\ primaryKey d
  end ->
  run (fetchData lc pg token) d = (Some s, Some cls).
Proof.
  intros token listed Hcls Hs Honly Hnum.
  assert (Hstart : startsWith (toLowerCase token) (cleanName cls) = true).
  { unfold token, getFullDisplayId, cleanName.
    rewrite toLowerCase_app. apply startsWith_app. }
  assert (Htry : run (tryClass lc pg token cls) d = Some s).
  { rewrite run_tryClass, run_tryNumber, run_tryUuid.
    unfold token, getFullDisplayId, cleanName.
    rewrite !cleanRemainderOf_display.
    destruct (Student.uniqueId s) as [n|] eqn:En.
    - destruct Hnum as [Hn Huniq].
      destruct (Z.eqb_spec n 0) as [|_]; [lia|].
      destruct (Number_toString_spec n) as (ds & -> & Hne & Hall & Hval & Hlen);
        [lia|].
      destruct (digits_numeric ds Hne Hall) as (Hnan & Hparse & Htrim & Hu).
      rewrite Hu, Htrim. unfold isNumberRemainder. rewrite Hnan.
      assert (Hl : (List.length ds <= 9)%nat) by (apply Hlen; [lia | simpl; lia]).
      assert (Hl0 : (0 < List.length ds)%nat) by (destruct ds; [congruence | simpl; lia]).
      replace (0 <? Z.of_nat (List.length ds)) with true
        by (symmetry; apply Z.ltb_lt; lia).
      replace (Z.of_nat (List.length ds) <? 10) with true
        by (symmetry; apply Z.ltb_lt; lia).
      cbn [negb andb]. rewrite Hparse, Hval.
      fold listed. rewrite (find_unique _ listed s); auto.
      + unfold hasUniqueId. rewrite En. apply Z.eqb_refl.
      + intros y Hy Hp. apply Huniq; auto. unfold hasUniqueId in Hp.
        destruct (Student.uniqueId y) as [m|]; [|discriminate].
        apply Z.eqb_eq in Hp. now subst.
    - destruct Hnum as [Hu Hpk].
      destruct (uuid_remainder _ Hu) as (Htrim & Hund & Hnr).
      rewrite Hund, Htrim, Hnr.
      apply uuidRegex_test_spec in Hu. rewrite Hu.
      rewrite run_getStudent. unfold isValidUUID. rewrite Hu.
      destruct (In_getStudents lc pg _ d s Hs) as [row [Hrow ->]].
      rewrite (studentRowsWithId_single d _ row); auto.
      apply uuidEq_iff. reflexivity. }
  assert (Hne : token <> []).
  { intros E. rewrite E in Htry. rewrite run_tryClass, run_tryNumber, run_tryUuid in Htry.
    assert (Er : cleanRemainderOf [] (cleanName cls) = []).
    { unfold cleanRemainderOf, slice. now rewrite skipn_nil. }
    rewrite Er in Htry. discriminate. }
  rewrite run_fetchData by exact Hne. cbv zeta.
  rewrite (scanClasses_unique_match lc pg token (sortedClasses d) cls s d); auto.
  - intros c Hc. apply Honly. now apply In_sortedClasses.
  - now apply In_sortedClasses.
Qed.

(** ** C9: the number [saveStudent] assigns *)

Lemma fold_left_max (num : StudentRow.t -> Z) rows acc :
  fold_left (fun max curr => if num curr >? max then num curr else max) rows acc
  = fold_right Z.max acc (map num rows).
Proof.
  revert acc. induction rows as [|r rows IH]; intros acc; simpl; [reflexivity|].
  rewrite IH. destruct (Z.gtb_spec (num r) acc) as [H|H].
  - clear IH. induction rows as [|r' rows IH]; simpl; lia.
  - clear IH. induction rows as [|r' rows IH]; simpl; lia.
Qed.

Lemma maxOrZero_positive l :
  (forall u, In u l -> 0 < u) -> maxOrZero l = fold_right Z.max 0 l.
Proof.
  destruct l as [|x l]; [reflexivity|]. intros H. simpl.
  assert (Hx : 0 < x) by (apply H; simpl; auto).
  clear H. induction l as [|y l IH]; simpl; lia.
Qed.

Lemma maxUniqueNumber_spec rows :
  (forall u, In u (uniqueIdsOf (map mapStudentFromDB rows)) -> 0 < u) ->
  maxUniqueNumber rows = maxOrZero (uniqueIdsOf (map mapStudentFromDB rows)).
Proof.
  intros Hpos. rewrite maxOrZero_positive by exact Hpos. clear Hpos.
  unfold maxUniqueNumber.
  rewrite (fold_left_max (fun r => numberOrZero (StudentRow.unique_number r))).
  induction rows as [|r rows IH]; [reflexivity|].
  simpl. rewrite IH. clear IH.
  destruct (StudentRow.unique_number r) as [n|]; simpl.
  - destruct (Z.eqb_spec n 0) as [->|Hn]; simpl; [|reflexivity].
    assert (0 <= fold_right Z.max 0
                   (uniqueIdsOf (map mapStudentFromDB rows))).
    { generalize (uniqueIdsOf (map mapStudentFromDB rows)).
      intros l. induction l; simpl; lia. }
    lia.
  - assert (0 <= fold_right Z.max 0
                   (uniqueIdsOf (map mapStudentFromDB rows))).
    { generalize (uniqueIdsOf (map mapStudentFromDB rows)).
      intros l. induction l; simpl; lia. }
    lia.
Qed.

Lemma maxOrZero_bound l u : In u l -> u <= maxOrZero l.
Proof.
  destruct l as [|x l]; [contradiction|]. simpl.
  assert (Hx : x <= fold_right Z.max x l) by (induction l; simpl; lia).
  intros [E|H]; [lia|]. clear Hx.
  induction l as [|y l IH]; [contradiction|].
  simpl. destruct H as [E|H]; [lia|]. specialize (IH H). lia.
Qed.

Lemma rowsOfClass_lower d c : rowsOfClass d (toLowerCase c) = rowsOfClass d c.
Proof.
  unfold rowsOfClass. apply filter_ext. intros r.
  destruct (StudentRow.class_id r); [|reflexivity]. apply uuidEq_lower_r.
Qed.

(** The payload of a student without a number, of a class the store can
    read. *)
Lemma preparePayload_readable student c u w :
  PartialStudent.classId student = Some c ->
  uuid_in c = Some u ->
  missingNumber (PartialStudent.uniqueId student) = true ->
  preparePayload student w =
  (withNumber (initialPayload student)
              (Some (maxUniqueNumber (rowsOfClass (db w) u) + 1)),
   {| db := db w;
      issued := issued w ++ [SelectStudentsOf (Some c)] |}).
Proof.
  intros Hc Hv Hm. unfold preparePayload. cbv zeta.
  unfold initialPayload at 1. cbn [Payload.unique_number].
  rewrite Hm, Hc. unfold bind, ask, eqUuid. rewrite Hv. reflexivity.
Qed.

Lemma run_preparePayload student c w :
  PartialStudent.classId student = Some c ->
  uuidRegex_test c = true ->
  missingNumber (PartialStudent.uniqueId student) = true ->
  preparePayload student w =
  (withNumber (initialPayload student)
              (Some (maxUniqueNumber (rowsOfClass (db w) c) + 1)),
   {| db := db w;
      issued := issued w ++ [SelectStudentsOf (Some c)] |}).
Proof.
  intros Hc Hv Hm.
  rewrite (preparePayload_readable student c _ w Hc (uuid_in_canonical c Hv) Hm).
  now rewrite rowsOfClass_lower.
Qed.

(** *** What the store answers to an upsert *)

Lemma upsertStudent_run p w :
  upsertStudent p w =
  (maybeSingle (fst (upsertRows p (db w))),
   {| db := snd (upsertRows p (db w));
      issued := issued w ++ [UpsertStudent p] |}).
Proof.
  unfold upsertStudent, tell. now destruct (upsertRows p (db w)).
Qed.

Lemma upsertRows_refused p d e :
  refusal p d = Some e -> upsertRows p d = (refuse e, d).
Proof. intros H. unfold upsertRows. now rewrite H. Qed.

(** An upsert that is not refused writes: its answer carries no error. *)
Lemma upsertRows_accepted p d :
  refusal p d = None -> error (fst (upsertRows p d)) = None.
Proof.
  intros H. unfold upsertRows. rewrite H.
  destruct (stored (Payload.id p)) as [u|]; [|reflexivity].
  destruct (hasStudent d u); reflexivity.
Qed.

(** The only other error is that of [maybeSingle], which is not one the
    program tries again after. *)
Lemma upsert_error p d e :
  error (maybeSingle (fst (upsertRows p d))) = Some e ->
  refusal p d = Some e \/ (refusal p d = None /\ retried e = false).
Proof.
  destruct (refusal p d) as [e'|] eqn:E.
  - rewrite (upsertRows_refused p d e' E). cbn [fst refuse maybeSingle error].
    intros [= <-]. now left.
  - intros H. right. split; [reflexivity|].
    pose proof (upsertRows_accepted p d E) as Hok.
    unfold maybeSingle in H. rewrite Hok in H.
    destruct (data (fst (upsertRows p d))) as [[|x [|y l]]|];
      cbn [error succeed fail] in H; try discriminate.
    injection H as <-. reflexivity.
Qed.

(** Numerals have no letter in them. *)
Lemma digit_not_u c : isDigit c = true -> negb (isChar "u" c) = true.
Proof. each_char c. Qed.

Lemma digitsOf_no_u fuel n acc :
  forallb (fun c => negb (isChar "u" c)) acc = true ->
  forallb (fun c => negb (isChar "u" c)) (digitsOf fuel n acc) = true.
Proof.
  revert n acc. induction fuel as [|fuel IH]; intros n acc H; [exact H|].
  cbn [digitsOf].
  assert (Hd : negb (isChar "u" (digitChar (n mod 10))) = true).
  { pose proof (Z.mod_pos_bound n 10 ltac:(lia)) as Hm.
    destruct (digitChar_spec (n mod 10) ltac:(lia)) as [Hd _].
    now apply digit_not_u. }
  assert (H' : forallb (fun c => negb (isChar "u" c))
                       (digitChar (n mod 10) :: acc) = true)
    by (cbn [forallb]; now rewrite Hd, H).
  destruct (n <? 10); [exact H' | now apply IH].
Qed.

Lemma Number_toString_no_u n :
  forallb (fun c => negb (isChar "u" c)) (Number_toString n) = true.
Proof.
  unfold Number_toString. destruct (n <? 0).
  - cbn [forallb]. now rewrite digitsOf_no_u.
  - now apply digitsOf_no_u.
Qed.

Lemma includes_skip (k : ascii) D B P :
  forallb (fun c => negb (isChar k c)) D = true ->
  includes (D ++ B) (Latin k :: P) = includes B (Latin k :: P).
Proof.
  induction D as [|c D IH]; intros H; [reflexivity|].
  cbn [forallb] in H. apply andb_true_iff in H as [Hc H].
  cbn [app includes]. rewrite (IH H).
  cbn [startsWith]. fold (isChar k c).
  apply negb_true_iff in Hc. now rewrite Hc.
Qed.

(** A number out of range is not an error the program tries again
    after. *)
Lemma rangeError_final n : retried (rangeError n) = false.
Proof.
  unfold retried, rangeError. cbn [code_of message].
  apply orb_false_iff. split; [reflexivity|].
  unfold quoted. cbn [str list_ascii_of_string map app includes startsWith].
  cbn [unitEqb Ascii.eqb Bool.eqb andb orb].
  rewrite <- app_assoc.
  change (Latin "u" :: Latin "n" :: ?x) with (Latin "u" :: Latin "n" :: x).
  rewrite (includes_skip "u" (Number_toString n)) by apply Number_toString_no_u.
  reflexivity.
Qed.

(** With the column in place, an error the program tries again after
    comes back when it does. *)
Lemma refusal_retried p d e :
  numbered d = true -> refusal p d = Some e -> retried e = true ->
  refusal (deleteNumber p) d = Some e.
Proof.
  unfold refusal. intros Hn. rewrite Hn, andb_false_r.
  cbn [deleteNumber Payload.id Payload.class_id Payload.has_unique_number
       Payload.unique_number andb].
  destruct (unreadable (Payload.id p)); [auto|].
  destruct (unreadable (Payload.class_id p)); [auto|].
  destruct (Payload.unique_number p) as [n|]; [|discriminate].
  destruct (Payload.has_unique_number p && negb (inInt4 n)); [|discriminate].
  intros [= <-] H. now rewrite rangeError_final in H.
Qed.

Lemma upsert_retry_fails p w e :
  numbered (db w) = true ->
  error (fst (upsertStudent p w)) = Some e -> retried e = true ->
  exists e', error (fst (upsertStudent (deleteNumber p)
                                       (snd (upsertStudent p w)))) = Some e'.
Proof.
  rewrite !upsertStudent_run. cbn [fst snd db]. intros Hn He Hr.
  destruct (upsert_error p (db w) e He) as [H|[_ H]]; [|congruence].
  rewrite (upsertRows_refused p _ e H). cbn [snd].
  rewrite (upsertRows_refused (deleteNumber p) _ e
             (refusal_retried p _ e Hn H Hr)).
  cbn. eauto.
Qed.

(** The row an upsert returns carries the number of the payload. *)
Lemma upsert_row_number p d row :
  Payload.has_unique_number p = true ->
  data (maybeSingle (fst (upsertRows p d))) = Some row ->
  StudentRow.unique_number row = Payload.unique_number p.
Proof.
  intros Hk. unfold upsertRows.
  destruct (refusal p d); [discriminate|].
  destruct (stored (Payload.id p)) as [u|].
  - destruct (hasStudent d u).
    + cbn [fst maybeSingle succeed error data].
      destruct (filter _ (students d)) as [|x [|y l]] eqn:Hf;
        cbn [map data succeed fail]; try discriminate.
      intros [= <-].
      assert (Hx : In x (filter (fun r => uuidEq (StudentRow.id r) u)
                                (students d))) by (rewrite Hf; now left).
      apply filter_In in Hx as [_ Hx]. rewrite Hx.
      cbn [mergeRow StudentRow.unique_number]. now rewrite Hk.
    + intros [= <-]. cbn [newRow StudentRow.unique_number]. now rewrite Hk.
  - intros [= <-]. cbn [newRow StudentRow.unique_number]. now rewrite Hk.
Qed.

(** An upsert that is not refused returns a row, unless several rows carry
    the id. *)
Lemma upsert_succeeds p d :
  refusal p d = None ->
  (forall u, stored (Payload.id p) = Some u ->
             (List.length (studentRowsWithId d u) <= 1)%nat) ->
  exists row, maybeSingle (fst (upsertRows p d)) = succeed row.
Proof.
  intros Hr Hlen. unfold upsertRows. rewrite Hr.
  destruct (stored (Payload.id p)) as [u|]; [|eexists; reflexivity].
  specialize (Hlen u eq_refl). unfold studentRowsWithId in Hlen.
  cbn [optUuidEq] in Hlen.
  destruct (hasStudent d u) eqn:Hh; [|eexists; reflexivity].
  cbn [fst].
  destruct (filter _ (students d)) as [|x [|y l]] eqn:Hf.
  - exfalso. unfold hasStudent in Hh.
    apply existsb_exists in Hh as [x [Hx Hp]].
    assert (Hin : In x (filter (fun r => uuidEq (StudentRow.id r) u)
                               (students d))) by (apply filter_In; auto).
    rewrite Hf in Hin. contradiction.
  - eexists. reflexivity.
  - simpl in Hlen. lia.
Qed.

(** [saveStudent], call by call. *)
Lemma saveStudent_run student w :
  saveStudent student w =
  let (p, w1) := preparePayload student w in
  let (r, w2) := upsertStudent p w1 in
  let (r', w3) := match error r with
                  | Some e => if retried e
                              then upsertStudent (deleteNumber p) w2
                              else (r, w2)
                  | None => (r, w2)
                  end in
  (match error r' with
   | Some _ => None
   | None => match data r' with
             | None => None
             | Some row => Some (mapStudentFromDB row)
             end
   end, w3).
Proof.
  unfold saveStudent, bind, ret.
  destruct (preparePayload student w) as [p w1].
  destruct (upsertStudent p w1) as [r w2].
  destruct (error r) as [e|] eqn:Ee.
  - fold (retried e). destruct (retried e).
    + destruct (upsertStudent (deleteNumber p) w2) as [r' w3].
      destruct (error r'); [reflexivity|]. now destruct (data r').
    + rewrite Ee. reflexivity.
  - rewrite Ee. now destruct (data r).
Qed.

(** With the column in place, a save that returns a student is one whose
    first upsert went through: the student is the row written, and the
    world is the one after it. *)
Lemma saveStudent_success student w p w1 s :
  numbered (db w1) = true ->
  preparePayload student w = (p, w1) ->
  fst (saveStudent student w) = Some s ->
  exists row,
    error (fst (upsertStudent p w1)) = None /\
    data (fst (upsertStudent p w1)) = Some row /\
    s = mapStudentFromDB row /\
    snd (saveStudent student w) = snd (upsertStudent p w1).
Proof.
  intros Hn Hp. rewrite saveStudent_run, Hp.
  pose proof (upsert_retry_fails p w1) as Hretry.
  destruct (upsertStudent p w1) as [r w2]. cbn [fst snd] in *.
  destruct (error r) as [e|] eqn:Ee.
  - destruct (retried e) eqn:Hr.
    + destruct (Hretry e Hn eq_refl Hr) as [e' He'].
      destruct (upsertStudent (deleteNumber p) w2) as [r' w3].
      cbn [fst] in He'. rewrite He'. discriminate.
    + rewrite Ee. discriminate.
  - rewrite Ee. destruct (data r) as [row|]; [|discriminate].
    cbn [fst snd]. intros [= <-]. exists row. auto.
Qed.

Lemma mapStudent_number row n :
  StudentRow.unique_number row = Some n -> n <> 0 ->
  Student.uniqueId (mapStudentFromDB row) = Some n.
Proof.
  intros E Hn. cbn [mapStudentFromDB Student.uniqueId]. rewrite E.
  now destruct (Z.eqb_spec n 0).
Qed.

(** C9.  Let a student be saved into class [c] without a [uniqueId], the
    students recorded in [c] carrying positive sequence numbers.  The number
    put into the payload is one plus the largest [uniqueId] among those
    students (0 standing for the largest when none has one), and it is
    greater than every [uniqueId] in the class.  In a table that has the
    number column, the student a save returns carries that number; the save
    does return a student when the number fits the INTEGER column and the
    student is new, or has the id of at most one row; and it returns none
    when the number does not fit. *)
Theorem saveStudent_assigns_next_number
    (student : PartialStudent.t) (c : jstring) (d : Database) :
  PartialStudent.classId student = Some c ->
  CanonicalUuid c ->
  missingNumber (PartialStudent.uniqueId student) = true ->
  let existing := map mapStudentFromDB (rowsOfClass d c) in
  (forall u, In u (uniqueIdsOf existing) -> 0 < u) ->
  let next := maxOrZero (uniqueIdsOf existing) + 1 in
  Payload.unique_number (run (preparePayload student) d) = Some next /\
  (forall u, In u (uniqueIdsOf existing) -> u < next) /\
  (numbered d = true ->
   (forall s, run (saveStudent student) d = Some s ->
              Student.uniqueId s = Some next) /\
   (next <= INT4_MAX -> savable d student ->
    exists s, run (saveStudent student) d = Some s) /\
   (INT4_MAX < next -> run (saveStudent student) d = None)).
Proof.
  intros Hc Hu Hm existing Hpos next.
  apply uuidRegex_test_spec in Hu.
  assert (Hmax : maxUniqueNumber (rowsOfClass d c) + 1 = next).
  { unfold next, existing. now rewrite maxUniqueNumber_spec. }
  assert (Hbound : forall u, In u (uniqueIdsOf existing) -> u < next).
  { intros u Hin. apply maxOrZero_bound in Hin. unfold next. lia. }
  assert (Hnext : 0 < next).
  { unfold next. assert (0 <= maxOrZero (uniqueIdsOf existing)); [|lia].
    destruct (uniqueIdsOf existing) as [|x l] eqn:El; [simpl; lia|].
    assert (0 < x) by (apply Hpos; simpl; auto).
    assert (x <= maxOrZero (x :: l)) by (apply maxOrZero_bound; simpl; auto).
    lia. }
  pose proof (run_preparePayload student c (boot d) Hc Hu Hm) as Hp.
  cbn [db boot] in Hp. rewrite Hmax in Hp.
  set (p := withNumber (initialPayload student) (Some next)) in *.
  set (w1 := {| db := d; issued := _ |}) in *.
  split; [|split; [exact Hbound|intros Hn; split; [|split]]].
  - unfold run. now rewrite Hp.
  - intros s Hs.
    destruct (saveStudent_success student (boot d) p w1 s Hn Hp Hs)
      as (row & _ & Hd & -> & _).
    rewrite upsertStudent_run in Hd. cbn [fst] in Hd.
    apply mapStudent_number; [|lia].
    now rewrite (upsert_row_number p (db w1) row eq_refl Hd).
  - intros Hfit (Hid & _ & _).
    assert (Hr : refusal p d = None).
    { unfold refusal. rewrite Hn.
      cbn [p withNumber Payload.has_unique_number Payload.id Payload.class_id
           Payload.unique_number negb andb].
      assert (E1 : unreadable (Payload.id (initialPayload student)) = None).
      { destruct (Payload.id (initialPayload student)) as [i|]; [|reflexivity].
        destruct Hid as (u & Hi & _). cbn [unreadable]. now rewrite Hi. }
      rewrite E1. unfold initialPayload at 1. cbn [Payload.class_id].
      rewrite Hc. cbn [unreadable]. rewrite (uuid_in_canonical c Hu).
      unfold inInt4.
      destruct (Z.leb_spec (-2147483648) next); [|lia].
      destruct (Z.leb_spec next 2147483647); [reflexivity|].
      unfold INT4_MAX in Hfit. lia. }
    destruct (upsert_succeeds p d Hr) as [row Hrow].
    { cbn [p withNumber Payload.id]. intros u Hu'.
      destruct (Payload.id (initialPayload student)) as [i|]; [|discriminate].
      destruct Hid as (u' & Hi & Hlen). cbn [stored] in Hu'. congruence. }
    exists (mapStudentFromDB row).
    unfold run. rewrite saveStudent_run, Hp, upsertStudent_run.
    cbn [db w1]. rewrite Hrow. reflexivity.
  - intros Hover.
    unfold run. rewrite saveStudent_run, Hp.
    pose proof (upsert_retry_fails p w1) as Hretry.
    assert (Herr : exists e, error (fst (upsertStudent p w1)) = Some e).
    { rewrite upsertStudent_run. cbn [fst db w1].
      assert (Hr : exists e, refusal p d = Some e).
      { unfold refusal. rewrite Hn.
        cbn [p withNumber Payload.has_unique_number Payload.unique_number
             negb andb].
        destruct (unreadable _); [eauto|]. destruct (unreadable _); [eauto|].
        unfold inInt4.
        destruct (Z.leb_spec next 2147483647);
          [unfold INT4_MAX in Hover; lia|].
        rewrite andb_false_r. cbn [negb]. eauto. }
      destruct Hr as [e Hr]. rewrite (upsertRows_refused p d e Hr).
      cbn. eauto. }
    destruct Herr as [e He].
    destruct (upsertStudent p w1) as [r w2]. cbn [fst snd] in *.
    rewrite He. destruct (retried e) eqn:Hr.
    + destruct (Hretry e Hn He Hr) as [e' He'].
      destruct (upsertStudent (deleteNumber p) w2) as [r' w3].
      cbn [fst] in He'. now rewrite He'.
    + now rewrite He.
Qed.

(** ** The order of the classes, and the numeric guard, as the code has them *)

Lemma byNameLengthDesc_ordered d :
  StronglySorted (fun a b => byNameLengthDesc a b <= 0) (sortedClasses d).
Proof.
  apply sortBy_ordered; unfold byNameLengthDesc; intros; lia.
Qed.

(** The loop tries a class with a longer raw name before any class with a
    shorter one. *)
Lemma longer_raw_name_first d pre mid post c1 c2 :
  sortedClasses d = pre ++ c1 :: mid ++ c2 :: post ->
  (List.length (ClassGroup.name c2) <= List.length (ClassGroup.name c1))%nat.
Proof.
  intros E. pose proof (byNameLengthDesc_ordered d) as H. rewrite E in H.
  clear E. induction pre as [|x pre IH]; simpl in H.
  - apply StronglySorted_inv in H as [_ H]. rewrite Forall_forall in H.
    specialize (H c2). unfold byNameLengthDesc in H.
    assert (In c2 (mid ++ c2 :: post)) by (apply in_or_app; simpl; auto).
    specialize (H H0). lia.
  - apply StronglySorted_inv in H as [H _]. auto.
Qed.

(** A remainder of one to nine decimal digits takes the numeric branch. *)
Lemma digits_take_numeric_branch r :
  r <> [] -> forallb isDigit r = true -> (List.length r < 10)%nat ->
  isNumberRemainder r = true.
Proof.
  intros Hne Hall Hlen. destruct (digits_numeric r Hne Hall) as [Hnan _].
  unfold isNumberRemainder. rewrite Hnan.
  assert (0 < List.length r)%nat by (destruct r; [congruence | simpl; lia]).
  apply andb_true_iff. split; [apply Z.ltb_lt | apply Z.ltb_lt]; lia.
Qed.

(** ** The program run on concrete stores *)

Example dotted_I_resolves :
  run (resolve dottedI12) classI =
    (Some (mapStudentFromDB (ann 12)),
     Some (mapClassFromDB (classRow uuid1 "I" 1))) /\
  run (resolve (toLowerCase dottedI12)) classI = (None, None) /\
  cleanRemainderOf dottedI12 (str "i") = str "12" /\
  cleanRemainderOf (toLowerCase dottedI12) (str "i") = DotAbove :: str "12".
Proof. repeat split. Qed.


(** C1.  The code at an input where the clean name "grade1" of the first
    class is a strict prefix of the clean name "grade12" of the second, the
    token "grade123" starts with "grade12" and the second class yields a
    student for it: the loop tries the first class first, because its raw
    name is the longer one, and resolves against it; the student directory
    of the second class is never fetched. *)
Theorem shorter_clean_name_tried_first :
  cleanName (mapClassFromDB gradeDash1) = str "grade1" /\
  cleanName (mapClassFromDB grade12) = str "grade12" /\
  startsWith (toLowerCase (str "grade123")) (str "grade12") = true /\
  run (tryClass codeUnitCompare codeUnitCompare (str "grade123")
         (mapClassFromDB grade12)) dashedGrades = Some (mapStudentFromDB (bob 3)) /\
  sortedClasses dashedGrades = [mapClassFromDB gradeDash1; mapClassFromDB grade12] /\
  run (resolve (str "grade123")) dashedGrades =
    (Some (mapStudentFromDB (ann 23)), Some (mapClassFromDB gradeDash1)) /\
  requests (resolve (str "grade123")) dashedGrades =
    [SelectClasses; SelectStudentsByName (str uuid1)].
Proof. vm_compute. repeat split. Qed.

(** C2.  The code at remainders that are not strings of decimal digits:
    the guard of the numeric branch accepts an exponent, a hexadecimal
    literal, signs, decimal points and "Infinity"; for the token "math1e3"
    the student directory of the class is fetched and the student with
    sequence number 1 is returned. *)
Theorem numeric_branch_taken_for_non_digits :
  map (fun r => isNumberRemainder (str r))
      ["1e3"; "0x1F"; "-5"; "+5"; "1.5"; ".5"; "Infinity"]%string =
    [true; true; true; true; true; true; true] /\
  map (fun r => forallb isDigit (str r))
      ["1e3"; "0x1F"; "-5"; "+5"; "1.5"; ".5"; "Infinity"]%string =
    [false; false; false; false; false; false; false] /\
  cleanRemainderOf (str "math1e3") (cleanName (mapClassFromDB math)) = str "1e3" /\
  parseInt (str "1e3") = Some 1 /\
  requests (resolve (str "math1e3")) mathClass =
    [SelectClasses; SelectStudentsByName (str uuid1)] /\
  run (resolve (str "math1e3")) mathClass =
    (Some (mapStudentFromDB (ann 1)), Some (mapClassFromDB math)).
Proof. vm_compute. repeat split. Qed.

(** C3 as stated fails: the resolver returns Ann of "Grade 1" for the token
    "grade1_23", her display identifier is "Grade123", and that resolves to
    Bob of "Grade 12". *)
Lemma display_id_round_trip_fails :
  ~ (forall (d : Database) (token : jstring) (s : Student.t) (cls : ClassGroup.t),
       run (resolve token) d = (Some s, Some cls) ->
       run (resolve (getFullDisplayId (Some s) (Some cls))) d = (Some s, Some cls)).
Proof.
  intros H.
  specialize (H twoGrades (str "grade1_23") (mapStudentFromDB (ann 23))
                (mapClassFromDB grade1) eq_refl).
  vm_compute in H. discriminate.
Qed.


(** C7 as stated fails: with classes "5th Grade" and "5th Grade 1", the
    token "5thGrade_12" resolves to number 12 of the first class and
    "5thGrade12" to number 2 of the second. *)
Lemma underscore_changes_outcome :
  ~ (forall (d : Database) (P R : jstring) (cls : ClassGroup.t),
       In cls (run getClasses d) ->
       cleanName cls = toLowerCase P ->
       startsWith R (str "_") = false ->
       run (resolve (P ++ Latin "_" :: R)) d = run (resolve (P ++ R)) d).
Proof.
  intros H.
  specialize (H twoFifths (str "5thGrade") (str "12") (mapClassFromDB fifth)).
  assert (E : run (resolve (str "5thGrade" ++ Latin "_" :: str "12")) twoFifths =
              run (resolve (str "5thGrade" ++ str "12")) twoFifths).
  { apply H; [left; reflexivity | reflexivity | reflexivity]. }
  vm_compute in E. discriminate.
Qed.

(** ** Instances *)

Lemma codeUnitCompare_total a b :
  0 < codeUnitCompare a b -> codeUnitCompare b a <= 0.
Proof.
  revert b. induction a as [|x a IH]; intros [|y b]; simpl; try lia.
  rewrite (Z.eqb_sym (code y) (code x)).
  destruct (Z.eqb_spec (code x) (code y)); [apply IH | lia].
Qed.

Lemma codeUnitCompare_trans a b c :
  codeUnitCompare a b <= 0 -> codeUnitCompare b c <= 0 ->
  codeUnitCompare a c <= 0.
Proof.
  revert b c. induction a as [|x a IH]; intros [|y b] [|z c]; simpl; try lia.
  destruct (Z.eqb_spec (code x) (code y)), (Z.eqb_spec (code y) (code z)),
    (Z.eqb_spec (code x) (code z)); try lia. apply IH.
Qed.

Lemma getStudent_malformed_id_not_found_witness :
  ~ CanonicalUuid (str "5thGrade12") /\
  getStudent (str "5thGrade12") (boot school) = (None, boot school).
Proof.
  assert (H : ~ CanonicalUuid (str "5thGrade12")).
  { intros H. apply uuidRegex_test_spec in H. vm_compute in H. discriminate. }
  split; [exact H|].
  exact (getStudent_malformed_id_not_found (str "5thGrade12") (boot school) H).
Defined.

Lemma failed_prefix_match_continues_witness :
  let id := str "5thGradeXYZ" in
  let cls := mapClassFromDB fifth in
  let later :=
    run (scanClasses codeUnitCompare codeUnitCompare id (toLowerCase id)
           [mapClassFromDB grade12]) school in
  startsWith (toLowerCase id) (cleanName cls) = true /\
  run (scanClasses codeUnitCompare codeUnitCompare id (toLowerCase id)
         (sortedClasses school)) school = later /\
  (fst later = None ->
   fst (run (fetchData codeUnitCompare codeUnitCompare id) school) =
   run (getStudent id) school) /\
  (fst (run (fetchData codeUnitCompare codeUnitCompare id) school) = None <->
   fst later = None /\ run (getStudent id) school = None).
Proof.
  intros id cls later. split; [reflexivity|].
  apply (failed_prefix_match_continues codeUnitCompare codeUnitCompare id school
           [] [mapClassFromDB grade12] cls).
  - discriminate.
  - reflexivity.
  - reflexivity.
  - reflexivity.
  - reflexivity.
  - reflexivity.
Defined.

Lemma primaryKey_school : primaryKey school.
Proof.
  unfold primaryKey. vm_compute.
  constructor; [intros [H|[]]; discriminate|].
  constructor; [intros []|constructor].
Qed.

Lemma bare_uuid_resolves_by_fallback_witness :
  let id := str "AAAAAAAA-aaaa-AAAA-aaaa-aaaaaaaaaaaa" in
  CanonicalUuid id /\
  run (scanClasses codeUnitCompare codeUnitCompare id (toLowerCase id)
         (sortedClasses school)) school = (None, None) /\
  run (getStudent id) school = Some (mapStudentFromDB (ann 12)) /\
  fst (run (fetchData codeUnitCompare codeUnitCompare id) school) =
    Some (mapStudentFromDB (ann 12)).
Proof.
  intros id.
  assert (H : CanonicalUuid id) by (apply uuidRegex_test_spec; reflexivity).
  split; [exact H|].
  apply (bare_uuid_resolves_by_fallback codeUnitCompare codeUnitCompare id
           school (ann 12) H).
  - intros c [<-|[<-|[]]]; reflexivity.
  - exact primaryKey_school.
  - left. reflexivity.
  - reflexivity.
Defined.


Lemma underscore_separator_is_dropped_witness :
  run (fetchData codeUnitCompare codeUnitCompare (str "5thGrade_12")) school =
  run (fetchData codeUnitCompare codeUnitCompare (str "5thGrade12")) school /\
  run (fetchData codeUnitCompare codeUnitCompare (str "5thGrade_12")) school =
  (Some (mapStudentFromDB (ann 12)), Some (mapClassFromDB fifth)).
Proof.
  split; [|reflexivity].
  apply (underscore_separator_is_dropped codeUnitCompare codeUnitCompare
           (str "5thGrade") (str "12") school).
  - intros c [<-|[<-|[]]] H; [reflexivity | vm_compute in H; discriminate].
  - reflexivity.
  - reflexivity.
Defined.

Lemma display_id_resolves_back_witness :
  getFullDisplayId (Some (mapStudentFromDB (ann 12)))
                   (Some (mapClassFromDB fifth)) = str "5thGrade12" /\
  run (fetchData codeUnitCompare codeUnitCompare
         (getFullDisplayId (Some (mapStudentFromDB (ann 12)))
                           (Some (mapClassFromDB fifth)))) school =
  (Some (mapStudentFromDB (ann 12)), Some (mapClassFromDB fifth)).
Proof.
  split; [reflexivity|].
  apply (display_id_resolves_back codeUnitCompare codeUnitCompare school
           (mapStudentFromDB (ann 12)) (mapClassFromDB fifth)).
  - left. reflexivity.
  - left. reflexivity.
  - intros c [<-|[<-|[]]] H; [reflexivity | vm_compute in H; discriminate].
  - split; [lia|]. intros s' [<-|[]] _. reflexivity.
Defined.

Lemma saveStudent_assigns_next_number_witness :
  Payload.unique_number (run (preparePayload newcomer) classOfTwo) = Some 3 /\
  (forall u, In u (uniqueIdsOf (map mapStudentFromDB
                                    (rowsOfClass classOfTwo (str uuid1)))) ->
             u < 3) /\
  (forall s, run (saveStudent newcomer) classOfTwo = Some s ->
             Student.uniqueId s = Some 3) /\
  (exists s, run (saveStudent newcomer) classOfTwo = Some s).
Proof.
  destruct (saveStudent_assigns_next_number newcomer (str uuid1) classOfTwo)
    as (H1 & H2 & H3).
  - reflexivity.
  - apply uuidRegex_test_spec. reflexivity.
  - reflexivity.
  - intros u [<-|[<-|[]]]; lia.
  - destruct (H3 eq_refl) as (H4 & H5 & _).
    split; [exact H1|]. split; [exact H2|]. split; [exact H4|].
    apply H5; [vm_compute; discriminate|].
    split; [exact I|]. split; [discriminate|].
    exists (str uuid1), (str uuid1), fifth.
    repeat split; try reflexivity. left. reflexivity.
Defined.

Lemma getStudents_sorted_witness :
  StronglySorted (studentOrder codeUnitCompare)
    (fst (getStudents codeUnitCompare codeUnitCompare (str uuid1)
            (boot classOfTwo))).
Proof.
  apply (getStudents_sorted codeUnitCompare codeUnitCompare (str uuid1)
           (boot classOfTwo)).
  - exact codeUnitCompare_total.
  - exact codeUnitCompare_trans.
  - intros r u [<-|[<-|[]]] [= <-]; unfold INT4_MAX; lia.
Defined.

(** * Further properties *)

(** ** Reading classes and students *)

Lemma run_getStudents lc pg classId d :
  run (getStudents lc pg classId) d =
  match uuid_in classId with
  | Some u =>
      sortBy (byUniqueIdThenName lc)
        (map mapStudentFromDB
           (sortBy (fun a b => nullsLast pg (StudentRow.name a) (StudentRow.name b))
                   (rowsOfClass d u)))
  | None => []
  end.
Proof.
  unfold run, getStudents, bind, ask, eqUuid, rowsOfClass. cbn [db boot].
  destruct (uuid_in classId); reflexivity.
Qed.

(** X1.  For a class id that the store reads as a uuid, [getStudents]
    returns the students of exactly the rows of that class, each once:
    nobody is lost, doubled or taken from another class.  A class id in
    canonical form is read as itself.  For text that the store does not
    read as a uuid it returns the empty list. *)
Theorem getStudents_lists_the_class
    (lc pg : jstring -> jstring -> Z) (classId : jstring) (d : Database) :
  (forall u, uuid_in classId = Some u ->
   Permutation (run (getStudents lc pg classId) d)
               (map mapStudentFromDB (rowsOfClass d u))) /\
  (CanonicalUuid classId ->
   Permutation (run (getStudents lc pg classId) d)
               (map mapStudentFromDB (rowsOfClass d classId))) /\
  (uuid_in classId = None -> run (getStudents lc pg classId) d = []).
Proof.
  rewrite run_getStudents. split; [|split].
  - intros u ->. rewrite sortBy_perm. apply Permutation_map, sortBy_perm.
  - intros H. apply uuidRegex_test_spec in H.
    rewrite (uuid_in_canonical _ H), rowsOfClass_lower.
    rewrite sortBy_perm. apply Permutation_map, sortBy_perm.
  - now intros ->.
Qed.

(** X2.  [getClasses] returns every row of the class table once, mapped,
    with the oldest [created_at] first. *)
Theorem getClasses_oldest_first (d : Database) :
  exists rows,
    run getClasses d = map mapClassFromDB rows /\
    Permutation rows (classes d) /\
    StronglySorted (fun a b => ClassRow.created_at a <= ClassRow.created_at b)
                   rows.
Proof.
  eexists. split; [apply run_getClasses|]. split; [apply sortBy_perm|].
  eapply StronglySorted_weaken; [|apply sortBy_ordered].
  - intros a b _ _ H. cbv beta in H. lia.
  - intros; lia.
  - intros; lia.
Qed.

Lemma run_getClass id d :
  run (getClass id) d =
  match uuid_in id with
  | Some u =>
      match filter (fun c => uuidEq (ClassRow.id c) u) (classes d) with
      | [row] => Some (mapClassFromDB row)
      | _ => None
      end
  | None => None
  end.
Proof.
  unfold run, getClass, bind, ask, eqUuid. cbn [db boot].
  destruct (uuid_in id) as [u|]; [|reflexivity].
  unfold maybeSingle, succeed. cbn [error data optUuidEq fst].
  destruct (filter _ (classes d)) as [|x [|y l]]; reflexivity.
Qed.

Lemma run_getClass_canonical id d :
  uuidRegex_test id = true ->
  run (getClass id) d =
  match filter (fun c => uuidEq (ClassRow.id c) id) (classes d) with
  | [row] => Some (mapClassFromDB row)
  | _ => None
  end.
Proof.
  intros H. rewrite run_getClass, (uuid_in_canonical id H).
  replace (filter (fun c => uuidEq (ClassRow.id c) (toLowerCase id)) (classes d))
    with (filter (fun c => uuidEq (ClassRow.id c) id) (classes d));
    [reflexivity|].
  apply filter_ext. intros r. symmetry. apply uuidEq_lower_r.
Qed.

(** X3.  In a class table keyed by id, [getClass] on a uuid returns a class
    exactly when a row carries that id, whatever the case of the letters,
    and then it returns that row's class. *)
Theorem getClass_finds_the_row (id : jstring) (d : Database) (c : ClassGroup.t) :
  NoDup (map (fun r => toLowerCase (ClassRow.id r)) (classes d)) ->
  CanonicalUuid id ->
  (run (getClass id) d = Some c <->
   exists row, In row (classes d) /\ uuidEq (ClassRow.id row) id = true /\
               c = mapClassFromDB row).
Proof.
  intros Hnd Hu. apply uuidRegex_test_spec in Hu.
  rewrite (run_getClass_canonical id d Hu). split.
  - destruct (filter _ (classes d)) as [|x [|y l]] eqn:Hf; try discriminate.
    intros [= <-]. exists x.
    assert (Hx : In x (filter (fun c => uuidEq (ClassRow.id c) id) (classes d)))
      by (rewrite Hf; simpl; auto).
    apply filter_In in Hx as [Hin Heq]. auto.
  - intros (row & Hin & Heq & ->).
    rewrite (filter_single (fun r => toLowerCase (ClassRow.id r)) _ _ row); auto.
    intros y _ Hy. apply uuidEq_iff in Hy. apply uuidEq_iff in Heq. congruence.
Qed.

(** ** Deleting a student *)

Lemma deleteStudent_run id w :
  deleteStudent id w =
  match uuid_in id with
  | Some u =>
      (true, {| db := withStudents (db w)
                        (filter (fun r => negb (uuidEq (StudentRow.id r) u))
                                (students (db w)))
                        (minted (db w));
                issued := issued w |})
  | None => (false, {| db := db w; issued := issued w |})
  end.
Proof.
  unfold deleteStudent, bind, act, deleteRows.
  destruct (uuid_in id); reflexivity.
Qed.

Lemma deleteStudent_canonical id w :
  uuidRegex_test id = true ->
  deleteStudent id w =
  (true, {| db := withStudents (db w)
                    (filter (fun r => negb (uuidEq (StudentRow.id r) id))
                            (students (db w)))
                    (minted (db w));
            issued := issued w |}).
Proof.
  intros H. rewrite deleteStudent_run, (uuid_in_canonical id H).
  do 3 f_equal. apply filter_ext. intros r. now rewrite uuidEq_lower_r.
Qed.

Lemma fst_getStudent id w : fst (getStudent id w) = run (getStudent id) (db w).
Proof. now destruct (readOnly_getStudent id w). Qed.

(** X4.  After [deleteStudent] on a uuid, which returns [true], [getStudent]
    finds nobody under that id; the lookup of every other id gives what it
    gave before, and the class table is as it was. *)
Theorem deleteStudent_then_getStudent (id : jstring) (w : World) :
  CanonicalUuid id ->
  let w' := snd (deleteStudent id w) in
  fst (deleteStudent id w) = true /\
  fst (getStudent id w') = None /\
  (forall j, toLowerCase j <> toLowerCase id ->
             fst (getStudent j w') = fst (getStudent j w)) /\
  classes (db w') = classes (db w).
Proof.
  intros Hu w'. apply uuidRegex_test_spec in Hu.
  unfold w'. rewrite (deleteStudent_canonical id w Hu). cbn [fst snd].
  split; [reflexivity|]. rewrite !fst_getStudent. cbn [db].
  split; [|split; [|reflexivity]].
  - rewrite run_getStudent. unfold isValidUUID, studentRowsWithId. rewrite Hu.
    cbn [students withStudents optUuidEq].
    replace (filter _ (filter _ (students (db w)))) with (@nil StudentRow.t);
      [reflexivity|].
    symmetry. induction (students (db w)) as [|r l IH]; [reflexivity|].
    cbn [filter]. destruct (uuidEq (StudentRow.id r) id) eqn:E; cbn [negb].
    + exact IH.
    + cbn [filter]. rewrite E. exact IH.
  - intros j Hj. rewrite !fst_getStudent, !run_getStudent.
    destruct (isValidUUID j); [|reflexivity].
    unfold studentRowsWithId. cbn [db students withStudents optUuidEq].
    replace (filter (fun r => uuidEq (StudentRow.id r) j)
               (filter (fun r => negb (uuidEq (StudentRow.id r) id))
                       (students (db w))))
      with (filter (fun r => uuidEq (StudentRow.id r) j) (students (db w)));
      [reflexivity|].
    induction (students (db w)) as [|r l IH]; [reflexivity|].
    cbn [filter]. destruct (uuidEq (StudentRow.id r) id) eqn:E; cbn [negb].
    + destruct (uuidEq (StudentRow.id r) j) eqn:E'; [|exact IH].
      exfalso. apply uuidEq_iff in E, E'. congruence.
    + cbn [filter]. now rewrite IH.
Qed.

(** X5.  [deleteStudent] on text that the store does not read as a uuid
    returns [false] and leaves every row where it is. *)
Theorem deleteStudent_malformed_id (id : jstring) (w : World) :
  uuid_in id = None ->
  fst (deleteStudent id w) = false /\ db (snd (deleteStudent id w)) = db w.
Proof.
  intros H. rewrite deleteStudent_run, H. split; reflexivity.
Qed.

(** ** Saving a student *)

Lemma missingNumber_false x :
  missingNumber x = false -> exists n, x = Some n /\ n <> 0.
Proof.
  destruct x as [n|]; [|discriminate]. simpl. intros H.
  exists n. split; [reflexivity|]. intros ->. discriminate.
Qed.

(** X6.  A student that comes with a sequence number keeps it: no rows are
    read to compute another one, and in a table that has the number column
    the student a save returns carries the number given. *)
Theorem saveStudent_keeps_given_number (student : PartialStudent.t) (w : World) :
  missingNumber (PartialStudent.uniqueId student) = false ->
  preparePayload student w = (initialPayload student, w) /\
  (numbered (db w) = true ->
   forall s, fst (saveStudent student w) = Some s ->
             Student.uniqueId s = PartialStudent.uniqueId student).
Proof.
  intros Hm.
  assert (Hp : preparePayload student w = (initialPayload student, w)).
  { unfold preparePayload. cbv zeta. unfold initialPayload at 1.
    cbn [Payload.unique_number]. now rewrite Hm. }
  split; [exact Hp|]. intros Hn s Hs.
  destruct (saveStudent_success student w _ _ s Hn Hp Hs)
    as (row & _ & Hd & -> & _).
  destruct (missingNumber_false _ Hm) as (n & Hnum & Hn0).
  rewrite upsertStudent_run in Hd. cbn [fst] in Hd.
  rewrite Hnum. apply mapStudent_number; [|exact Hn0].
  rewrite (upsert_row_number (initialPayload student) (db w) row eq_refl Hd).
  exact Hnum.
Qed.

Lemma preparePayload_facts student w :
  db (snd (preparePayload student w)) = db w /\
  Payload.id (fst (preparePayload student w)) = Payload.id (initialPayload student) /\
  Payload.class_id (fst (preparePayload student w)) =
    PartialStudent.classId student.
Proof.
  unfold preparePayload. cbv zeta.
  destruct (missingNumber _); [|repeat split; reflexivity].
  unfold bind, ask. cbn [fst snd].
  destruct (error _); [repeat split; reflexivity|].
  destruct (data _); repeat split; reflexivity.
Qed.

(** A payload whose class the store cannot read is refused, with or
    without its number. *)
Lemma unreadable_class_refused p d c :
  Payload.class_id p = Some c -> uuid_in c = None ->
  (exists e, refusal p d = Some e) /\
  (exists e, refusal (deleteNumber p) d = Some e).
Proof.
  intros Hc Hu. unfold refusal.
  cbn [deleteNumber Payload.id Payload.class_id Payload.has_unique_number
       Payload.unique_number andb].
  rewrite Hc. cbn [unreadable]. rewrite Hu.
  split.
  - destruct (Payload.has_unique_number p && negb (numbered d)); [eauto|].
    destruct (unreadable (Payload.id p)); eauto.
  - destruct (unreadable (Payload.id p)); eauto.
Qed.

(** X7.  When the student's class is missing, or is text that the store
    does not read as a uuid, the rows of the class cannot be read and no
    number is computed: the payload is the object literal the function
    started from.  With a class that the store does not read nothing is
    saved: [saveStudent] returns [null] and the tables are as they were. *)
Theorem saveStudent_unreadable_class (student : PartialStudent.t) (w : World) :
  match PartialStudent.classId student with
  | Some c => uuid_in c = None
  | None => True
  end ->
  fst (preparePayload student w) = initialPayload student /\
  (PartialStudent.classId student <> None ->
   fst (saveStudent student w) = None /\
   db (snd (saveStudent student w)) = db w).
Proof.
  intros H.
  assert (Hp : fst (preparePayload student w) = initialPayload student).
  { unfold preparePayload. cbv zeta.
    destruct (missingNumber (Payload.unique_number (initialPayload student)));
      [|reflexivity].
    unfold bind, ask, eqUuid.
    destruct (PartialStudent.classId student) as [c|]; [|reflexivity].
    now rewrite H. }
  split; [exact Hp|]. intros Hc.
  destruct (PartialStudent.classId student) as [c|] eqn:Ec; [|congruence].
  destruct (preparePayload_facts student w) as (Hdb & _ & Hcl).
  rewrite saveStudent_run.
  destruct (preparePayload student w) as [p w1]. cbn [fst snd] in *.
  rewrite Ec in Hcl.
  destruct (unreadable_class_refused p (db w1) c Hcl H) as [[e He] [e' He']].
  rewrite !upsertStudent_run. cbn [fst snd db].
  rewrite (upsertRows_refused p _ e He). cbn [fst snd refuse maybeSingle error].
  destruct (retried e).
  - rewrite (upsertRows_refused _ _ e' He').
    cbn [fst snd refuse maybeSingle error db]. auto.
  - cbn [fst snd error db]. auto.
Qed.

Lemma uuidEq_refl a : uuidEq a a = true.
Proof. now apply uuidEq_iff. Qed.

Lemma uuidEq_trans_l a b c :
  uuidEq a b = true -> uuidEq c a = uuidEq c b.
Proof. intros H. apply uuidEq_iff in H. unfold uuidEq. now rewrite H. Qed.

(** What is the same uuid as text in canonical form is text in canonical
    form. *)
Lemma uuidEq_canonical a u :
  uuidRegex_test u = true -> uuidEq a u = true -> uuidRegex_test a = true.
Proof.
  intros Hu H. apply uuidEq_iff in H.
  rewrite (toLowerCase_plain u (uuidRegex_test_plain u Hu)) in H.
  destruct (plain_dec a) as [Ha|Ha].
  - exfalso. apply toLowerCase_dot in Ha. rewrite H in Ha.
    apply in_map_iff in Ha as [c [Hc Hin]]. apply lowerChar_dot in Hc. subst c.
    apply uuidRegex_test_chars in Hu. rewrite forallb_forall in Hu.
    specialize (Hu _ Hin). discriminate.
  - rewrite (toLowerCase_plain a Ha) in H.
    now rewrite <- (uuidRegex_test_lower a), H, uuidRegex_test_lower.
Qed.

Lemma filter_none {A} (p : A -> bool) l : existsb p l = false -> filter p l = [].
Proof.
  induction l as [|x l IH]; [reflexivity|]. simpl.
  destruct (p x); [discriminate | exact IH].
Qed.

(** An upsert that is not refused has an id the store reads, or none. *)
Lemma accepted_id p d :
  refusal p d = None ->
  match Payload.id p with
  | Some i => exists u, uuid_in i = Some u /\ stored (Payload.id p) = Some u
  | None => stored (Payload.id p) = None
  end.
Proof.
  unfold refusal.
  destruct (Payload.has_unique_number p && negb (numbered d)); [discriminate|].
  destruct (Payload.id p) as [i|]; [|reflexivity].
  cbn [unreadable stored].
  destruct (uuid_in i) as [u|]; [eauto | discriminate].
Qed.

(** The row an upsert writes is, afterwards, the one row under its id. *)
Lemma upsert_row_is_stored p d row :
  (Payload.id p = None -> freshMint d) ->
  error (maybeSingle (fst (upsertRows p d))) = None ->
  data (maybeSingle (fst (upsertRows p d))) = Some row ->
  uuidRegex_test (StudentRow.id row) = true /\
  studentRowsWithId (snd (upsertRows p d)) (StudentRow.id row) = [row].
Proof.
  intros Hfresh. unfold upsertRows, studentRowsWithId.
  destruct (refusal p d) eqn:Hr; [discriminate|].
  pose proof (accepted_id p d Hr) as Hid.
  destruct (Payload.id p) as [i|].
  - destruct Hid as (u & Hi & ->).
    destruct (uuid_in_sound i u Hi) as [Hu Hl].
    destruct (hasStudent d u) eqn:Hh.
    + cbn [fst snd students withStudents maybeSingle succeed error data].
      destruct (filter _ (students d)) as [|x [|y l]] eqn:Hf;
        cbn [map]; try discriminate.
      intros _ [= <-].
      assert (Hx : uuidEq (StudentRow.id x) u = true).
      { assert (Hin : In x (filter (fun r => uuidEq (StudentRow.id r) u)
                                   (students d)))
          by (rewrite Hf; simpl; auto).
        now apply filter_In in Hin. }
      rewrite Hx. cbn [mergeRow StudentRow.id optUuidEq].
      split; [exact (uuidEq_canonical _ _ Hu Hx)|].
      assert (Hgen : forall l0,
        filter (fun r => uuidEq (StudentRow.id r) (StudentRow.id x))
               (map (fun r => if uuidEq (StudentRow.id r) u
                              then mergeRow r p else r) l0) =
        map (fun r => mergeRow r p)
            (filter (fun r => uuidEq (StudentRow.id r) u) l0)).
      { induction l0 as [|r l0 IH]; [reflexivity|].
        cbn [map filter].
        destruct (uuidEq (StudentRow.id r) u) eqn:Er.
        - cbn [mergeRow StudentRow.id].
          rewrite (uuidEq_trans_l _ _ (StudentRow.id r) Hx), Er.
          cbn [map]. now rewrite IH.
        - rewrite (uuidEq_trans_l _ _ (StudentRow.id r) Hx), Er. exact IH. }
      rewrite Hgen, Hf. reflexivity.
    + cbn [fst snd students withStudents maybeSingle succeed error data].
      intros _ [= <-]. cbn [newRow StudentRow.id optUuidEq].
      split; [exact Hu|].
      rewrite filter_app. cbn [filter]. rewrite uuidEq_refl.
      rewrite filter_none; [reflexivity | exact Hh].
  - rewrite Hid. destruct (Hfresh eq_refl) as [Hv Hh].
    cbn [fst snd students withStudents maybeSingle succeed error data].
    intros _ [= <-]. cbn [newRow StudentRow.id optUuidEq].
    split; [exact Hv|].
    rewrite filter_app. cbn [filter]. rewrite uuidEq_refl.
    rewrite filter_none; [reflexivity | exact Hh].
Qed.

(** A save that returns a student has written it with one upsert, the
    first or the one that follows a refusal of the first, on the tables as
    they were. *)
Lemma saveStudent_written student w s :
  fst (saveStudent student w) = Some s ->
  exists q row,
    Payload.id q = Payload.id (initialPayload student) /\
    error (maybeSingle (fst (upsertRows q (db w)))) = None /\
    data (maybeSingle (fst (upsertRows q (db w)))) = Some row /\
    s = mapStudentFromDB row /\
    db (snd (saveStudent student w)) = snd (upsertRows q (db w)).
Proof.
  destruct (preparePayload_facts student w) as (Hdb & Hid & _).
  rewrite saveStudent_run.
  destruct (preparePayload student w) as [p w1]. cbn [fst snd] in Hdb, Hid.
  rewrite !upsertStudent_run. cbn [fst snd db]. rewrite Hdb.
  destruct (error (maybeSingle (fst (upsertRows p (db w))))) as [e|] eqn:Ee.
  - destruct (retried e) eqn:Hr; [|rewrite Ee; discriminate].
    destruct (upsert_error p (db w) e Ee) as [H|[_ H]]; [|congruence].
    rewrite (upsertRows_refused p _ e H). cbn [snd].
    destruct (error (maybeSingle (fst (upsertRows (deleteNumber p) (db w)))))
      eqn:Ee'; [discriminate|].
    destruct (data (maybeSingle (fst (upsertRows (deleteNumber p) (db w)))))
      as [row|] eqn:Ed; [|discriminate].
    intros [= <-]. exists (deleteNumber p), row. auto.
  - rewrite Ee.
    destruct (data (maybeSingle (fst (upsertRows p (db w))))) as [row|] eqn:Ed;
      [|discriminate].
    intros [= <-]. exists p, row. auto.
Qed.

(** X8.  What [saveStudent] returns can be looked up: in the world after a
    successful save, [getStudent] on the id of the returned student returns
    that same student.  (For a student without a usable id the store mints
    one, which has to be fresh.) *)
Theorem saved_student_is_found (student : PartialStudent.t) (w : World)
    (s : Student.t) :
  (Payload.id (initialPayload student) = None -> freshMint (db w)) ->
  fst (saveStudent student w) = Some s ->
  fst (getStudent (Student.id s) (snd (saveStudent student w))) = Some s.
Proof.
  intros Hfresh Hs.
  destruct (saveStudent_written student w s Hs) as (q & row & Hid & He & Hd & -> & Hw).
  destruct (upsert_row_is_stored q (db w) row) as [Hv Hrows]; auto.
  { rewrite Hid. exact Hfresh. }
  rewrite fst_getStudent, run_getStudent, Hw.
  unfold isValidUUID. cbn [mapStudentFromDB Student.id].
  now rewrite Hv, Hrows.
Qed.

Lemma upsertRows_keeps p d r :
  In r (students d) ->
  (forall u, stored (Payload.id p) = Some u ->
             uuidEq (StudentRow.id r) u = false) ->
  In r (students (snd (upsertRows p d))) /\
  classes (snd (upsertRows p d)) = classes d.
Proof.
  intros Hin Hne. unfold upsertRows.
  destruct (refusal p d); [auto|].
  destruct (stored (Payload.id p)) as [u|].
  - specialize (Hne u eq_refl).
    destruct (hasStudent d u); cbn [snd students classes withStudents].
    + split; [|reflexivity]. apply in_map_iff. exists r. now rewrite Hne.
    + split; [|reflexivity]. apply in_or_app. auto.
  - cbn [snd students classes withStudents]. split; [|reflexivity].
    apply in_or_app. auto.
Qed.

(** The world after a save is the one after its first upsert, or after
    the second when there was one. *)
Lemma saveStudent_world student w :
  let p := fst (preparePayload student w) in
  let w1 := snd (preparePayload student w) in
  snd (saveStudent student w) = snd (upsertStudent p w1) \/
  snd (saveStudent student w) =
    snd (upsertStudent (deleteNumber p) (snd (upsertStudent p w1))).
Proof.
  rewrite saveStudent_run.
  destruct (preparePayload student w) as [p w1]. cbn [fst snd].
  destruct (upsertStudent p w1) as [r w2]. cbn [fst snd].
  destruct (error r) as [e|] eqn:Ee; [|now left].
  destruct (retried e); [|now left].
  right. now destruct (upsertStudent (deleteNumber p) w2).
Qed.

(** X9.  [saveStudent] writes under one id only: every row whose id is not
    the uuid that the store reads from the id of the student being saved is
    in the table afterwards, unchanged, whether the save succeeds or not,
    and the class table is as it was. *)
Theorem saveStudent_leaves_other_rows (student : PartialStudent.t) (w : World)
    (r : StudentRow.t) :
  In r (students (db w)) ->
  (forall i u, Payload.id (initialPayload student) = Some i ->
               uuid_in i = Some u -> uuidEq (StudentRow.id r) u = false) ->
  In r (students (db (snd (saveStudent student w)))) /\
  classes (db (snd (saveStudent student w))) = classes (db w).
Proof.
  intros Hin Hne.
  destruct (preparePayload_facts student w) as (Hdb & Hid & _).
  pose proof (saveStudent_world student w) as Hw. cbv zeta in Hw.
  set (p := fst (preparePayload student w)) in *.
  set (w1 := snd (preparePayload student w)) in *.
  rewrite !upsertStudent_run in Hw. cbn [snd db] in Hw.
  assert (Hne' : forall u, stored (Payload.id p) = Some u ->
                           uuidEq (StudentRow.id r) u = false).
  { intros u Hu. rewrite Hid in Hu.
    destruct (Payload.id (initialPayload student)) as [i|]; [|discriminate].
    exact (Hne i u eq_refl Hu). }
  assert (H1 := upsertRows_keeps p (db w1) r).
  rewrite Hdb in H1. specialize (H1 Hin Hne'). rewrite Hdb in Hw.
  set (d2 := snd (upsertRows p (db w))) in *.
  assert (H2 := upsertRows_keeps (deleteNumber p) d2 r (proj1 H1) Hne').
  destruct H1 as [H1 H1c]. destruct H2 as [H2 H2c].
  destruct Hw as [-> | ->]; cbn [db]; split; congruence || assumption.
Qed.

Lemma maxUniqueNumber_nonneg rows : 0 <= maxUniqueNumber rows.
Proof.
  unfold maxUniqueNumber.
  rewrite (fold_left_max (fun r => numberOrZero (StudentRow.unique_number r))).
  induction rows as [|r rows IH]; simpl; lia.
Qed.

Lemma maxUniqueNumber_snoc rows r :
  maxUniqueNumber (rows ++ [r]) =
  Z.max (maxUniqueNumber rows) (numberOrZero (StudentRow.unique_number r)).
Proof.
  unfold maxUniqueNumber. rewrite fold_left_app. cbn [fold_left].
  destruct (Z.gtb_spec (numberOrZero (StudentRow.unique_number r))
              (fold_left (fun max curr =>
                 if numberOrZero (StudentRow.unique_number curr) >? max
                 then numberOrZero (StudentRow.unique_number curr) else max)
                 rows 0)); lia.
Qed.

(** The save of a new student into a table with the number column,
    computed: the rows of the class are read, the number after the highest,
    which fits the column, goes into the payload, and one row with a minted
    id is appended. *)
Lemma saveStudent_new student c w :
  PartialStudent.classId student = Some c ->
  uuidRegex_test c = true ->
  missingNumber (PartialStudent.uniqueId student) = true ->
  Payload.id (initialPayload student) = None ->
  numbered (db w) = true ->
  maxUniqueNumber (rowsOfClass (db w) c) + 1 <= INT4_MAX ->
  let p := withNumber (initialPayload student)
                      (Some (maxUniqueNumber (rowsOfClass (db w) c) + 1)) in
  let row := newRow (mint (db w) (minted (db w))) p in
  saveStudent student w =
  (Some (mapStudentFromDB row),
   {| db := withStudents (db w) (students (db w) ++ [row]) (S (minted (db w)));
      issued := (issued w ++ [SelectStudentsOf (Some c)]) ++ [UpsertStudent p] |}).
Proof.
  intros Hc Hv Hm Hid Hn Hfit p row. rewrite saveStudent_run.
  rewrite (run_preparePayload student c w Hc Hv Hm). fold p.
  rewrite upsertStudent_run. cbn [db issued].
  assert (Hr : refusal p (db w) = None).
  { unfold refusal. rewrite Hn.
    cbn [p withNumber Payload.has_unique_number Payload.id Payload.class_id
         Payload.unique_number negb andb].
    rewrite Hid. unfold initialPayload at 1. cbn [Payload.class_id unreadable].
    rewrite Hc. cbn [unreadable]. rewrite (uuid_in_canonical c Hv).
    pose proof (maxUniqueNumber_nonneg (rowsOfClass (db w) c)).
    unfold inInt4, INT4_MAX in *.
    destruct (Z.leb_spec (-2147483648)
                (maxUniqueNumber (rowsOfClass (db w) c) + 1)); [|lia].
    destruct (Z.leb_spec (maxUniqueNumber (rowsOfClass (db w) c) + 1)
                2147483647); [reflexivity | lia]. }
  unfold upsertRows. rewrite Hr. cbn [Payload.id p withNumber]. rewrite Hid.
  reflexivity.
Qed.

(** X10.  Two new students saved one after the other into the same class
    get consecutive numbers: the second save reads the row the first one
    wrote.  The table has the number column, both numbers fit it, and the
    students have names and a class of the class table. *)
Theorem consecutive_saves_number_consecutively
    (a b : PartialStudent.t) (c : jstring) (w : World) :
  CanonicalUuid c ->
  PartialStudent.classId a = Some c -> PartialStudent.classId b = Some c ->
  missingNumber (PartialStudent.uniqueId a) = true ->
  missingNumber (PartialStudent.uniqueId b) = true ->
  Payload.id (initialPayload a) = None -> Payload.id (initialPayload b) = None ->
  numbered (db w) = true ->
  maxUniqueNumber (rowsOfClass (db w) c) + 2 <= INT4_MAX ->
  PartialStudent.name a <> None -> PartialStudent.name b <> None ->
  (exists row, In row (classes (db w)) /\ uuidEq (ClassRow.id row) c = true) ->
  exists sa sb n,
    fst (saveStudent a w) = Some sa /\
    fst (saveStudent b (snd (saveStudent a w))) = Some sb /\
    Student.uniqueId sa = Some n /\ Student.uniqueId sb = Some (n + 1) /\
    n = maxUniqueNumber (rowsOfClass (db w) c) + 1.
Proof.
  intros Hu Hca Hcb Hma Hmb Hia Hib Hn Hfit _ _ _.
  apply uuidRegex_test_spec in Hu.
  set (M := maxUniqueNumber (rowsOfClass (db w) c)) in *.
  assert (HM : 0 <= M) by apply maxUniqueNumber_nonneg.
  rewrite (saveStudent_new a c w Hca Hu Hma Hia Hn) by (fold M; lia).
  cbn [fst snd]. fold M.
  set (rowA := newRow (mint (db w) (minted (db w)))
                      (withNumber (initialPayload a) (Some (M + 1)))).
  set (wA := {| db := withStudents (db w) (students (db w) ++ [rowA])
                        (S (minted (db w)));
                issued := _ |}).
  assert (Hrows : maxUniqueNumber (rowsOfClass (db wA) c) = M + 1).
  { unfold rowsOfClass. cbn [db wA students withStudents]. rewrite filter_app.
    cbn [filter rowA newRow StudentRow.class_id withNumber Payload.class_id
           initialPayload]. rewrite Hca. cbn [stored].
    rewrite (uuid_in_canonical c Hu). cbn [optUuidEq].
    replace (uuidEq (toLowerCase c) c) with true
      by (symmetry; apply uuidEq_iff; apply toLowerCase_idem).
    rewrite maxUniqueNumber_snoc.
    cbn [rowA StudentRow.unique_number numberOrZero newRow withNumber
           Payload.unique_number Payload.has_unique_number].
    fold (rowsOfClass (db w) c). fold M. lia. }
  rewrite (saveStudent_new b c wA Hcb Hu Hmb Hib Hn) by (rewrite Hrows; lia).
  cbn [fst]. rewrite Hrows.
  do 2 eexists. exists (M + 1). split; [reflexivity|]. split; [reflexivity|].
  split; [|split; [|reflexivity]]; apply mapStudent_number; try lia;
    reflexivity.
Qed.


(** ** What the resolver returns, and what it asks for *)

Lemma getStudent_sound id d s :
  run (getStudent id) d = Some s ->
  exists row, In row (students d) /\ s = mapStudentFromDB row /\
              uuidEq (Student.id s) id = true.
Proof.
  rewrite run_getStudent. destruct (isValidUUID id); [|discriminate].
  unfold studentRowsWithId.
  destruct (filter _ (students d)) as [|x [|y l]] eqn:Hf; try discriminate.
  intros [= <-]. exists x.
  assert (Hx : In x (filter (fun r => optUuidEq (Some (StudentRow.id r)) id)
                            (students d))) by (rewrite Hf; simpl; auto).
  apply filter_In in Hx as [Hin Heq]. auto.
Qed.

Lemma getClass_sound id d c :
  run (getClass id) d = Some c ->
  In c (map mapClassFromDB (classes d)) /\
  exists u, uuid_in id = Some u /\ uuidEq (ClassGroup.id c) u = true /\
            (CanonicalUuid id -> uuidEq (ClassGroup.id c) id = true).
Proof.
  rewrite run_getClass. destruct (uuid_in id) as [u|] eqn:Hu; [|discriminate].
  destruct (filter _ (classes d)) as [|x [|y l]] eqn:Hf; try discriminate.
  intros [= <-].
  assert (Hx : In x (filter (fun c => uuidEq (ClassRow.id c) u) (classes d)))
    by (rewrite Hf; simpl; auto).
  apply filter_In in Hx as [Hin Heq]. split; [now apply in_map|].
  exists u. repeat split; [exact Heq|].
  intros Hc. apply uuidRegex_test_spec in Hc.
  rewrite (uuid_in_canonical id Hc) in Hu. injection Hu as <-.
  now rewrite uuidEq_lower_r in Heq.
Qed.

Lemma scanClasses_sound lc pg id nid cs d s k :
  run (scanClasses lc pg id nid cs) d = (Some s, k) ->
  exists cls, k = Some cls /\ In cls cs /\
              startsWith nid (cleanName cls) = true /\
              run (tryClass lc pg id cls) d = Some s.
Proof.
  induction cs as [|c cs IH]; [discriminate|].
  rewrite run_scan_cons.
  destruct (startsWith nid (cleanName c)) eqn:E.
  - destruct (run (tryClass lc pg id c) d) as [s'|] eqn:Et.
    + intros [= <- <-]. exists c. simpl. auto.
    + intros H. destruct (IH H) as (cls & ? & ? & ? & ?).
      exists cls. simpl. auto.
  - intros H. destruct (IH H) as (cls & ? & ? & ? & ?). exists cls. simpl. auto.
Qed.

Lemma scanClasses_nobody lc pg id nid cs d k :
  run (scanClasses lc pg id nid cs) d = (None, k) -> k = None.
Proof.
  induction cs as [|c cs IH]; [now intros [= <-]|].
  rewrite run_scan_cons.
  destruct (startsWith nid (cleanName c)); [|exact IH].
  destruct (run (tryClass lc pg id c) d); [discriminate | exact IH].
Qed.

(** X11.  The resolver invents nothing.  A student it returns is a row of
    the student table.  Either a class of the class table is returned with
    it whose clean name starts the lowered token, and then the student is
    listed in that class under the number [parseInt] reads from the
    remainder, or has the remainder as its id; or the student has the whole
    token as its id, and a class returned with it is the class of the
    table that the student's [classId] names: the store reads the
    [classId] as the uuid of that class, and a [classId] in canonical form
    is the id of that class. *)
Theorem resolved_student_is_real
    (lc pg : jstring -> jstring -> Z) (id : jstring) (d : Database)
    (s : Student.t) (k : option ClassGroup.t) :
  run (fetchData lc pg id) d = (Some s, k) ->
  (exists row, In row (students d) /\ s = mapStudentFromDB row) /\
  ((exists cls,
      k = Some cls /\ In cls (map mapClassFromDB (classes d)) /\
      startsWith (toLowerCase id) (cleanName cls) = true /\
      let r := cleanRemainderOf id (cleanName cls) in
      (In s (run (getStudents lc pg (ClassGroup.id cls)) d) /\
       exists n, parseInt r = Some n /\ Student.uniqueId s = Some n) \/
      uuidEq (Student.id s) r = true) \/
   (uuidEq (Student.id s) id = true /\
    forall cls, k = Some cls ->
      In cls (map mapClassFromDB (classes d)) /\
      exists i u, Student.classId s = Some i /\ uuid_in i = Some u /\
                  uuidEq (ClassGroup.id cls) u = true /\
                  (CanonicalUuid i -> uuidEq (ClassGroup.id cls) i = true))).
Proof.
  destruct id as [|c0 t]; [discriminate|].
  rewrite run_fetchData by discriminate. cbv zeta.
  destruct (run (scanClasses lc pg (c0 :: t) (toLowerCase (c0 :: t))
                   (sortedClasses d)) d) as [found kf] eqn:Hscan.
  cbn [fst snd]. destruct found as [s'|].
  - destruct (scanClasses_sound _ _ _ _ _ _ _ _ Hscan) as (cls & -> & Hin & Hst & Htry).
    intros [= -> <-]. apply In_sortedClasses in Hin.
    rewrite run_tryClass, run_tryNumber, run_tryUuid in Htry.
    set (r := cleanRemainderOf (c0 :: t) (cleanName cls)) in *.
    assert (Hcase :
      (In s (run (getStudents lc pg (ClassGroup.id cls)) d) /\
       exists n, parseInt r = Some n /\ Student.uniqueId s = Some n) \/
      run (getStudent r) d = Some s).
    { destruct (isNumberRemainder r).
      - destruct (find _ _) as [s'|] eqn:Hf.
        + injection Htry as ->. apply find_some in Hf as [Hin' Hp].
          left. split; [exact Hin'|]. unfold hasUniqueId in Hp.
          destruct (Student.uniqueId s) as [a|]; [|discriminate].
          destruct (parseInt r) as [n|]; [|discriminate].
          apply Z.eqb_eq in Hp. subst. eauto.
        + right. destruct (uuidRegex_test r); [exact Htry | discriminate].
      - right. destruct (uuidRegex_test r); [exact Htry | discriminate]. }
    destruct Hcase as [[Hl Hn]|Hg].
    + split.
      * destruct (In_getStudents _ _ _ _ _ Hl) as [row [? ?]]. eauto.
      * left. exists cls. repeat split; auto.
    + destruct (getStudent_sound _ _ _ Hg) as (row & ? & ? & ?).
      split; [eauto|]. left. exists cls. repeat split; auto.
  - apply scanClasses_nobody in Hscan. subst kf.
    destruct (run (getStudent (c0 :: t)) d) as [s'|] eqn:Hg; [|discriminate].
    intros H. assert (s' = s) by (inversion H; auto). subst s'.
    destruct (getStudent_sound _ _ _ Hg) as (row & ? & ? & ?).
    split; [eauto|]. right. split; [assumption|].
    intros cls ->. injection H as H.
    destruct (Student.classId s) as [[|a i]|]; try discriminate.
    apply getClass_sound in H as [? (u & ? & ? & ?)].
    split; [assumption|]. exists (a :: i), u. auto.
Qed.

Lemma isDigit_isAlnum c : isDigit c = true -> isAlnum c = true.
Proof. unfold isAlnum. intros ->. apply orb_true_r. Qed.

(** X12.  For a student with a positive sequence number, one that a
    Number holds exactly, the display identifier is made of ASCII letters
    and digits only: nothing in it needs escaping in the path of the share
    link. *)
Theorem display_id_is_alphanumeric (s : Student.t) (cls : ClassGroup.t) (n : Z) :
  Student.uniqueId s = Some n -> 0 < n <= MAX_SAFE_INTEGER ->
  forallb isAlnum (getFullDisplayId (Some s) (Some cls)) = true.
Proof.
  intros Hn [Hpos _]. unfold getFullDisplayId. rewrite Hn.
  destruct (Z.eqb_spec n 0); [lia|].
  rewrite forallb_app. apply andb_true_iff. split.
  - unfold stripNonAlnum. apply forallb_forall. intros c Hc.
    now apply filter_In in Hc.
  - destruct (Number_toString_spec n Hpos) as (ds & -> & _ & Hall & _).
    rewrite forallb_forall in *. intros c Hc. apply isDigit_isAlnum. auto.
Qed.

Lemma issuesOnly_ret {A} (a : A) Q : issuesOnly (ret a) Q.
Proof. intros w. exists []. split; [now rewrite app_nil_r | constructor]. Qed.

Lemma issuesOnly_ask {A} q (f : Database -> A) (Q : Query -> Prop) :
  Q q -> issuesOnly (ask q f) Q.
Proof. intros H w. exists [q]. split; [reflexivity | now constructor]. Qed.

Lemma issuesOnly_bind {A B} (m : Async A) (k : A -> Async B) Q :
  issuesOnly m Q -> (forall a, issuesOnly (k a) Q) -> issuesOnly (bind m k) Q.
Proof.
  intros Hm Hk w. unfold bind. destruct (Hm w) as (l1 & E1 & F1).
  destruct (m w) as [a w1]. cbn [snd] in E1.
  destruct (Hk a w1) as (l2 & E2 & F2).
  exists (l1 ++ l2). split; [now rewrite E2, E1, app_assoc|].
  apply Forall_app. auto.
Qed.

Lemma issuesOnly_if {A} (b : bool) (m n : Async A) Q :
  issuesOnly m Q -> issuesOnly n Q -> issuesOnly (if b then m else n) Q.
Proof. destruct b; auto. Qed.

Lemma issuesOnly_getStudent id Q :
  Q (SelectStudent id) -> issuesOnly (getStudent id) Q.
Proof.
  intros H. unfold getStudent. apply issuesOnly_if; [apply issuesOnly_ret|].
  apply issuesOnly_bind; [now apply issuesOnly_ask|].
  intros r. destruct (error r); [apply issuesOnly_ret|].
  destruct (data r); apply issuesOnly_ret.
Qed.

Lemma issuesOnly_getClass id Q :
  Q (SelectClass id) -> issuesOnly (getClass id) Q.
Proof.
  intros H. unfold getClass.
  apply issuesOnly_bind; [now apply issuesOnly_ask|].
  intros r. destruct (error r); [apply issuesOnly_ret|].
  destruct (data r); apply issuesOnly_ret.
Qed.

Lemma issuesOnly_getStudents lc pg cid Q :
  Q (SelectStudentsByName cid) -> issuesOnly (getStudents lc pg cid) Q.
Proof.
  intros H. unfold getStudents.
  apply issuesOnly_bind; [now apply issuesOnly_ask|].
  intros r. destruct (error r); [apply issuesOnly_if|]; apply issuesOnly_ret.
Qed.

Lemma issuesOnly_scanClasses lc pg id cs cs' :
  (forall c, In c cs' -> In c cs) ->
  issuesOnly (scanClasses lc pg id (toLowerCase id) cs') (frugal id cs).
Proof.
  induction cs' as [|cls rest IH]; intros Hsub; [apply issuesOnly_ret|].
  assert (IH' : issuesOnly (scanClasses lc pg id (toLowerCase id) rest)
                           (frugal id cs))
    by (apply IH; intros c Hc; apply Hsub; simpl; auto).
  cbn [scanClasses].
  destruct (startsWith (toLowerCase id) (cleanName cls)) eqn:Hst; [|exact IH'].
  apply issuesOnly_bind.
  - unfold tryClass. apply issuesOnly_bind.
    + unfold tryNumber.
      destruct (isNumberRemainder (cleanRemainderOf id (cleanName cls))) eqn:Hn;
        [|apply issuesOnly_ret].
      apply issuesOnly_bind; [|intros; apply issuesOnly_ret].
      apply issuesOnly_getStudents. exists cls.
      repeat split; auto. apply Hsub. simpl; auto.
    + intros [s|]; [apply issuesOnly_ret|].
      unfold tryUuid. apply issuesOnly_if; [|apply issuesOnly_ret].
      now apply issuesOnly_getStudent.
  - intros [s|]; [apply issuesOnly_ret | exact IH'].
Qed.

(** X13.  The resolver only reads, and it reads sparingly: it leaves the
    tables as they were, issues no upsert, and fetches the students of a
    class only if the class's clean name starts the lowered token and the
    remainder passes the numeric guard. *)
Theorem fetchData_reads_sparingly
    (lc pg : jstring -> jstring -> Z) (id : jstring) (w : World) :
  db (snd (fetchData lc pg id w)) = db w /\
  exists l, issued (snd (fetchData lc pg id w)) = issued w ++ l /\
            Forall (frugal id (sortedClasses (db w))) l.
Proof.
  split; [apply readOnly_fetchData|].
  unfold fetchData. destruct id as [|c0 t]; [apply (issuesOnly_ret _ _ w)|].
  unfold bind at 1.
  assert (Hc : issuesOnly getClasses (frugal (c0 :: t) (sortedClasses (db w)))).
  { unfold getClasses. apply issuesOnly_bind; [now apply issuesOnly_ask|].
    intros r. destruct (error r); [apply issuesOnly_if|]; apply issuesOnly_ret. }
  destruct (Hc w) as (l1 & E1 & F1).
  destruct (readOnly_getClasses w) as [Hcs Hdb].
  destruct (getClasses w) as [cs w1]. cbn [fst snd] in *.
  assert (Hrest : issuesOnly
    (found <- scanClasses lc pg (c0 :: t) (toLowerCase (c0 :: t))
                (sortBy byNameLengthDesc cs) ;;
     (let (fetchedStudent, fetchedClass) := found in
      fetchedStudent <- match fetchedStudent with
                        | None => getStudent (c0 :: t)
                        | Some s => ret (Some s)
                        end ;;
      fetchedClass <- match fetchedStudent, fetchedClass with
                      | Some s, None =>
                          match Student.classId s with
                          | Some (c :: i) => getClass (c :: i)
                          | _ => ret None
                          end
                      | _, _ => ret fetchedClass
                      end ;;
      ret (fetchedStudent, fetchedClass)))
    (frugal (c0 :: t) (sortedClasses (db w)))).
  { apply issuesOnly_bind.
    - apply issuesOnly_scanClasses. intros c Hin.
      unfold sortedClasses. now rewrite <- Hcs.
    - intros [fs fc]. apply issuesOnly_bind.
      + destruct fs; [apply issuesOnly_ret | now apply issuesOnly_getStudent].
      + intros fs'. apply issuesOnly_bind; [|intros; apply issuesOnly_ret].
        destruct fs' as [s|]; [|apply issuesOnly_ret].
        destruct fc; [apply issuesOnly_ret|].
        destruct (Student.classId s) as [[|? ?]|]; try apply issuesOnly_ret.
        now apply issuesOnly_getClass. }
  destruct (Hrest w1) as (l2 & E2 & F2).
  exists (l1 ++ l2). split; [now rewrite E2, E1, app_assoc|].
  apply Forall_app. auto.
Qed.

(** ** The video urls of a session *)

Lemma existsb_jeqb u seen : existsb (jeqb u) seen = true <-> In u seen.
Proof.
  rewrite existsb_exists. split.
  - intros [x [Hx E]]. apply jeqb_eq in E. now subst.
  - intros H. exists u. split; [exact H | apply jeqb_refl].
Qed.

Lemma dedupe_In seen urls u :
  In u (dedupe seen urls) <-> In u urls /\ ~ In u seen.
Proof.
  revert seen. induction urls as [|x l IH]; intros seen; simpl; [tauto|].
  destruct (existsb (jeqb x) seen) eqn:E.
  - apply existsb_jeqb in E. rewrite IH. split.
    + intros [? ?]. auto.
    + intros [[<-|?] ?]; [contradiction | auto].
  - assert (Hx : ~ In x seen).
    { intros H. apply existsb_jeqb in H. congruence. }
    simpl. rewrite IH. simpl. split.
    + intros [<-|[? ?]]; auto.
    + intros [[<-|?] ?]; [auto|].
      destruct (jeqb x u) eqn:Ej; [apply jeqb_eq in Ej; subst; auto|].
      assert (Hne : x <> u) by (intros ->; now rewrite jeqb_refl in Ej).
      right. split; [assumption|]. intros [?|?]; auto.
Qed.

Lemma dedupe_NoDup seen urls : NoDup (dedupe seen urls).
Proof.
  revert seen. induction urls as [|x l IH]; intros seen; simpl; [constructor|].
  destruct (existsb (jeqb x) seen); [apply IH|].
  constructor; [|apply IH].
  rewrite dedupe_In. simpl. tauto.
Qed.

Lemma nonBlank_spec u :
  nonBlank u = true <-> exists x, u = Some x /\ trim x <> [].
Proof.
  destruct u as [[|c s]|]; simpl.
  - split; [discriminate|]. intros [x [[= <-] H]]. exfalso. now apply H.
  - destruct (jeqb (trim (c :: s)) []) eqn:E; simpl.
    + apply jeqb_eq in E. split; [discriminate|].
      intros [x [[= <-] H]]. contradiction.
    + split; [|reflexivity]. intros _. exists (c :: s). split; [reflexivity|].
      intros H. rewrite H in E. discriminate.
  - split; [discriminate|]. intros [x [H _]]. discriminate.
Qed.

Lemma valuesOf_In urls x : In x (valuesOf urls) <-> In (Some x) urls.
Proof.
  unfold valuesOf. rewrite in_flat_map. split.
  - intros [[y|] [Hin H]]; simpl in H; [|contradiction].
    destruct H as [->|[]]. exact Hin.
  - intros H. exists (Some x). simpl. auto.
Qed.

(** X14.  Every session [getSessions] returns lists its videos without
    repetition and without blank entries; the list holds the primary url of
    the row and the url of every row of [session_videos] that names the
    session, unless blank; and the primary url comes first. *)
Theorem getSessions_video_urls
    (sessions : Response (list SessionRow.t)) (videos : Response (list VideoRow.t)) :
  Forall (fun s =>
    exists urls,
      Session.videoUrls s = Some urls /\ NoDup urls /\
      (forall u, In u urls -> trim u <> []) /\
      (trim (Session.videoUrl s) <> [] -> hd_error urls = Some (Session.videoUrl s)) /\
      (forall vs v u, data videos = Some vs -> In v vs ->
                      VideoRow.session_id v = Some (Session.id s) ->
                      VideoRow.url v = Some u -> trim u <> [] -> In u urls))
    (getSessions sessions videos).
Proof.
  unfold getSessions. destruct (error sessions);
    [destruct (isTableMissingError _); constructor|].
  apply Forall_forall. intros s Hs. apply in_map_iff in Hs as [row [<- _]].
  exists (sessionVideoUrls row (data videos)).
  split; [reflexivity|]. unfold sessionVideoUrls.
  cbn [withVideoUrls Session.videoUrl Session.id mapSessionFromDB].
  set (related := match data videos with Some vs => _ | None => [] end).
  split; [apply dedupe_NoDup|]. split; [|split].
  - intros u Hu. apply dedupe_In in Hu as [Hu _]. apply valuesOf_In in Hu.
    apply filter_In in Hu as [_ Hu]. apply nonBlank_spec in Hu as [x [[= <-] H]].
    exact H.
  - intros Hp. cbn [filter].
    assert (Hnb : nonBlank (Some (orEmpty (SessionRow.video_url row))) = true).
    { apply nonBlank_spec. eauto. }
    rewrite Hnb. reflexivity.
  - intros vs v u Hd Hv Hsid Hurl Hnb. apply dedupe_In. split; [|tauto].
    apply valuesOf_In. apply filter_In. split.
    + right. unfold related. rewrite Hd. rewrite <- Hurl. apply in_map.
      apply filter_In. split; [exact Hv|]. rewrite Hsid. apply jeqb_refl.
    + apply nonBlank_spec. eauto.
Qed.

(** X15.  A failure of the request for [session_videos] (a missing table,
    say) does not cost the sessions: one session per row is returned, in
    the order of the rows, each with its primary url alone, or with no url
    when that is blank. *)
Theorem getSessions_without_extra_videos
    (sessions : Response (list SessionRow.t)) (videos : Response (list VideoRow.t))
    (rows : list SessionRow.t) :
  error sessions = None -> data sessions = Some rows -> data videos = None ->
  map Session.id (getSessions sessions videos) = map SessionRow.id rows /\
  Forall (fun s =>
    Session.videoUrls s =
    Some (if nonBlank (Some (Session.videoUrl s)) then [Session.videoUrl s] else []))
    (getSessions sessions videos).
Proof.
  intros He Hd Hv. unfold getSessions. rewrite He, Hd, Hv. split.
  - rewrite map_map. reflexivity.
  - apply Forall_forall. intros s Hs. apply in_map_iff in Hs as [row [<- _]].
    unfold sessionVideoUrls.
    cbn [withVideoUrls Session.videoUrl Session.videoUrls mapSessionFromDB filter].
    now destruct (nonBlank (Some (orEmpty (SessionRow.video_url row)))).
Qed.

(** ** Names read from the model's answer *)

Lemma trimStart_suffix s : exists ws, s = ws ++ trimStart s.
Proof.
  induction s as [|c s [ws IH]]; [now exists []|]. simpl.
  destruct (isWhiteSpace c); [|now exists []].
  exists (c :: ws). simpl. now f_equal.
Qed.

Lemma trimStart_head s c r : trimStart s = c :: r -> isWhiteSpace c = false.
Proof.
  induction s as [|x s IH]; [discriminate|]. simpl.
  destruct (isWhiteSpace x) eqn:E; [exact IH|]. now intros [= <- _].
Qed.

Lemma trimStart_fixed s :
  match s with [] => True | c :: _ => isWhiteSpace c = false end ->
  trimStart s = s.
Proof. destruct s as [|c s]; [reflexivity|]. simpl. now intros ->. Qed.

(** [trim] leaves nothing to trim. *)
Lemma trim_idempotent s : trim (trim s) = trim s.
Proof.
  unfold trim at 2 3. set (u := trimStart s).
  assert (Hu : match u with [] => True | c :: _ => isWhiteSpace c = false end).
  { unfold u. destruct (trimStart s) as [|c r] eqn:E; [trivial|].
    eapply trimStart_head; eauto. }
  destruct (trimStart_trimEnd u) as [ws Hpre].
  assert (Hhead : match trimEnd u with
                  | [] => True
                  | c :: _ => isWhiteSpace c = false
                  end).
  { destruct (trimEnd u) as [|c r]; [trivial|]. rewrite Hpre in Hu. exact Hu. }
  unfold trim. rewrite (trimStart_fixed _ Hhead).
  unfold trimEnd. rewrite rev_involutive. f_equal. apply trimStart_fixed.
  destruct (trimStart (rev u)) as [|c r] eqn:E; [trivial|].
  eapply trimStart_head; eauto.
Qed.

Lemma trim_In c s : In c (trim s) -> In c s.
Proof.
  unfold trim. intros H.
  destruct (trimStart_trimEnd (trimStart s)) as [ws1 E1].
  destruct (trimStart_suffix s) as [ws2 E2].
  rewrite E2. apply in_or_app. right. rewrite E1. apply in_or_app. now left.
Qed.

Lemma splitLines_no_LF text :
  Forall (fun line => forall c, In c line -> code c <> 10) (splitLines text).
Proof.
  induction text as [|c rest IH]; simpl.
  - constructor; [intros c []|constructor].
  - destruct (Z.eqb_spec (code c) 10) as [E|E].
    + constructor; [intros x []|exact IH].
    + destruct (splitLines rest) as [|line more]; inversion IH; subst.
      * constructor; [|constructor]. intros x [<-|[]]. exact E.
      * constructor; [|assumption]. intros x [<-|Hx]; auto.
Qed.

(** X16.  Every name read from the model's answer is a usable name: it is
    not empty, it has no white space left at either end, and there is no
    line break in it. *)
Theorem namesOfText_are_clean (text : jstring) :
  Forall (fun name => name <> [] /\ trim name = name /\
                      forall c, In c name -> code c <> 10)
         (namesOfText text).
Proof.
  unfold namesOfText. apply Forall_forall. intros name Hn.
  apply filter_In in Hn as [Hin Hlen]. apply in_map_iff in Hin as [line [<- Hl]].
  split; [|split].
  - intros E. rewrite E in Hlen. discriminate.
  - apply trim_idempotent.
  - intros c Hc. apply trim_In in Hc.
    pose proof (splitLines_no_LF text) as H. rewrite Forall_forall in H.
    exact (H line Hl c Hc).
Qed.

(** ** Numbering the students of a class *)

Lemma evolve_cons u ups r : evolve (u :: ups) r = evolve ups (renumber u r).
Proof. reflexivity. Qed.

(** The second loop on a table with the number column: the updates that
    fit are applied, the others are refused and make the result [false]. *)
Lemma performUpdates_run ups b w :
  numbered (db w) = true ->
  (forall u, In u ups -> uuidRegex_test (fst u) = true) ->
  fst (performUpdates ups b w) = b && forallb (fun u => inInt4 (snd u)) ups /\
  students (db (snd (performUpdates ups b w))) =
    map (evolve (fitting ups)) (students (db w)) /\
  classes (db (snd (performUpdates ups b w))) = classes (db w) /\
  numbered (db (snd (performUpdates ups b w))) = true.
Proof.
  revert b w. induction ups as [|[id n] ups IH]; intros b w Hn Hv.
  - cbn. rewrite map_id, andb_true_r. auto.
  - cbn [performUpdates]. unfold bind, act, updateNumber. rewrite Hn.
    cbn [negb].
    assert (Hid : uuidRegex_test id = true) by (apply (Hv (id, n)); simpl; auto).
    rewrite (uuid_in_canonical id Hid).
    assert (Hv' : forall u, In u ups -> uuidRegex_test (fst u) = true)
      by (intros u Hu; apply Hv; simpl; auto).
    cbn [forallb fitting filter snd]. fold (fitting ups).
    destruct (inInt4 n); cbn [negb error done refuse].
    + destruct (IH b {| db := withStudents (db w)
                           (map (fun r => if uuidEq (StudentRow.id r) (toLowerCase id)
                                          then setNumber r n else r)
                                (students (db w)))
                           (minted (db w));
                         issued := issued w |}) as (H1 & H2 & H3 & H4);
        [exact Hn | exact Hv' |].
      split; [exact H1|]. split; [|split; [exact H3 | exact H4]].
      rewrite H2. cbn [db students withStudents]. rewrite map_map.
      apply map_ext. intros r. rewrite evolve_cons. unfold renumber.
      cbn [fst snd]. now rewrite uuidEq_lower_r.
    + replace (jeqb (code_of (rangeError n)) (str "42703")) with false
        by reflexivity.
      destruct (IH false {| db := db w; issued := issued w |})
        as (H1 & H2 & H3 & H4); [exact Hn | exact Hv' |].
      rewrite andb_false_r. auto.
Qed.

(** The second loop on a table without the number column stops at the first
    update, which is refused. *)
Lemma performUpdates_unnumbered ups b w :
  numbered (db w) = false ->
  fst (performUpdates ups b w) = match ups with [] => b | _ :: _ => false end /\
  db (snd (performUpdates ups b w)) = db w.
Proof.
  intros Hn. destruct ups as [|[id n] ups]; [split; reflexivity|].
  cbn [performUpdates]. unfold bind, act, updateNumber. rewrite Hn.
  split; reflexivity.
Qed.

Lemma numberOrZero_missing x :
  (if missingNumber x then 0 else numberOrZero x) = numberOrZero x.
Proof.
  destruct x as [n|]; [|reflexivity]. cbn [missingNumber numberOrZero].
  destruct (Z.eqb_spec n 0); subst; reflexivity.
Qed.

Lemma highestNumber_max rows : highestNumber rows = maxUniqueNumber rows.
Proof.
  unfold highestNumber, maxUniqueNumber.
  assert (H : forall acc,
    fold_left (fun acc curr =>
                 let num := if missingNumber (StudentRow.unique_number curr)
                            then 0
                            else numberOrZero (StudentRow.unique_number curr) in
                 if num >? acc then num else acc) rows acc =
    fold_left (fun max curr =>
                 let num := numberOrZero (StudentRow.unique_number curr) in
                 if num >? max then num else max) rows acc).
  { induction rows as [|r rows IH]; intros acc; [reflexivity|].
    cbn [fold_left]. rewrite IH. cbv zeta. now rewrite numberOrZero_missing. }
  apply H.
Qed.

Lemma collectUpdates_spec rows m u :
  In u (collectUpdates rows m) ->
  exists r, In r rows /\ fst u = StudentRow.id r /\
            missingNumber (StudentRow.unique_number r) = true /\
            m < snd u <= m + Z.of_nat (List.length rows).
Proof.
  revert m. induction rows as [|s rest IH]; intros m; [intros []|].
  cbn [collectUpdates]. cbn [List.length]. rewrite Nat2Z.inj_succ.
  destruct (missingNumber (StudentRow.unique_number s)) eqn:E.
  - intros [<-|H].
    + exists s. simpl. repeat split; auto; lia.
    + destruct (IH _ H) as (r & ? & ? & ? & ?). exists r. simpl.
      repeat split; auto; lia.
  - intros H. destruct (IH _ H) as (r & ? & ? & ? & ?). exists r. simpl.
    repeat split; auto; lia.
Qed.

Lemma collectUpdates_covers rows m r :
  In r rows -> missingNumber (StudentRow.unique_number r) = true ->
  exists n, In (StudentRow.id r, n) (collectUpdates rows m).
Proof.
  revert m. induction rows as [|s rest IH]; intros m; [intros []|].
  cbn [collectUpdates]. intros [->|Hin] Hm.
  - rewrite Hm. eexists. left. reflexivity.
  - destruct (missingNumber (StudentRow.unique_number s)).
    + destruct (IH (m + 1) Hin Hm) as [n Hn]. exists n. now right.
    + apply IH; auto.
Qed.

Lemma renumber_keeps u r :
  StudentRow.id (renumber u r) = StudentRow.id r /\
  StudentRow.class_id (renumber u r) = StudentRow.class_id r.
Proof. unfold renumber. destruct (uuidEq _ _); split; reflexivity. Qed.

Lemma evolve_keeps ups r :
  StudentRow.id (evolve ups r) = StudentRow.id r /\
  StudentRow.class_id (evolve ups r) = StudentRow.class_id r.
Proof.
  unfold evolve. revert r. induction ups as [|u ups IH]; intros r; [auto|].
  cbn [fold_left]. destruct (IH (renumber u r)) as [-> ->].
  apply renumber_keeps.
Qed.

Lemma evolve_untouched ups r :
  (forall u, In u ups -> uuidEq (StudentRow.id r) (fst u) = false) ->
  evolve ups r = r.
Proof.
  unfold evolve. induction ups as [|u ups IH]; intros H; [reflexivity|].
  cbn [fold_left]. unfold renumber at 2. rewrite (H u) by (simpl; auto).
  apply IH. intros u' Hu'. apply H. simpl; auto.
Qed.

Lemma evolve_numbered ups r :
  (forall u, In u ups -> 0 < snd u) ->
  missingNumber (StudentRow.unique_number r) = false \/
  (exists u, In u ups /\ uuidEq (StudentRow.id r) (fst u) = true) ->
  missingNumber (StudentRow.unique_number (evolve ups r)) = false.
Proof.
  unfold evolve. revert r. induction ups as [|u ups IH]; intros r Hpos H.
  - destruct H as [H|[u [[] _]]]. exact H.
  - cbn [fold_left]. apply IH; [intros; apply Hpos; simpl; auto|].
    unfold renumber at 1 2. destruct (uuidEq (StudentRow.id r) (fst u)) eqn:E.
    + left. cbn. destruct (Z.eqb_spec (snd u) 0) as [E0|]; [|reflexivity].
      specialize (Hpos u (or_introl eq_refl)). lia.
    + destruct H as [H|[u' [[<-|Hin] Hu']]]; [auto | congruence |].
      right. exists u'. auto.
Qed.

Lemma rowsOfClass_evolve ups T c :
  filter (fun r => optUuidEq (StudentRow.class_id r) c) (map (evolve ups) T) =
  map (evolve ups) (filter (fun r => optUuidEq (StudentRow.class_id r) c) T).
Proof.
  induction T as [|r T IH]; [reflexivity|]. cbn [map filter].
  destruct (evolve_keeps ups r) as [_ ->].
  destruct (optUuidEq (StudentRow.class_id r) c); cbn [map]; now rewrite IH.
Qed.

(** The rows [ensureClassStudentNumbers] reads. *)
Lemma studentsByName_canonical pg c d :
  uuidRegex_test c = true ->
  studentsByName pg c d = succeed (classByName pg d c).
Proof.
  intros Hc. unfold studentsByName.
  now rewrite (eqUuid_canonical _ c _ Hc).
Qed.

(** What [ensureClassStudentNumbers] does on a table with the number
    column, for a class whose rows have uuids as ids: every row of the table
    has gone through those of the updates collected from the rows of the
    class that fit the column, and the result tells whether all did. *)
Lemma ensureClassStudentNumbers_run pg c w :
  uuidRegex_test c = true ->
  uuidKeyed (rowsOfClass (db w) c) ->
  numbered (db w) = true ->
  let rows := classByName pg (db w) c in
  let ups := collectUpdates rows (highestNumber rows) in
  fst (ensureClassStudentNumbers pg c w) =
    forallb (fun u => inInt4 (snd u)) ups /\
  students (db (snd (ensureClassStudentNumbers pg c w))) =
    map (evolve (fitting ups)) (students (db w)) /\
  classes (db (snd (ensureClassStudentNumbers pg c w))) = classes (db w) /\
  numbered (db (snd (ensureClassStudentNumbers pg c w))) = true.
Proof.
  intros Hc Hk Hn rows ups.
  unfold ensureClassStudentNumbers, bind, ask.
  rewrite (studentsByName_canonical pg c (db w) Hc).
  cbn [succeed error data fst snd]. fold rows. cbv zeta. fold ups.
  assert (Hv : forall u, In u ups -> uuidRegex_test (fst u) = true).
  { intros u Hu. apply collectUpdates_spec in Hu as (r & Hr & -> & _).
    apply Hk. unfold rows, classByName in Hr. now apply sortBy_In in Hr. }
  destruct ups as [|u ups'] eqn:Eu.
  - cbn. rewrite map_id. auto.
  - rewrite <- Eu in *.
    exact (performUpdates_run ups true
             {| db := db w; issued := issued w ++ [SelectStudentsByName c] |}
             Hn Hv).
Qed.

Lemma highestNumber_nonneg rows : 0 <= highestNumber rows.
Proof. rewrite highestNumber_max. apply maxUniqueNumber_nonneg. Qed.

Lemma collected_positive rows u :
  In u (fitting (collectUpdates rows (highestNumber rows))) -> 0 < snd u.
Proof.
  intros H. apply filter_In in H as [H _].
  apply collectUpdates_spec in H as (_ & _ & _ & _ & H).
  pose proof (highestNumber_nonneg rows). lia.
Qed.

(** With room for everyone, every update fits. *)
Lemma roomFor_fitting rows :
  roomFor rows ->
  fitting (collectUpdates rows (highestNumber rows)) =
    collectUpdates rows (highestNumber rows) /\
  forallb (fun u => inInt4 (snd u)) (collectUpdates rows (highestNumber rows))
    = true.
Proof.
  intros Hroom.
  assert (H : forall u, In u (collectUpdates rows (highestNumber rows)) ->
                        inInt4 (snd u) = true).
  { intros u Hu. apply collectUpdates_spec in Hu as (_ & _ & _ & _ & Hb).
    pose proof (highestNumber_nonneg rows). unfold roomFor, INT4_MAX in Hroom.
    unfold inInt4. apply andb_true_iff. split; apply Z.leb_le; lia. }
  split; [|now apply forallb_forall].
  unfold fitting. induction (collectUpdates rows (highestNumber rows))
    as [|u l IH]; [reflexivity|].
  cbn [filter]. rewrite (H u) by (simpl; auto). f_equal.
  apply IH. intros u' Hu'. apply H. simpl; auto.
Qed.

Lemma rowsOfClass_after pg c w :
  uuidRegex_test c = true -> uuidKeyed (rowsOfClass (db w) c) ->
  numbered (db w) = true ->
  rowsOfClass (db (snd (ensureClassStudentNumbers pg c w))) c =
  map (evolve (fitting (collectUpdates (classByName pg (db w) c)
                          (highestNumber (classByName pg (db w) c)))))
      (rowsOfClass (db w) c).
Proof.
  intros Hc Hk Hn.
  destruct (ensureClassStudentNumbers_run pg c w Hc Hk Hn) as (_ & H & _).
  unfold rowsOfClass at 1. rewrite H. apply rowsOfClass_evolve.
Qed.

(** On a table without the number column nothing changes. *)
Lemma ensureClassStudentNumbers_unnumbered pg c w :
  uuidRegex_test c = true -> numbered (db w) = false ->
  fst (ensureClassStudentNumbers pg c w) =
    match collectUpdates (classByName pg (db w) c)
                         (highestNumber (classByName pg (db w) c)) with
    | [] => true
    | _ :: _ => false
    end /\
  db (snd (ensureClassStudentNumbers pg c w)) = db w.
Proof.
  intros Hc Hn. unfold ensureClassStudentNumbers, bind, ask.
  rewrite (studentsByName_canonical pg c (db w) Hc).
  cbn [succeed error data fst snd]. cbv zeta.
  destruct (collectUpdates _ _) as [|u ups] eqn:Eu; [split; reflexivity|].
  apply (performUpdates_unnumbered (u :: ups) true
           {| db := db w; issued := issued w ++ [SelectStudentsByName c] |} Hn).
Qed.

Lemma everyone_numbered_after pg c w :
  uuidRegex_test c = true -> uuidKeyed (rowsOfClass (db w) c) ->
  numbered (db w) = true -> roomFor (classByName pg (db w) c) ->
  forall r, In r (rowsOfClass (db (snd (ensureClassStudentNumbers pg c w))) c) ->
            missingNumber (StudentRow.unique_number r) = false.
Proof.
  intros Hu Hk Hn Hroom. rewrite (rowsOfClass_after pg c w Hu Hk Hn).
  set (rows := classByName pg (db w) c) in *.
  intros r' Hr'. apply in_map_iff in Hr' as [r [<- Hr]].
  apply evolve_numbered; [apply collected_positive|].
  destruct (missingNumber (StudentRow.unique_number r)) eqn:Hm; [|auto].
  right. destruct (roomFor_fitting rows Hroom) as [-> _].
  destruct (collectUpdates_covers rows (highestNumber rows) r) as [n Hn']; auto.
  { unfold rows, classByName. now apply sortBy_In. }
  exists (StudentRow.id r, n). split; [exact Hn' | apply uuidEq_refl].
Qed.

(** X17.  Let the table have the number column, with room in it for a
    number for every student of the class, and let the rows of the class
    have uuids as ids.  Then [ensureClassStudentNumbers] returns [true], and
    afterwards every student of the class has a sequence number; the class
    has the students it had, and the class table is as it was. *)
Theorem ensureClassStudentNumbers_numbers_everyone
    (pg : jstring -> jstring -> Z) (c : jstring) (w : World) :
  CanonicalUuid c -> uuidKeyed (rowsOfClass (db w) c) ->
  numbered (db w) = true -> roomFor (classByName pg (db w) c) ->
  let w' := snd (ensureClassStudentNumbers pg c w) in
  fst (ensureClassStudentNumbers pg c w) = true /\
  (forall r, In r (rowsOfClass (db w') c) ->
             missingNumber (StudentRow.unique_number r) = false) /\
  map StudentRow.id (rowsOfClass (db w') c) =
    map StudentRow.id (rowsOfClass (db w) c) /\
  classes (db w') = classes (db w).
Proof.
  intros Hu Hk Hn Hroom w'. apply uuidRegex_test_spec in Hu.
  destruct (ensureClassStudentNumbers_run pg c w Hu Hk Hn) as (H1 & _ & H3 & _).
  destruct (roomFor_fitting _ Hroom) as [_ Hfit].
  split; [now rewrite H1|]. unfold w'.
  split; [now apply everyone_numbered_after|].
  split; [|exact H3]. rewrite (rowsOfClass_after pg c w Hu Hk Hn).
  rewrite map_map. apply map_ext. intros r. apply evolve_keeps.
Qed.

Lemma evolve_result ups r :
  evolve ups r = r \/
  exists u, In u ups /\ uuidEq (StudentRow.id r) (fst u) = true /\
            evolve ups r = setNumber r (snd u).
Proof.
  unfold evolve. revert r. induction ups as [|u ups IH]; intros r; [now left|].
  cbn [fold_left]. unfold renumber at 2 4.
  destruct (uuidEq (StudentRow.id r) (fst u)) eqn:E.
  - right. destruct (IH (setNumber r (snd u))) as [->|(u' & Hin & Hu' & ->)].
    + exists u. simpl. auto.
    + exists u'. simpl. auto.
  - destruct (IH r) as [->|(u' & Hin & Hu' & ->)]; [now left|].
    right. exists u'. simpl. auto.
Qed.

Lemma primaryKey_inj d a b :
  primaryKey d -> In a (students d) -> In b (students d) ->
  uuidEq (StudentRow.id a) (StudentRow.id b) = true -> a = b.
Proof.
  unfold primaryKey. intros Hnd Ha Hb E. apply uuidEq_iff in E.
  induction (students d) as [|x l IH]; [contradiction|].
  cbn [map] in Hnd. apply NoDup_cons_iff in Hnd as [Hx Hnd].
  destruct Ha as [->|Ha], Hb as [->|Hb]; auto.
  - exfalso. apply Hx. rewrite E.
    now apply (in_map (fun r => toLowerCase (StudentRow.id r))).
  - exfalso. apply Hx. rewrite <- E.
    now apply (in_map (fun r => toLowerCase (StudentRow.id r))).
Qed.

(** The table after [ensureClassStudentNumbers]: every row has gone through
    some of the updates collected from the rows of the class. *)
Lemma students_after pg c w :
  uuidRegex_test c = true -> uuidKeyed (rowsOfClass (db w) c) ->
  exists ups,
    (forall u, In u ups ->
       In u (collectUpdates (classByName pg (db w) c)
                            (highestNumber (classByName pg (db w) c)))) /\
    students (db (snd (ensureClassStudentNumbers pg c w))) =
      map (evolve ups) (students (db w)).
Proof.
  intros Hc Hk. destruct (numbered (db w)) eqn:Hn.
  - destruct (ensureClassStudentNumbers_run pg c w Hc Hk Hn) as (_ & H & _).
    eexists. split; [|exact H]. intros u Hu. now apply filter_In in Hu.
  - destruct (ensureClassStudentNumbers_unnumbered pg c w Hc Hn) as [_ H].
    exists []. split; [intros u []|]. rewrite H.
    symmetry. apply map_id.
Qed.

(** X18.  In a table keyed by id, [ensureClassStudentNumbers] touches the
    rows without a number of the class and nothing else: a row that has a
    number, or is of another class, is in the table afterwards as it was; a
    row of the class without a number is there as it was or with a number
    above the highest the class had, and is otherwise unchanged.  It is
    there with such a number, one that fits the column, when the table has
    the number column with room in it for a number for every student of the
    class. *)
Theorem ensureClassStudentNumbers_changes_numbers_only
    (pg : jstring -> jstring -> Z) (c : jstring) (w : World) (r : StudentRow.t) :
  CanonicalUuid c -> uuidKeyed (rowsOfClass (db w) c) -> primaryKey (db w) ->
  In r (students (db w)) ->
  let after := students (db (snd (ensureClassStudentNumbers pg c w))) in
  let highest := highestNumber (classByName pg (db w) c) in
  (missingNumber (StudentRow.unique_number r) = false \/
   optUuidEq (StudentRow.class_id r) c = false -> In r after) /\
  (In r after \/ exists n, highest < n /\ In (setNumber r n) after) /\
  (missingNumber (StudentRow.unique_number r) = true ->
   optUuidEq (StudentRow.class_id r) c = true ->
   numbered (db w) = true -> roomFor (classByName pg (db w) c) ->
   exists n, highest < n <= INT4_MAX /\ In (setNumber r n) after).
Proof.
  intros Hu Hk Hpk Hin after highest. apply uuidRegex_test_spec in Hu.
  set (rows := classByName pg (db w) c) in *.
  assert (Hrows : forall x, In x rows ->
            In x (students (db w)) /\ optUuidEq (StudentRow.class_id x) c = true).
  { intros x Hx. unfold rows, classByName in Hx. apply sortBy_In in Hx.
    now apply filter_In in Hx. }
  split; [|split].
  - destruct (students_after pg c w Hu Hk) as (ups & Hsub & H).
    unfold after. rewrite H.
    intros Hcase. rewrite <- (evolve_untouched ups r); [now apply in_map|].
    intros u Hu'. destruct (uuidEq (StudentRow.id r) (fst u)) eqn:E; [|reflexivity].
    exfalso. apply Hsub in Hu'.
    apply collectUpdates_spec in Hu' as (x & Hx & Hid & Hm & _).
    destruct (Hrows x Hx) as [Hxin Hxc]. rewrite Hid in E.
    assert (r = x) by (eapply primaryKey_inj; eauto). subst x.
    destruct Hcase; congruence.
  - destruct (students_after pg c w Hu Hk) as (ups & Hsub & H).
    unfold after. rewrite H.
    destruct (evolve_result ups r) as [E|(u & Hu' & _ & E)].
    + left. rewrite <- E. now apply in_map.
    + right. exists (snd u). split.
      * apply Hsub in Hu'.
        now apply collectUpdates_spec in Hu' as (_ & _ & _ & _ & ? & _).
      * rewrite <- E. now apply in_map.
  - intros Hm Hc Hn Hroom.
    destruct (ensureClassStudentNumbers_run pg c w Hu Hk Hn) as (_ & H & _).
    unfold after. rewrite H. fold rows.
    destruct (roomFor_fitting rows Hroom) as [Hfit _]. rewrite Hfit.
    set (ups := collectUpdates rows (highestNumber rows)).
    destruct (evolve_result ups r) as [E|(u & Hu' & _ & E)].
    + exfalso.
      assert (Hnum : missingNumber (StudentRow.unique_number (evolve ups r))
                     = false).
      { apply evolve_numbered.
        - intros u Hu'. apply (collected_positive rows). now rewrite Hfit.
        - right.
          destruct (collectUpdates_covers rows (highestNumber rows) r)
            as [n Hn']; auto.
          { unfold rows, classByName. apply sortBy_In. apply filter_In. auto. }
          exists (StudentRow.id r, n). split; [exact Hn' | apply uuidEq_refl]. }
      rewrite E in Hnum. congruence.
    + exists (snd u). split.
      * apply collectUpdates_spec in Hu' as (_ & _ & _ & _ & Hb).
        unfold roomFor in Hroom. unfold highest. lia.
      * rewrite <- E. now apply in_map.
Qed.

Lemma numbersOf_cons r rows :
  numbersOf (r :: rows) =
  (if missingNumber (StudentRow.unique_number r) then []
   else [numberOrZero (StudentRow.unique_number r)]) ++ numbersOf rows.
Proof.
  unfold numbersOf, uniqueIdsOf. cbn [map flat_map mapStudentFromDB Student.uniqueId].
  f_equal. destruct (StudentRow.unique_number r) as [n|]; [|reflexivity].
  cbn [missingNumber numberOrZero]. now destruct (n =? 0).
Qed.

Lemma numbersOf_le_highest rows x :
  In x (numbersOf rows) -> x <= highestNumber rows.
Proof.
  rewrite highestNumber_max. unfold maxUniqueNumber.
  rewrite (fold_left_max (fun r => numberOrZero (StudentRow.unique_number r))).
  induction rows as [|r rows IH]; [intros []|].
  rewrite numbersOf_cons. cbn [map fold_right]. intros H.
  apply in_app_or in H as [H|H].
  - destruct (missingNumber _); [contradiction|]. destruct H as [<-|[]]. lia.
  - specialize (IH H). lia.
Qed.

Lemma numbersOf_assignSeq rows m :
  0 <= m -> (forall x, In x (numbersOf rows) -> x <= m) ->
  NoDup (numbersOf rows) ->
  NoDup (numbersOf (assignSeq rows m)) /\
  (forall x, In x (numbersOf (assignSeq rows m)) ->
             In x (numbersOf rows) \/ m < x).
Proof.
  revert m. induction rows as [|s rest IH]; intros m Hm Hle Hnd.
  - split; [constructor | intros x []].
  - rewrite numbersOf_cons in Hle, Hnd. cbn [assignSeq].
    destruct (missingNumber (StudentRow.unique_number s)) eqn:E.
    + cbn [app] in Hle, Hnd.
      destruct (IH (m + 1)) as [IH1 IH2]; [lia | | exact Hnd |].
      { intros x Hx. specialize (Hle x Hx). lia. }
      destruct (inInt4 (m + 1)).
      * rewrite numbersOf_cons. cbn [setNumber StudentRow.unique_number
                                       missingNumber numberOrZero].
        destruct (Z.eqb_spec (m + 1) 0); [lia|]. cbn [app]. split.
        -- constructor; [|exact IH1]. intros Hin.
           destruct (IH2 _ Hin) as [Hx|Hx]; [|lia]. specialize (Hle _ Hx). lia.
        -- rewrite numbersOf_cons, E. cbn [app].
           intros x [<-|Hx]; [right; lia|].
           destruct (IH2 _ Hx); [auto | right; lia].
      * rewrite !numbersOf_cons, E. cbn [app]. split; [exact IH1|].
        intros x Hx. destruct (IH2 _ Hx); [auto | right; lia].
    + cbn [app] in Hle, Hnd. apply NoDup_cons_iff in Hnd as [Hs Hnd].
      destruct (IH m) as [IH1 IH2]; auto.
      { intros x Hx. apply Hle. simpl. auto. }
      rewrite !numbersOf_cons, E. cbn [app]. split.
      * constructor; [|exact IH1]. intros Hin.
        destruct (IH2 _ Hin) as [Hx|Hx]; [contradiction|].
        assert (numberOrZero (StudentRow.unique_number s) <= m)
          by (apply Hle; simpl; auto). lia.
      * intros x [<-|Hx]; [left; simpl; auto|].
        destruct (IH2 _ Hx); [left; simpl; auto | auto].
Qed.

Lemma evolve_assignSeq rows m :
  NoDup (map (fun r => toLowerCase (StudentRow.id r)) rows) ->
  map (evolve (fitting (collectUpdates rows m))) rows = assignSeq rows m.
Proof.
  revert m. induction rows as [|s rest IH]; intros m Hnd; [reflexivity|].
  cbn [map] in Hnd. apply NoDup_cons_iff in Hnd as [Hs Hnd].
  assert (Hdiff : forall r, In r rest ->
            uuidEq (StudentRow.id r) (StudentRow.id s) = false).
  { intros r Hr. destruct (uuidEq _ _) eqn:E; [|reflexivity].
    exfalso. apply Hs. apply uuidEq_iff in E. rewrite <- E.
    now apply (in_map (fun r => toLowerCase (StudentRow.id r))). }
  assert (Hself : forall m' x, StudentRow.id x = StudentRow.id s ->
            evolve (fitting (collectUpdates rest m')) x = x).
  { intros m' x Hx. apply evolve_untouched. intros u Hu.
    apply filter_In in Hu as [Hu _].
    apply collectUpdates_spec in Hu as (r & Hr & -> & _).
    rewrite Hx. destruct (uuidEq _ _) eqn:E; [|reflexivity].
    apply uuidEq_iff in E. specialize (Hdiff r Hr).
    assert (uuidEq (StudentRow.id r) (StudentRow.id s) = true)
      by (apply uuidEq_iff; congruence). congruence. }
  cbn [collectUpdates assignSeq map].
  destruct (missingNumber (StudentRow.unique_number s)).
  - cbn [fitting filter snd]. fold (fitting (collectUpdates rest (m + 1))).
    destruct (inInt4 (m + 1)).
    + f_equal.
      * rewrite evolve_cons. unfold renumber. cbn [fst snd].
        rewrite uuidEq_refl. apply (Hself (m + 1) (setNumber s (m + 1))).
        reflexivity.
      * rewrite <- IH by exact Hnd. apply map_ext_in. intros r Hr.
        rewrite evolve_cons. unfold renumber. cbn [fst].
        now rewrite (Hdiff r Hr).
    + f_equal; [now apply Hself | now apply IH].
  - f_equal; [now apply Hself | now apply IH].
Qed.

Lemma NoDup_map_filter {A B} (f : A -> B) (p : A -> bool) l :
  NoDup (map f l) -> NoDup (map f (filter p l)).
Proof.
  induction l as [|x l IH]; [auto|]. cbn [map filter]. intros H.
  apply NoDup_cons_iff in H as [Hx H]. destruct (p x); [|auto].
  cbn [map]. constructor; [|auto]. intros Hin. apply Hx.
  apply in_map_iff in Hin as [y [E Hy]]. apply filter_In in Hy as [Hy _].
  rewrite <- E. now apply in_map.
Qed.

Lemma numbersOf_perm l l' :
  Permutation l l' -> Permutation (numbersOf l) (numbersOf l').
Proof.
  intros H. unfold numbersOf, uniqueIdsOf.
  apply Permutation_flat_map, Permutation_map, H.
Qed.

(** The rows of the class, read by name, are keyed by id when the table
    is. *)
Lemma classByName_keys pg d c :
  primaryKey d ->
  NoDup (map (fun r => toLowerCase (StudentRow.id r)) (classByName pg d c)).
Proof.
  intros Hpk.
  apply (Permutation_NoDup
           (l := map (fun r => toLowerCase (StudentRow.id r)) (rowsOfClass d c))).
  - apply Permutation_map. symmetry. apply sortBy_perm.
  - apply NoDup_map_filter. exact Hpk.
Qed.

(** The class after [ensureClassStudentNumbers] on a table with the number
    column. *)
Lemma class_after pg c w :
  uuidRegex_test c = true -> uuidKeyed (rowsOfClass (db w) c) ->
  primaryKey (db w) -> numbered (db w) = true ->
  Permutation
    (rowsOfClass (db (snd (ensureClassStudentNumbers pg c w))) c)
    (assignSeq (classByName pg (db w) c)
               (highestNumber (classByName pg (db w) c))).
Proof.
  intros Hu Hk Hpk Hn.
  rewrite (rowsOfClass_after pg c w Hu Hk Hn).
  set (rows := classByName pg (db w) c).
  rewrite <- (evolve_assignSeq rows (highestNumber rows))
    by now apply classByName_keys.
  apply Permutation_map. symmetry. apply sortBy_perm.
Qed.

(** X19.  In a table keyed by id, [ensureClassStudentNumbers] keeps the
    sequence numbers of a class distinct: if no two students of the class
    shared a number before, no two share one afterwards. *)
Theorem ensureClassStudentNumbers_keeps_numbers_distinct
    (pg : jstring -> jstring -> Z) (c : jstring) (w : World) :
  CanonicalUuid c -> uuidKeyed (rowsOfClass (db w) c) -> primaryKey (db w) ->
  NoDup (numbersOf (rowsOfClass (db w) c)) ->
  NoDup (numbersOf
           (rowsOfClass (db (snd (ensureClassStudentNumbers pg c w))) c)).
Proof.
  intros Hu Hk Hpk Hnd. apply uuidRegex_test_spec in Hu.
  destruct (numbered (db w)) eqn:Hn.
  - set (rows := classByName pg (db w) c).
    assert (Hperm : Permutation rows (rowsOfClass (db w) c))
      by apply sortBy_perm.
    apply (Permutation_NoDup
             (l := numbersOf (assignSeq rows (highestNumber rows)))).
    + apply numbersOf_perm. symmetry. now apply class_after.
    + apply numbersOf_assignSeq.
      * apply highestNumber_nonneg.
      * apply numbersOf_le_highest.
      * apply (Permutation_NoDup (l := numbersOf (rowsOfClass (db w) c)));
          [apply numbersOf_perm; now symmetry | exact Hnd].
  - destruct (ensureClassStudentNumbers_unnumbered pg c w Hu Hn) as [_ ->].
    exact Hnd.
Qed.

(** Everyone has a number in the end exactly when every number given
    fits. *)
Lemma assignSeq_numbered rows m :
  0 <= m ->
  (forallb (fun u => inInt4 (snd u)) (collectUpdates rows m) = true <->
   forall r, In r (assignSeq rows m) ->
             missingNumber (StudentRow.unique_number r) = false).
Proof.
  revert m. induction rows as [|s rest IH]; intros m Hm.
  - split; [intros _ r [] | reflexivity].
  - cbn [collectUpdates assignSeq].
    destruct (missingNumber (StudentRow.unique_number s)) eqn:E.
    + cbn [forallb snd]. rewrite andb_true_iff, (IH (m + 1)) by lia. split.
      * intros [Hfit H] r [<-|Hr]; [|now apply H].
        rewrite Hfit. cbn. destruct (Z.eqb_spec (m + 1) 0); [lia | reflexivity].
      * intros H. split; [|intros r Hr; apply H; now right].
        destruct (inInt4 (m + 1)); [reflexivity|].
        specialize (H s (or_introl eq_refl)). congruence.
    + rewrite (IH m Hm). split.
      * intros H r [<-|Hr]; [exact E | now apply H].
      * intros H r Hr. apply H. now right.
Qed.

(** X20.  In a table keyed by id that has the number column, the class
    after [ensureClassStudentNumbers] is the class read by name with the
    numbers given out down that list: each student without a number is
    given the one after the last given, the first the one after the highest
    the class had, and takes it if it fits the column.  (The order of the
    rows in the table is left aside.)  The function returns [true] exactly
    when everyone has a number in the end. *)
Theorem ensureClassStudentNumbers_numbers_by_name
    (pg : jstring -> jstring -> Z) (c : jstring) (w : World) :
  CanonicalUuid c -> uuidKeyed (rowsOfClass (db w) c) -> primaryKey (db w) ->
  numbered (db w) = true ->
  Permutation
    (rowsOfClass (db (snd (ensureClassStudentNumbers pg c w))) c)
    (assignSeq (classByName pg (db w) c)
               (highestNumber (classByName pg (db w) c))) /\
  (fst (ensureClassStudentNumbers pg c w) = true <->
   forall r, In r (rowsOfClass (db (snd (ensureClassStudentNumbers pg c w))) c) ->
             missingNumber (StudentRow.unique_number r) = false).
Proof.
  intros Hu Hk Hpk Hn. apply uuidRegex_test_spec in Hu.
  pose proof (class_after pg c w Hu Hk Hpk Hn) as Hperm.
  split; [exact Hperm|].
  destruct (ensureClassStudentNumbers_run pg c w Hu Hk Hn) as (H1 & _).
  rewrite H1, assignSeq_numbered by apply highestNumber_nonneg.
  split; intros H r Hr; apply H.
  - exact (Permutation_in _ Hperm Hr).
  - exact (Permutation_in _ (Permutation_sym Hperm) Hr).
Qed.

Lemma collectUpdates_nil rows m :
  (forall r, In r rows -> missingNumber (StudentRow.unique_number r) = false) ->
  collectUpdates rows m = [].
Proof.
  induction rows as [|s rest IH]; intros H; [reflexivity|].
  cbn [collectUpdates]. rewrite (H s) by (simpl; auto).
  apply IH. intros r Hr. apply H. simpl; auto.
Qed.

(** X21.  [ensureClassStudentNumbers] is idempotent: run again right after
    a run that numbered everyone (the table has the number column, with
    room for a number for every student of the class, whose rows have uuids
    as ids), it returns [true] and changes no row. *)
Theorem ensureClassStudentNumbers_twice
    (pg : jstring -> jstring -> Z) (c : jstring) (w : World) :
  CanonicalUuid c -> uuidKeyed (rowsOfClass (db w) c) ->
  numbered (db w) = true -> roomFor (classByName pg (db w) c) ->
  let w' := snd (ensureClassStudentNumbers pg c w) in
  fst (ensureClassStudentNumbers pg c w') = true /\
  students (db (snd (ensureClassStudentNumbers pg c w'))) = students (db w').
Proof.
  intros Hu Hk Hn Hroom w'. apply uuidRegex_test_spec in Hu.
  pose proof (everyone_numbered_after pg c w Hu Hk Hn Hroom) as Hall.
  fold w' in Hall.
  assert (Hk' : uuidKeyed (rowsOfClass (db w') c)).
  { unfold w'. rewrite (rowsOfClass_after pg c w Hu Hk Hn).
    intros r Hr. apply in_map_iff in Hr as [r0 [<- Hr0]].
    destruct (evolve_keeps
                (fitting (collectUpdates (classByName pg (db w) c)
                            (highestNumber (classByName pg (db w) c)))) r0)
      as [-> _]. now apply Hk. }
  assert (Hn' : numbered (db w') = true).
  { now destruct (ensureClassStudentNumbers_run pg c w Hu Hk Hn)
      as (_ & _ & _ & ?). }
  destruct (ensureClassStudentNumbers_run pg c w' Hu Hk' Hn') as (H1 & H2 & _).
  assert (Hnil : collectUpdates (classByName pg (db w') c)
                   (highestNumber (classByName pg (db w') c)) = []).
  { apply collectUpdates_nil. intros r Hr. apply Hall.
    unfold classByName in Hr. now apply sortBy_In in Hr. }
  rewrite H1, H2, Hnil. split; [reflexivity|].
  cbn [fitting filter]. rewrite <- (map_id (students (db w'))) at 2.
  apply map_ext. reflexivity.
Qed.

(** X23.  On a table without the number column
    [ensureClassStudentNumbers] changes nothing: it returns [false] when a
    student of the class is without a number, which there is every student,
    and [true] when the class has no students. *)
Theorem ensureClassStudentNumbers_without_number_column
    (pg : jstring -> jstring -> Z) (c : jstring) (w : World) :
  CanonicalUuid c -> numbered (db w) = false ->
  db (snd (ensureClassStudentNumbers pg c w)) = db w /\
  (fst (ensureClassStudentNumbers pg c w) = false <->
   exists r, In r (rowsOfClass (db w) c) /\
             missingNumber (StudentRow.unique_number r) = true).
Proof.
  intros Hu Hn. apply uuidRegex_test_spec in Hu.
  destruct (ensureClassStudentNumbers_unnumbered pg c w Hu Hn) as [H1 H2].
  split; [exact H2|]. rewrite H1.
  set (rows := classByName pg (db w) c).
  assert (Hin : forall r, In r (rowsOfClass (db w) c) <-> In r rows).
  { intros r. unfold rows, classByName. now rewrite sortBy_In. }
  split.
  - destruct (collectUpdates rows (highestNumber rows)) as [|u ups] eqn:E;
      [discriminate|]. intros _.
    destruct (collectUpdates_spec rows (highestNumber rows) u)
      as (r & Hr & _ & Hm & _); [rewrite E; now left|].
    exists r. split; [now apply Hin | exact Hm].
  - intros (r & Hr & Hm).
    destruct (collectUpdates_covers rows (highestNumber rows) r) as [n Hn'];
      [now apply Hin | exact Hm |].
    destruct (collectUpdates rows (highestNumber rows)); [destruct Hn'|].
    reflexivity.
Qed.

(** ** Instances of the further properties *)

Lemma canonical_uuid1 : CanonicalUuid (str uuid1).
Proof. apply uuidRegex_test_spec. reflexivity. Qed.

Lemma canonical_uuidA : CanonicalUuid (str uuidA).
Proof. apply uuidRegex_test_spec. reflexivity. Qed.

Lemma primaryKey_unnumbered : primaryKey unnumbered.
Proof.
  unfold primaryKey. vm_compute.
  repeat (constructor; [simpl; intuition discriminate|]). constructor.
Qed.

Lemma uuidKeyed_unnumbered : uuidKeyed (rowsOfClass unnumbered (str uuid1)).
Proof. intros r [<-|[<-|[<-|[]]]]; reflexivity. Qed.

Lemma roomFor_unnumbered :
  roomFor (classByName codeUnitCompare unnumbered (str uuid1)).
Proof. vm_compute. discriminate. Qed.

Lemma getStudents_lists_the_class_witness :
  Permutation (run (getStudents codeUnitCompare codeUnitCompare (str uuid1)) school)
              (map mapStudentFromDB (rowsOfClass school (str uuid1))) /\
  Permutation
    (run (getStudents codeUnitCompare codeUnitCompare
            (str "11111111111111111111111111111111")) school)
    (map mapStudentFromDB (rowsOfClass school (str uuid1))) /\
  run (getStudents codeUnitCompare codeUnitCompare (str "5thGrade12")) school = [].
Proof.
  split; [|split].
  - apply (getStudents_lists_the_class codeUnitCompare codeUnitCompare
             (str uuid1) school), canonical_uuid1.
  - apply (getStudents_lists_the_class codeUnitCompare codeUnitCompare
             (str "11111111111111111111111111111111") school).
    reflexivity.
  - apply (getStudents_lists_the_class codeUnitCompare codeUnitCompare
             (str "5thGrade12") school). reflexivity.
Defined.

Lemma getClass_finds_the_row_witness :
  run (getClass (str "11111111-1111-1111-1111-111111111111")) school =
    Some (mapClassFromDB fifth) <->
  exists row, In row (classes school) /\
              uuidEq (ClassRow.id row) (str uuid1) = true /\
              mapClassFromDB fifth = mapClassFromDB row.
Proof.
  apply (getClass_finds_the_row (str uuid1) school (mapClassFromDB fifth)).
  - vm_compute. repeat (constructor; [simpl; intuition discriminate|]).
    constructor.
  - exact canonical_uuid1.
Defined.

Lemma deleteStudent_then_getStudent_witness :
  let w' := snd (deleteStudent (str uuidA) (boot school)) in
  fst (deleteStudent (str uuidA) (boot school)) = true /\
  fst (getStudent (str uuidA) w') = None /\
  (forall j, toLowerCase j <> toLowerCase (str uuidA) ->
             fst (getStudent j w') = fst (getStudent j (boot school))) /\
  classes (db w') = classes (db (boot school)).
Proof.
  exact (deleteStudent_then_getStudent (str uuidA) (boot school) canonical_uuidA).
Defined.

Lemma deleteStudent_malformed_id_witness :
  fst (deleteStudent (str "5thGrade12") (boot school)) = false /\
  db (snd (deleteStudent (str "5thGrade12") (boot school))) = db (boot school).
Proof.
  exact (deleteStudent_malformed_id (str "5thGrade12") (boot school) eq_refl).
Defined.

Lemma saveStudent_keeps_given_number_witness :
  preparePayload veteran (boot school) = (initialPayload veteran, boot school) /\
  (forall s, fst (saveStudent veteran (boot school)) = Some s ->
             Student.uniqueId s = Some 7).
Proof.
  destruct (saveStudent_keeps_given_number veteran (boot school) eq_refl)
    as [H1 H2].
  split; [exact H1 | exact (H2 eq_refl)].
Defined.

Lemma saveStudent_unreadable_class_witness :
  fst (preparePayload stray (boot school)) = initialPayload stray /\
  fst (saveStudent stray (boot school)) = None /\
  db (snd (saveStudent stray (boot school))) = db (boot school).
Proof.
  destruct (saveStudent_unreadable_class stray (boot school) eq_refl)
    as [H1 H2].
  split; [exact H1|]. apply H2. discriminate.
Defined.

Lemma saved_student_is_found_witness :
  exists s,
    fst (saveStudent newcomer (boot classOfTwo)) = Some s /\
    fst (getStudent (Student.id s)
           (snd (saveStudent newcomer (boot classOfTwo)))) = Some s.
Proof.
  eexists. split; [reflexivity|].
  apply (saved_student_is_found newcomer (boot classOfTwo)).
  - intros _. split; reflexivity.
  - reflexivity.
Defined.

Lemma saveStudent_leaves_other_rows_witness :
  In (bob 3) (students (db (snd (saveStudent veteran (boot school))))) /\
  classes (db (snd (saveStudent veteran (boot school)))) =
    classes (db (boot school)).
Proof.
  apply (saveStudent_leaves_other_rows veteran (boot school) (bob 3)).
  - right. left. reflexivity.
  - intros i u [= <-] [= <-]. reflexivity.
Defined.

Lemma consecutive_saves_number_consecutively_witness :
  exists sa sb n,
    fst (saveStudent newcomer (boot classOfTwo)) = Some sa /\
    fst (saveStudent newcomer (snd (saveStudent newcomer (boot classOfTwo)))) =
      Some sb /\
    Student.uniqueId sa = Some n /\ Student.uniqueId sb = Some (n + 1) /\
    n = maxUniqueNumber (rowsOfClass (db (boot classOfTwo)) (str uuid1)) + 1.
Proof.
  apply (consecutive_saves_number_consecutively newcomer newcomer (str uuid1)
           (boot classOfTwo) canonical_uuid1); try reflexivity.
  - vm_compute. discriminate.
  - discriminate.
  - discriminate.
  - exists fifth. split; [left|]; reflexivity.
Defined.


Lemma resolved_student_is_real_witness :
  exists row, In row (students school) /\
              mapStudentFromDB (ann 12) = mapStudentFromDB row.
Proof.
  apply (resolved_student_is_real codeUnitCompare codeUnitCompare
           (str "5thGrade12") school (mapStudentFromDB (ann 12))
           (Some (mapClassFromDB fifth))).
  reflexivity.
Defined.

Lemma display_id_is_alphanumeric_witness :
  forallb isAlnum (getFullDisplayId (Some (mapStudentFromDB (ann 12)))
                                    (Some (mapClassFromDB fifth))) = true.
Proof.
  apply (display_id_is_alphanumeric (mapStudentFromDB (ann 12))
           (mapClassFromDB fifth) 12); [reflexivity|].
  split; [lia | vm_compute; discriminate].
Defined.

Lemma getSessions_without_extra_videos_witness :
  let sessions := succeed [sessionRow uuid1 "https://v/1.mp4"; sessionRow uuid2 " "] in
  let videos := fail (str "42P01") (str "relation does not exist") in
  map Session.id (getSessions sessions videos) = [str uuid1; str uuid2] /\
  map Session.videoUrls (getSessions sessions videos) =
    [Some [str "https://v/1.mp4"]; Some []].
Proof.
  intros sessions videos.
  destruct (getSessions_without_extra_videos sessions videos
              [sessionRow uuid1 "https://v/1.mp4"; sessionRow uuid2 " "]
              eq_refl eq_refl eq_refl) as [H _].
  split; [exact H | reflexivity].
Defined.

Lemma ensureClassStudentNumbers_numbers_everyone_witness :
  let w' := snd (ensureClassStudentNumbers codeUnitCompare (str uuid1)
                   (boot unnumbered)) in
  fst (ensureClassStudentNumbers codeUnitCompare (str uuid1) (boot unnumbered))
    = true /\
  (forall r, In r (rowsOfClass (db w') (str uuid1)) ->
             missingNumber (StudentRow.unique_number r) = false) /\
  map StudentRow.id (rowsOfClass (db w') (str uuid1)) =
    map StudentRow.id (rowsOfClass (db (boot unnumbered)) (str uuid1)) /\
  classes (db w') = classes (db (boot unnumbered)).
Proof.
  exact (ensureClassStudentNumbers_numbers_everyone codeUnitCompare (str uuid1)
           (boot unnumbered) canonical_uuid1 uuidKeyed_unnumbered eq_refl
           roomFor_unnumbered).
Defined.

Lemma ensureClassStudentNumbers_changes_numbers_only_witness :
  let after := students (db (snd (ensureClassStudentNumbers codeUnitCompare
                                    (str uuid1) (boot unnumbered)))) in
  In (studentRow uuidC uuid1 "Cid" (Some 4)) after /\
  exists n, 4 < n <= INT4_MAX /\
            In (setNumber (studentRow uuidB uuid1 "Bob" None) n) after.
Proof.
  intros after. split.
  - apply (ensureClassStudentNumbers_changes_numbers_only codeUnitCompare
             (str uuid1) (boot unnumbered) (studentRow uuidC uuid1 "Cid" (Some 4))
             canonical_uuid1 uuidKeyed_unnumbered primaryKey_unnumbered).
    + right. right. left. reflexivity.
    + left. reflexivity.
  - apply (ensureClassStudentNumbers_changes_numbers_only codeUnitCompare
             (str uuid1) (boot unnumbered) (studentRow uuidB uuid1 "Bob" None)
             canonical_uuid1 uuidKeyed_unnumbered primaryKey_unnumbered).
    + left. reflexivity.
    + reflexivity.
    + reflexivity.
    + reflexivity.
    + exact roomFor_unnumbered.
Defined.

Lemma ensureClassStudentNumbers_keeps_numbers_distinct_witness :
  NoDup (numbersOf
           (rowsOfClass (db (snd (ensureClassStudentNumbers codeUnitCompare
                                    (str uuid1) (boot unnumbered))))
                        (str uuid1))).
Proof.
  apply (ensureClassStudentNumbers_keeps_numbers_distinct codeUnitCompare
           (str uuid1) (boot unnumbered) canonical_uuid1 uuidKeyed_unnumbered
           primaryKey_unnumbered).
  vm_compute. constructor; [intros []|constructor].
Defined.

Lemma ensureClassStudentNumbers_numbers_by_name_witness :
  Permutation
    (rowsOfClass (db (snd (ensureClassStudentNumbers codeUnitCompare (str uuid1)
                             (boot unnumbered)))) (str uuid1))
    [setNumber (studentRow uuidA uuid1 "Ann" None) 5;
     setNumber (studentRow uuidB uuid1 "Bob" None) 6;
     studentRow uuidC uuid1 "Cid" (Some 4)].
Proof.
  exact (proj1 (ensureClassStudentNumbers_numbers_by_name codeUnitCompare
                  (str uuid1) (boot unnumbered) canonical_uuid1
                  uuidKeyed_unnumbered primaryKey_unnumbered eq_refl)).
Defined.

Lemma ensureClassStudentNumbers_twice_witness :
  let w' := snd (ensureClassStudentNumbers codeUnitCompare (str uuid1)
                   (boot unnumbered)) in
  fst (ensureClassStudentNumbers codeUnitCompare (str uuid1) w') = true /\
  students (db (snd (ensureClassStudentNumbers codeUnitCompare (str uuid1) w'))) =
    students (db w').
Proof.
  exact (ensureClassStudentNumbers_twice codeUnitCompare (str uuid1)
           (boot unnumbered) canonical_uuid1 uuidKeyed_unnumbered eq_refl
           roomFor_unnumbered).
Defined.

Lemma ensureClassStudentNumbers_without_number_column_witness :
  db (snd (ensureClassStudentNumbers codeUnitCompare (str uuid1) (boot legacy)))
    = db (boot legacy) /\
  (fst (ensureClassStudentNumbers codeUnitCompare (str uuid1) (boot legacy))
     = false <->
   exists r, In r (rowsOfClass (db (boot legacy)) (str uuid1)) /\
             missingNumber (StudentRow.unique_number r) = true).
Proof.
  exact (ensureClassStudentNumbers_without_number_column codeUnitCompare
           (str uuid1) (boot legacy) canonical_uuid1 eq_refl).
Defined.
